(** * VICE: C64 model table ([src/c64/c64scmodel.c]) and GTK3 menu
      references ([src/arch/gtk3/uimenu.c])

    A shallow embedding of the model detection and setting code of x64sc and
    of the menu item reference table of the GTK3 port, with the properties
    that the specification states about them.

    Conventions.
    - A C [int] is a [Z]; where the source shifts left, the two's complement
      wrap-around is written out ([wrap_int]).
    - A C string is the [string] of its characters before the terminator;
      a [const char *] that may be [NULL] is an [option string].
    - Reading an array outside its bounds has no defined result: functions
      that index a table return an [option], [None] standing for that case.
    - The constants of the headers ([c64model.h], [vicii.h], [sid.h], ...)
      are not part of the sources at hand: they are the fields of the class
      [Headers], and every assumption made on their values is a named
      hypothesis of the theorem that needs it. *)

From Stdlib Require Import ZArith Lia Bool.
From stdpp Require Import base numbers list strings gmap pretty.

(** ** The C64 model table *)

Module C64Model.

Local Open Scope Z_scope.

(** The macros the file takes from its headers. *)
Class Headers : Type := {
  (* vicii.h *)
  VICII_MODEL_6569 : Z;
  VICII_MODEL_8565 : Z;
  VICII_MODEL_6569R1 : Z;
  VICII_MODEL_6567 : Z;
  VICII_MODEL_8562 : Z;
  VICII_MODEL_6567R56A : Z;
  VICII_MODEL_6572 : Z;
  (* machine.h *)
  MACHINE_SYNC_PAL : Z;
  MACHINE_SYNC_NTSC : Z;
  MACHINE_SYNC_NTSCOLD : Z;
  MACHINE_SYNC_PALN : Z;
  (* cia.h *)
  CIA_MODEL_6526 : Z;
  CIA_MODEL_6526A : Z;
  (* sid.h *)
  SID_MODEL_6581 : Z;
  SID_MODEL_8580 : Z;
  SID_MODEL_8580D : Z;
  (* c64model.h, c64.h *)
  C64MODEL_NUM : Z;
  C64MODEL_UNKNOWN : Z;
  OLD_SID : Z;
  NEW_SID : Z;
  GLUE_DISCRETE : Z;
  GLUE_CUSTOM_IC : Z;
  BOARD_C64 : Z;
  BOARD_MAX : Z;
  BOARD_SX64 : Z;
  IEC_HARD_RESET : Z;
  IEC_SOFT_RESET : Z;
  CIATICK_NET : Z;
  CIATICK_60HZ : Z;
  HAS_DATASETTE : Z;
  NO_DATASETTE : Z;
  HAS_IEC : Z;
  NO_IEC : Z;
  HAS_USERPORT : Z;
  NO_USERPORT : Z;
  HAS_KEYBOARD : Z;
  NO_KEYBOARD : Z;
  HAS_CIA2 : Z;
  NO_CIA2 : Z;
  (* c64rom.h *)
  C64_CHARGEN_NAME : string;
  C64_CHARGEN_JAP_NAME : string;
  C64_KERNAL_REV1 : Z;
  C64_KERNAL_REV2 : Z;
  C64_KERNAL_REV3 : Z;
  C64_KERNAL_SX64 : Z;
  C64_KERNAL_JAP : Z;
  C64_KERNAL_GS64 : Z;
  C64_KERNAL_4064 : Z;
  C64_KERNAL_NONE : Z
}.

(** [struct model_s]. *)
Record model_s : Type := Model {
  vicii : Z;      (* VIC-II model *)
  video : Z;      (* machine video timing *)
  ciatick : Z;
  cia : Z;        (* old or new *)
  glue : Z;       (* discrete or ASIC *)
  sid : Z;        (* old or new *)
  board : Z;
  iecreset : Z;
  datasette : Z;
  iec : Z;
  userport : Z;
  keyboard : Z;
  cia2 : Z;
  chargenname : string;
  kernalrev : Z
}.

(** The fields of [c64model_details_t] that the file uses ([c64model.h]);
    [board], [iecreset] and [kernalrev] are also names of [model_s], hence
    the prefix. *)
Record c64model_details_t : Type := Details {
  d_vicii_model : Z;
  d_sid_model : Z;
  d_glue_logic : Z;
  d_cia1_model : Z;
  d_cia2_model : Z;
  d_board : Z;
  d_iecreset : Z;
  d_chargen : option string;
  d_kernalrev : Z
}.

(** [int] arithmetic: the value of a 32 bit two's complement result. *)
Definition int_range (z : Z) : Prop := - 2 ^ 31 <= z < 2 ^ 31.

Definition wrap_int (z : Z) : Z := (z + 2 ^ 31) mod 2 ^ 32 - 2 ^ 31.

(** [strcmp], by its sign. *)
Definition strcmp (a b : string) : Z :=
  match String.compare a b with
  | Eq => 0
  | Lt => -1
  | Gt => 1
  end.

Section WithHeaders.

Context {K : Headers}.

Definition CIA_MODEL_DEFAULT_OLD : Z := CIA_MODEL_6526.
Definition CIA_MODEL_DEFAULT_NEW : Z := CIA_MODEL_6526A.

(** The [switch] of [is_new_sid]: [SID_MODEL_6581] shares the [default]
    label. *)
Definition is_new_sid (model : Z) : Z :=
  if model =? SID_MODEL_8580 then 1
  else if model =? SID_MODEL_8580D then 1
  else 0.

Definition is_new_cia (model : Z) : Z :=
  if model =? CIA_MODEL_6526A then 1 else 0.

(** The initialiser of [c64models], in the order of the source. *)
Definition c64models : list model_s := [
  (* C64 PAL *)
  Model VICII_MODEL_6569 MACHINE_SYNC_PAL CIATICK_NET
        CIA_MODEL_DEFAULT_OLD GLUE_DISCRETE OLD_SID BOARD_C64
        IEC_SOFT_RESET HAS_DATASETTE HAS_IEC HAS_USERPORT HAS_KEYBOARD HAS_CIA2
        C64_CHARGEN_NAME C64_KERNAL_REV3;
  (* C64C PAL *)
  Model VICII_MODEL_8565 MACHINE_SYNC_PAL CIATICK_NET
        CIA_MODEL_DEFAULT_NEW GLUE_CUSTOM_IC NEW_SID BOARD_C64
        IEC_HARD_RESET HAS_DATASETTE HAS_IEC HAS_USERPORT HAS_KEYBOARD HAS_CIA2
        C64_CHARGEN_NAME C64_KERNAL_REV3;
  (* C64 OLD PAL *)
  Model VICII_MODEL_6569R1 MACHINE_SYNC_PAL CIATICK_NET
        CIA_MODEL_DEFAULT_OLD GLUE_DISCRETE OLD_SID BOARD_C64
        IEC_SOFT_RESET HAS_DATASETTE HAS_IEC HAS_USERPORT HAS_KEYBOARD HAS_CIA2
        C64_CHARGEN_NAME C64_KERNAL_REV2;
  (* C64 NTSC *)
  Model VICII_MODEL_6567 MACHINE_SYNC_NTSC CIATICK_NET
        CIA_MODEL_DEFAULT_OLD GLUE_DISCRETE OLD_SID BOARD_C64
        IEC_SOFT_RESET HAS_DATASETTE HAS_IEC HAS_USERPORT HAS_KEYBOARD HAS_CIA2
        C64_CHARGEN_NAME C64_KERNAL_REV3;
  (* C64C NTSC *)
  Model VICII_MODEL_8562 MACHINE_SYNC_NTSC CIATICK_NET
        CIA_MODEL_DEFAULT_NEW GLUE_CUSTOM_IC NEW_SID BOARD_C64
        IEC_HARD_RESET HAS_DATASETTE HAS_IEC HAS_USERPORT HAS_KEYBOARD HAS_CIA2
        C64_CHARGEN_NAME C64_KERNAL_REV3;
  (* C64 OLD NTSC *)
  Model VICII_MODEL_6567R56A MACHINE_SYNC_NTSCOLD CIATICK_NET
        CIA_MODEL_DEFAULT_OLD GLUE_DISCRETE OLD_SID BOARD_C64
        IEC_SOFT_RESET HAS_DATASETTE HAS_IEC HAS_USERPORT HAS_KEYBOARD HAS_CIA2
        C64_CHARGEN_NAME C64_KERNAL_REV1;
  (* C64 PAL-N *)
  Model VICII_MODEL_6572 MACHINE_SYNC_PALN CIATICK_NET
        CIA_MODEL_DEFAULT_OLD GLUE_DISCRETE OLD_SID BOARD_C64
        IEC_SOFT_RESET HAS_DATASETTE HAS_IEC HAS_USERPORT HAS_KEYBOARD HAS_CIA2
        C64_CHARGEN_NAME C64_KERNAL_REV3;
  (* SX64 PAL *)
  Model VICII_MODEL_6569 MACHINE_SYNC_PAL CIATICK_60HZ
        CIA_MODEL_DEFAULT_OLD GLUE_DISCRETE OLD_SID BOARD_SX64
        IEC_SOFT_RESET NO_DATASETTE HAS_IEC HAS_USERPORT HAS_KEYBOARD HAS_CIA2
        C64_CHARGEN_NAME C64_KERNAL_SX64;
  (* SX64 NTSC *)
  Model VICII_MODEL_6567 MACHINE_SYNC_NTSC CIATICK_60HZ
        CIA_MODEL_DEFAULT_OLD GLUE_DISCRETE OLD_SID BOARD_SX64
        IEC_SOFT_RESET NO_DATASETTE HAS_IEC HAS_USERPORT HAS_KEYBOARD HAS_CIA2
        C64_CHARGEN_NAME C64_KERNAL_SX64;
  (* C64 Japanese *)
  Model VICII_MODEL_6567 MACHINE_SYNC_NTSC CIATICK_NET
        CIA_MODEL_DEFAULT_OLD GLUE_DISCRETE OLD_SID BOARD_C64
        IEC_SOFT_RESET HAS_DATASETTE HAS_IEC HAS_USERPORT HAS_KEYBOARD HAS_CIA2
        C64_CHARGEN_JAP_NAME C64_KERNAL_JAP;
  (* C64 GS *)
  Model VICII_MODEL_8565 MACHINE_SYNC_PAL CIATICK_NET
        CIA_MODEL_DEFAULT_NEW GLUE_CUSTOM_IC NEW_SID BOARD_C64
        IEC_HARD_RESET NO_DATASETTE NO_IEC NO_USERPORT NO_KEYBOARD HAS_CIA2
        C64_CHARGEN_NAME C64_KERNAL_GS64;
  (* PET64 PAL *)
  Model VICII_MODEL_6569 MACHINE_SYNC_PAL CIATICK_NET
        CIA_MODEL_DEFAULT_OLD GLUE_DISCRETE OLD_SID BOARD_C64
        IEC_SOFT_RESET HAS_DATASETTE HAS_IEC HAS_USERPORT HAS_KEYBOARD HAS_CIA2
        C64_CHARGEN_NAME C64_KERNAL_4064;
  (* PET64 NTSC *)
  Model VICII_MODEL_6567 MACHINE_SYNC_NTSC CIATICK_NET
        CIA_MODEL_DEFAULT_OLD GLUE_DISCRETE OLD_SID BOARD_C64
        IEC_SOFT_RESET HAS_DATASETTE HAS_IEC HAS_USERPORT HAS_KEYBOARD HAS_CIA2
        C64_CHARGEN_NAME C64_KERNAL_4064;
  (* ultimax *)
  Model VICII_MODEL_6567 MACHINE_SYNC_NTSC CIATICK_NET
        CIA_MODEL_DEFAULT_OLD GLUE_DISCRETE OLD_SID BOARD_MAX
        IEC_SOFT_RESET HAS_DATASETTE NO_IEC NO_USERPORT HAS_KEYBOARD NO_CIA2
        C64_CHARGEN_NAME C64_KERNAL_NONE
].

(** The functions below read the array [c64models].  What the array holds
    when a function runs is the argument [T] of the function; at startup it
    holds its initialiser, [c64models].  The functions as they act on the
    array in memory are in [C64ModelMem], further down. *)

(** [T[i]] for a C index: nothing outside the bounds of the array. *)
Definition table_at (T : list model_s) (i : Z) : option model_s :=
  if i <? 0 then None else T !! Z.to_nat i.

(** The condition of the [if] in the loop of [c64model_get_temp], for the
    record [m]; [new_sid] and [new_cia] are the two locals of the function. *)
Definition record_matches (m : model_s)
    (vicii_model new_cia glue_logic new_sid board_type iec_reset : Z)
    (chargen : option string) (kernal_rev : Z) : bool :=
  (vicii m =? vicii_model)
  && (is_new_cia (cia m) =? new_cia)
  && (glue m =? glue_logic)
  && (sid m =? new_sid)
  && (board m =? board_type)
  && (iecreset m =? iec_reset)
  && (kernalrev m =? kernal_rev)
  && match chargen with
     | Some s => strcmp (chargenname m) s =? 0
     | None => false
     end.

(** The [for] loop of [c64model_get_temp] from index [i] on, with [n] the
    number of iterations left before [i] reaches [C64MODEL_NUM]. *)
Fixpoint c64model_scan (T : list model_s) (n : nat) (i : Z)
    (vicii_model new_cia glue_logic new_sid board_type iec_reset : Z)
    (chargen : option string) (kernal_rev : Z) : option Z :=
  match n with
  | O => Some C64MODEL_UNKNOWN
  | S n' =>
      match table_at T i with
      | None => None
      | Some m =>
          if record_matches m vicii_model new_cia glue_logic new_sid
               board_type iec_reset chargen kernal_rev
          then Some i
          else c64model_scan T n' (i + 1) vicii_model new_cia glue_logic
                 new_sid board_type iec_reset chargen kernal_rev
      end
  end.

Definition c64model_get_temp (T : list model_s)
    (vicii_model sid_model glue_logic cia1model cia2model board_type
     iec_reset : Z) (chargen : option string) (kernal_rev : Z) : option Z :=
  if negb (cia1model =? cia2model) then Some C64MODEL_UNKNOWN
  else
    let new_sid := is_new_sid sid_model in
    let new_cia := is_new_cia cia1model in
    c64model_scan T (Z.to_nat C64MODEL_NUM) 0 vicii_model new_cia glue_logic
      new_sid board_type iec_reset chargen kernal_rev.

(** get model from details *)
Definition c64model_get_model (T : list model_s) (details : c64model_details_t)
    : option Z :=
  c64model_get_temp T (d_vicii_model details) (d_sid_model details)
    (d_glue_logic details) (d_cia1_model details) (d_cia2_model details)
    (d_board details) (d_iecreset details) (d_chargen details)
    (d_kernalrev details).

(** Assignments through the [int *] arguments of [c64model_set_temp].  The
    function is [static] and its one caller, [c64model_set_details], passes
    the addresses of the fields of one [c64model_details_t]: the eight
    locations are the fields of that record. *)
Definition store_vicii_model (v : Z) (d : c64model_details_t) :=
  Details v (d_sid_model d) (d_glue_logic d) (d_cia1_model d) (d_cia2_model d)
    (d_board d) (d_iecreset d) (d_chargen d) (d_kernalrev d).
Definition store_sid_model (v : Z) (d : c64model_details_t) :=
  Details (d_vicii_model d) v (d_glue_logic d) (d_cia1_model d)
    (d_cia2_model d) (d_board d) (d_iecreset d) (d_chargen d) (d_kernalrev d).
Definition store_glue_logic (v : Z) (d : c64model_details_t) :=
  Details (d_vicii_model d) (d_sid_model d) v (d_cia1_model d)
    (d_cia2_model d) (d_board d) (d_iecreset d) (d_chargen d) (d_kernalrev d).
Definition store_cia1model (v : Z) (d : c64model_details_t) :=
  Details (d_vicii_model d) (d_sid_model d) (d_glue_logic d) v
    (d_cia2_model d) (d_board d) (d_iecreset d) (d_chargen d) (d_kernalrev d).
Definition store_cia2model (v : Z) (d : c64model_details_t) :=
  Details (d_vicii_model d) (d_sid_model d) (d_glue_logic d) (d_cia1_model d)
    v (d_board d) (d_iecreset d) (d_chargen d) (d_kernalrev d).
Definition store_board (v : Z) (d : c64model_details_t) :=
  Details (d_vicii_model d) (d_sid_model d) (d_glue_logic d) (d_cia1_model d)
    (d_cia2_model d) v (d_iecreset d) (d_chargen d) (d_kernalrev d).
Definition store_iecreset (v : Z) (d : c64model_details_t) :=
  Details (d_vicii_model d) (d_sid_model d) (d_glue_logic d) (d_cia1_model d)
    (d_cia2_model d) (d_board d) v (d_chargen d) (d_kernalrev d).
Definition store_kernalrev (v : Z) (d : c64model_details_t) :=
  Details (d_vicii_model d) (d_sid_model d) (d_glue_logic d) (d_cia1_model d)
    (d_cia2_model d) (d_board d) (d_iecreset d) (d_chargen d) v.

(** [c64model_set_temp]: [d] holds the values at the eight locations and the
    [chargen] argument; the result holds them when the function returns.
    [>>] is the arithmetic shift, [<<] wraps. *)
Definition c64model_set_temp (T : list model_s) (model : Z)
    (d : c64model_details_t) : option c64model_details_t :=
  match c64model_get_temp T (d_vicii_model d) (d_sid_model d) (d_glue_logic d)
          (d_cia1_model d) (d_cia2_model d) (d_board d) (d_iecreset d)
          (d_chargen d) (d_kernalrev d) with
  | None => None
  | Some old_model =>
      if (model =? old_model) || (model =? C64MODEL_UNKNOWN) then Some d
      else
        match table_at T model with
        | None => None
        | Some m =>
            let d := store_vicii_model (vicii m) d in
            let d := store_cia1model (cia m) d in
            let d := store_cia2model (cia m) d in
            let d := store_glue_logic (glue m) d in
            let d := store_board (board m) d in
            let d := store_iecreset (iecreset m) d in
            let d := store_kernalrev (kernalrev m) d in
            (* Only change the SID model if the model changes from 6581 to
               8580.  The current engine is preserved. *)
            let old_engine := Z.shiftr (d_sid_model d) 8 in
            let old_sid_model := Z.land (d_sid_model d) 255 in
            let new_sid_model := sid m in
            let old_type := is_new_sid old_sid_model in
            let new_type := is_new_sid new_sid_model in
            if negb (old_type =? new_type)
            then Some (store_sid_model
                         (Z.lor (wrap_int (Z.shiftl old_engine 8))
                                new_sid_model) d)
            else Some d
        end
  end.

(** get details for model *)
Definition c64model_set_details (T : list model_s)
    (details : c64model_details_t) (model : Z) : option c64model_details_t :=
  c64model_set_temp T model details.

(** *** What the lookup compares

    [key_agrees m ...] spells out the condition of the loop: the record [m]
    and the arguments agree on the VIC-II model, the glue logic, the board,
    the IEC reset and the kernal revision, on the old/new class of the CIA
    and of the SID, and the character ROM name is given and is the
    record's. *)
Definition key_agrees (m : model_s)
    (vicii_model sid_model glue_logic cia1model board_type iec_reset : Z)
    (chargen : option string) (kernal_rev : Z) : Prop :=
  vicii m = vicii_model
  /\ is_new_cia (cia m) = is_new_cia cia1model
  /\ glue m = glue_logic
  /\ sid m = is_new_sid sid_model
  /\ board m = board_type
  /\ iecreset m = iec_reset
  /\ kernalrev m = kernal_rev
  /\ chargen = Some (chargenname m).

(** The reading of the specification: a record matches when each of its
    fields that has an argument is equal to that argument. *)
Definition exact_match (m : model_s)
    (vicii_model sid_model glue_logic cia1model cia2model board_type
     iec_reset : Z) (chargen : option string) (kernal_rev : Z) : bool :=
  (vicii m =? vicii_model)
  && (sid m =? sid_model)
  && (glue m =? glue_logic)
  && (cia m =? cia1model)
  && (cia m =? cia2model)
  && (board m =? board_type)
  && (iecreset m =? iec_reset)
  && bool_decide (chargen = Some (chargenname m))
  && (kernalrev m =? kernal_rev).

(** The lowest index from [i] on whose record satisfies [f]. *)
Fixpoint first_index (f : model_s -> bool) (T : list model_s) (i : Z)
    : option Z :=
  match T with
  | [] => None
  | m :: T' => if f m then Some i else first_index f T' (i + 1)
  end.

(** The lookup as the specification words it: the lowest index of a record
    that matches exactly, [C64MODEL_UNKNOWN] when there is none. *)
Definition lookup_exact (T : list model_s)
    (vicii_model sid_model glue_logic cia1model cia2model board_type
     iec_reset : Z) (chargen : option string) (kernal_rev : Z) : Z :=
  match first_index
          (fun m => exact_match m vicii_model sid_model glue_logic cia1model
                      cia2model board_type iec_reset chargen kernal_rev)
          T 0 with
  | Some i => i
  | None => C64MODEL_UNKNOWN
  end.

(** *** Assumptions on the header constants *)

(** [C64MODEL_NUM] is the number of records of the table. *)
Definition model_count_ok : Prop :=
  C64MODEL_NUM = Z.of_nat (length c64models).

(** The [case] labels of one [switch] are distinct (C requires it). *)
Definition sid_cases_distinct : Prop :=
  NoDup [SID_MODEL_6581; SID_MODEL_8580; SID_MODEL_8580D].

(** [OLD_SID] and [NEW_SID] are what [is_new_sid] makes of them. *)
Definition sid_classes_ok : Prop :=
  is_new_sid OLD_SID = OLD_SID /\ is_new_sid NEW_SID = NEW_SID.

(** [OLD_SID] and [NEW_SID] fit the low byte of a SID model. *)
Definition sid_classes_small : Prop :=
  0 <= OLD_SID < 256 /\ 0 <= NEW_SID < 256.

(** Different chips and different ROMs have different numbers. *)
Definition vicii_models_distinct : Prop :=
  NoDup [VICII_MODEL_6569; VICII_MODEL_8565; VICII_MODEL_6569R1;
         VICII_MODEL_6567; VICII_MODEL_8562; VICII_MODEL_6567R56A;
         VICII_MODEL_6572].

Definition kernal_revs_distinct : Prop :=
  NoDup [C64_KERNAL_REV1; C64_KERNAL_REV2; C64_KERNAL_REV3; C64_KERNAL_SX64;
         C64_KERNAL_JAP; C64_KERNAL_GS64; C64_KERNAL_4064; C64_KERNAL_NONE].

(** [C64MODEL_UNKNOWN] is no index of the table. *)
Definition unknown_is_no_index : Prop :=
  ~ (0 <= C64MODEL_UNKNOWN < C64MODEL_NUM).

End WithHeaders.

(** One assignment of values to the header constants that meets all of the
    assumptions above; the examples are run with it. *)
Definition sample_headers : Headers := {|
  VICII_MODEL_6569 := 0;
  VICII_MODEL_8565 := 1;
  VICII_MODEL_6569R1 := 2;
  VICII_MODEL_6567 := 3;
  VICII_MODEL_8562 := 4;
  VICII_MODEL_6567R56A := 5;
  VICII_MODEL_6572 := 6;
  MACHINE_SYNC_PAL := 1;
  MACHINE_SYNC_NTSC := 2;
  MACHINE_SYNC_NTSCOLD := 3;
  MACHINE_SYNC_PALN := 4;
  CIA_MODEL_6526 := 0;
  CIA_MODEL_6526A := 1;
  SID_MODEL_6581 := 0;
  SID_MODEL_8580 := 1;
  SID_MODEL_8580D := 2;
  C64MODEL_NUM := 14;
  C64MODEL_UNKNOWN := 99;
  OLD_SID := 0;
  NEW_SID := 1;
  GLUE_DISCRETE := 0;
  GLUE_CUSTOM_IC := 1;
  BOARD_C64 := 0;
  BOARD_MAX := 1;
  BOARD_SX64 := 2;
  IEC_HARD_RESET := 0;
  IEC_SOFT_RESET := 1;
  CIATICK_NET := 0;
  CIATICK_60HZ := 1;
  HAS_DATASETTE := 1;
  NO_DATASETTE := 0;
  HAS_IEC := 1;
  NO_IEC := 0;
  HAS_USERPORT := 1;
  NO_USERPORT := 0;
  HAS_KEYBOARD := 1;
  NO_KEYBOARD := 0;
  HAS_CIA2 := 1;
  NO_CIA2 := 0;
  C64_CHARGEN_NAME := "chargen";
  C64_CHARGEN_JAP_NAME := "jpchrgen";
  C64_KERNAL_REV1 := 1;
  C64_KERNAL_REV2 := 2;
  C64_KERNAL_REV3 := 3;
  C64_KERNAL_SX64 := 67;
  C64_KERNAL_JAP := 101;
  C64_KERNAL_GS64 := 102;
  C64_KERNAL_4064 := 100;
  C64_KERNAL_NONE := 0
|}.

(** *** The resource system and the machine parts

    [resources.c], [sid.c] and the port modules are outside the sources at
    hand.  [env] is the state they keep; what their functions do to it is
    left open.  A [resources_get_*] call yields its return value and the
    value found in the variable it was given the address of, and leaves the
    state as it is; the other calls change the state (their return values
    are not used by this file). *)
Class Machine (env : Type) : Type := {
  resources_get_int : string -> env -> Z * Z;
  resources_get_string : string -> env -> Z * option string;
  resources_set_int : string -> Z -> env -> env;
  resources_set_string : string -> string -> env -> env;
  sid_set_engine_model : Z -> Z -> env -> env;
  userport_enable : Z -> env -> env;
  c64keyboard_enable : Z -> env -> env;
  c64iec_enable : Z -> env -> env;
  tapeport_enable : Z -> env -> env;
  c64_cia2_enable : Z -> env -> env
}.

Section WithMachine.

Context {K : Headers} {env : Type} {M : Machine env}.

(** The [||] chain of [c64model_get] stops at the first call that fails. *)
Definition c64model_get (T : list model_s) (e : env) : option Z :=
  let '(r, vicii_model) := resources_get_int "VICIIModel" e in
  if r <? 0 then Some (-1) else
  let '(r, sid_model) := resources_get_int "SidModel" e in
  if r <? 0 then Some (-1) else
  let '(r, glue_logic) := resources_get_int "GlueLogic" e in
  if r <? 0 then Some (-1) else
  let '(r, cia1model) := resources_get_int "CIA1Model" e in
  if r <? 0 then Some (-1) else
  let '(r, cia2model) := resources_get_int "CIA2Model" e in
  if r <? 0 then Some (-1) else
  let '(r, board_type) := resources_get_int "BoardType" e in
  if r <? 0 then Some (-1) else
  let '(r, iec_reset) := resources_get_int "IECReset" e in
  if r <? 0 then Some (-1) else
  let '(r, kernal_rev) := resources_get_int "KernalRev" e in
  if r <? 0 then Some (-1) else
  let '(r, chargen) := resources_get_string "ChargenName" e in
  if r <? 0 then Some (-1) else
  c64model_get_temp T vicii_model sid_model glue_logic cia1model cia2model
    board_type iec_reset chargen kernal_rev.

(** The power net frequency that [c64model_set] determines for a model. *)
Definition power_frequency (m : model_s) : Z :=
  if ciatick m =? CIATICK_NET then
    if video m =? MACHINE_SYNC_PAL then 50
    else if video m =? MACHINE_SYNC_PALN then 50
    else 60
  else 60.

Definition c64model_set (T : list model_s) (model : Z) (e : env)
    : option env :=
  match c64model_get T e with
  | None => None
  | Some old_model =>
      if (model =? old_model) || (model =? C64MODEL_UNKNOWN) then Some e
      else
        match table_at T model with
        | None => None
        | Some m =>
            let e := resources_set_int "VICIIModel" (vicii m) e in
            let pf := power_frequency m in
            let e := resources_set_int "MachinePowerFrequency" pf e in
            let e := resources_set_int "CIA1Model" (cia m) e in
            let e := resources_set_int "CIA2Model" (cia m) e in
            let e := resources_set_int "GlueLogic" (glue m) e in
            let e := resources_set_int "BoardType" (board m) e in
            let e := resources_set_int "IECReset" (iecreset m) e in
            let e := resources_set_string "ChargenName" (chargenname m) e in
            let e := resources_set_int "KernalRev" (kernalrev m) e in
            let old_engine := snd (resources_get_int "SidEngine" e) in
            let old_sid_model := snd (resources_get_int "SidModel" e) in
            let new_sid_model := sid m in
            let old_type := is_new_sid old_sid_model in
            let new_type := is_new_sid new_sid_model in
            let e := if negb (old_type =? new_type)
                     then sid_set_engine_model old_engine new_sid_model e
                     else e in
            let e := userport_enable (userport m) e in
            let e := c64keyboard_enable (keyboard m) e in
            let e := c64iec_enable (iec m) e in
            let e := tapeport_enable (datasette m) e in
            let e := c64_cia2_enable (cia2 m) e in
            Some e
        end
  end.

(** The resources that [c64model_get] reads with [resources_get_int], in
    the order of the calls. *)
Definition int_resources : list string :=
  ["VICIIModel"; "SidModel"; "GlueLogic"; "CIA1Model"; "CIA2Model";
   "BoardType"; "IECReset"; "KernalRev"].

End WithMachine.

(** *** A machine for the examples

    A store of resources by name; a port keeps its enable flag in the store
    under a name of its own, and [sid_set_engine_model] sets the two SID
    resources. *)
Inductive resource_value : Type :=
| Res_int (v : Z)
| Res_string (v : string).

Definition sample_machine : Machine (gmap string resource_value) := {|
  resources_get_int name e :=
    match e !! name with
    | Some (Res_int v) => (0, v)
    | _ => (-1, 0)
    end;
  resources_get_string name e :=
    match e !! name with
    | Some (Res_string v) => (0, Some v)
    | _ => (-1, None)
    end;
  resources_set_int name v e := <[name := Res_int v]> e;
  resources_set_string name v e := <[name := Res_string v]> e;
  sid_set_engine_model engine model e :=
    <["SidEngine" := Res_int engine]> (<["SidModel" := Res_int model]> e);
  userport_enable v e := <["UserportEnable" := Res_int v]> e;
  c64keyboard_enable v e := <["KeyboardEnable" := Res_int v]> e;
  c64iec_enable v e := <["IECEnable" := Res_int v]> e;
  tapeport_enable v e := <["TapeportEnable" := Res_int v]> e;
  c64_cia2_enable v e := <["CIA2Enable" := Res_int v]> e
|}.

(** The resources of a C64 PAL. *)
Definition sample_env : gmap string resource_value :=
  list_to_map [
    ("VICIIModel", Res_int 0); ("SidModel", Res_int 0);
    ("SidEngine", Res_int 1); ("GlueLogic", Res_int 0);
    ("CIA1Model", Res_int 0); ("CIA2Model", Res_int 0);
    ("BoardType", Res_int 0); ("IECReset", Res_int 1);
    ("KernalRev", Res_int 3); ("ChargenName", Res_string "chargen")].

(** The details of a C64 PAL with a 6581 played by the engine 1, and the
    record of the Japanese C64, with the values of [sample_headers]. *)
Definition c64_pal_details : c64model_details_t :=
  Details 0 256 0 0 0 0 1 (Some "chargen") 3.

Definition c64_japanese : model_s :=
  Model 3 2 0 0 0 0 0 1 1 1 1 1 1 "jpchrgen" 101.

(** *** For the proofs *)

(** Case analysis on [c64models !! j = Some m]: one goal per record. *)
Ltac table_cases H :=
  unfold c64models in H;
  repeat
    match type of H with
    | (_ :: _) !! ?j = Some _ =>
        destruct j as [| j]; [cbn in H; injection H as <- | cbn in H]
    | [] !! _ = Some _ => discriminate H
    end.

(** The position of the VIC-II model and of the kernal revision of the
    record [j] in the lists of [vicii_models_distinct] and
    [kernal_revs_distinct]. *)
Definition vicii_pos (j : nat) : nat :=
  nth j [0; 1; 2; 3; 4; 5; 6; 0; 3; 3; 1; 0; 3; 3]%nat 0%nat.
Definition kernal_pos (j : nat) : nat :=
  nth j [2; 2; 1; 2; 2; 0; 2; 3; 3; 4; 5; 6; 6; 7]%nat 0%nat.

End C64Model.

(** ** The C64 model table in memory

    The functions of [c64scmodel.c] once more, this time as they act on the
    objects of the program: the array [c64models], the objects of type
    [c64model_details_t] that callers hand in by their address, and the
    state of the rest of the emulator.  A function is a [prog]: it runs on a
    state and leaves one.  Each access of the source to the array or through
    a pointer is a step of its own ([record_at], [member_at], [deref],
    [assign]), in the order of the source.

    The array is declared [static const].  A store through an [int *] that
    points into it is given its effect on the array all the same, as on a
    target that keeps the array in writable memory: whether the array is
    ever written is then a matter of what the functions do, and is
    proved. *)

Module C64ModelMem.

Import C64Model.

Local Open Scope Z_scope.

(** The [int] members of [struct model_s] and those of
    [c64model_details_t] that the file uses. *)
Inductive model_member : Type :=
| m_vicii | m_video | m_ciatick | m_cia | m_glue | m_sid | m_board
| m_iecreset | m_datasette | m_iec | m_userport | m_keyboard | m_cia2
| m_kernalrev.

Inductive details_member : Type :=
| dm_vicii_model | dm_sid_model | dm_glue_logic | dm_cia1_model
| dm_cia2_model | dm_board | dm_iecreset | dm_kernalrev.

(** An [int *]: [&c64models[i].f], or [&details->f] for the object at the
    address [details]. *)
Inductive int_ptr : Type :=
| In_c64models (i : Z) (f : model_member)
| In_details (details : Z) (f : details_member).

(** The array and the [c64model_details_t] objects, by address. *)
Record memory : Type := Memory {
  mem_c64models : list model_s;
  mem_details : gmap Z c64model_details_t
}.

Definition member (f : model_member) (m : model_s) : Z :=
  match f with
  | m_vicii => vicii m
  | m_video => video m
  | m_ciatick => ciatick m
  | m_cia => cia m
  | m_glue => glue m
  | m_sid => sid m
  | m_board => board m
  | m_iecreset => iecreset m
  | m_datasette => datasette m
  | m_iec => iec m
  | m_userport => userport m
  | m_keyboard => keyboard m
  | m_cia2 => cia2 m
  | m_kernalrev => kernalrev m
  end.

Definition with_member (f : model_member) (v : Z) (m : model_s) : model_s :=
  match m with
  | Model a b c d e g h i j k l n o s p =>
      match f with
      | m_vicii => Model v b c d e g h i j k l n o s p
      | m_video => Model a v c d e g h i j k l n o s p
      | m_ciatick => Model a b v d e g h i j k l n o s p
      | m_cia => Model a b c v e g h i j k l n o s p
      | m_glue => Model a b c d v g h i j k l n o s p
      | m_sid => Model a b c d e v h i j k l n o s p
      | m_board => Model a b c d e g v i j k l n o s p
      | m_iecreset => Model a b c d e g h v j k l n o s p
      | m_datasette => Model a b c d e g h i v k l n o s p
      | m_iec => Model a b c d e g h i j v l n o s p
      | m_userport => Model a b c d e g h i j k v n o s p
      | m_keyboard => Model a b c d e g h i j k l v o s p
      | m_cia2 => Model a b c d e g h i j k l n v s p
      | m_kernalrev => Model a b c d e g h i j k l n o s v
      end
  end.

Definition details_member_of (f : details_member) (d : c64model_details_t)
    : Z :=
  match f with
  | dm_vicii_model => d_vicii_model d
  | dm_sid_model => d_sid_model d
  | dm_glue_logic => d_glue_logic d
  | dm_cia1_model => d_cia1_model d
  | dm_cia2_model => d_cia2_model d
  | dm_board => d_board d
  | dm_iecreset => d_iecreset d
  | dm_kernalrev => d_kernalrev d
  end.

Definition with_details_member (f : details_member) (v : Z)
    (d : c64model_details_t) : c64model_details_t :=
  match f with
  | dm_vicii_model => store_vicii_model v d
  | dm_sid_model => store_sid_model v d
  | dm_glue_logic => store_glue_logic v d
  | dm_cia1_model => store_cia1model v d
  | dm_cia2_model => store_cia2model v d
  | dm_board => store_board v d
  | dm_iecreset => store_iecreset v d
  | dm_kernalrev => store_kernalrev v d
  end.

(** [*p], and the memory after [*p = v]; nothing where [p] points to no
    object. *)
Definition load (p : int_ptr) (mem : memory) : option Z :=
  match p with
  | In_c64models i f => member f <$> table_at (mem_c64models mem) i
  | In_details details f => details_member_of f <$> mem_details mem !! details
  end.

Definition store (p : int_ptr) (v : Z) (mem : memory) : option memory :=
  match p with
  | In_c64models i f =>
      m ← table_at (mem_c64models mem) i;
      Some (Memory (<[Z.to_nat i := with_member f v m]> (mem_c64models mem))
              (mem_details mem))
  | In_details details f =>
      d ← mem_details mem !! details;
      Some (Memory (mem_c64models mem)
              (<[details := with_details_member f v d]> (mem_details mem)))
  end.

(** The pointer does not point into the array. *)
Definition outside_c64models (p : int_ptr) : Prop :=
  match p with
  | In_c64models _ _ => False
  | In_details _ _ => True
  end.

Section WithMachine.

Context {K : Headers} {env : Type} {M : Machine env}.

(** The memory, and the state of the resource system and of the machine
    parts. *)
Record state : Type := State {
  st_memory : memory;
  st_machine : env
}.

(** A function of the file: from a state to what it returns and the state
    it leaves, or to nothing where its behaviour is not defined. *)
Definition prog (A : Type) : Type := state -> option (A * state).

#[global] Instance prog_ret : MRet prog := fun A a st => Some (a, st).

#[global] Instance prog_bind : MBind prog := fun A B f m st =>
  match m st with
  | Some (a, st') => f a st'
  | None => None
  end.

(** [*p] and [*p = v]. *)
Definition deref (p : int_ptr) : prog Z := fun st =>
  v ← load p (st_memory st); Some (v, st).

Definition assign (p : int_ptr) (v : Z) : prog unit := fun st =>
  mem ← store p v (st_memory st); Some (tt, State mem (st_machine st)).

(** [c64models[i]], [c64models[i].f] and [*details]. *)
Definition record_at (i : Z) : prog model_s := fun st =>
  m ← table_at (mem_c64models (st_memory st)) i; Some (m, st).

Definition member_at {A : Type} (i : Z) (f : model_s -> A) : prog A :=
  m ← record_at i; mret (f m).

Definition details_at (details : Z) : prog c64model_details_t := fun st =>
  d ← mem_details (st_memory st) !! details; Some (d, st).

(** A call into the resource system or a machine part: one that reads, and
    one that changes their state.  The array is [static] and its address is
    handed to none of them. *)
Definition extern_get {A : Type} (f : env -> A) : prog A := fun st =>
  Some (f (st_machine st), st).

Definition extern (f : env -> env) : prog unit := fun st =>
  Some (tt, State (st_memory st) (f (st_machine st))).

(** The [for] loop of [c64model_get_temp] from index [i] on, with [n] the
    number of iterations left. *)
Fixpoint c64model_scan (n : nat) (i : Z)
    (vicii_model new_cia glue_logic new_sid board_type iec_reset : Z)
    (chargen : option string) (kernal_rev : Z) : prog Z :=
  match n with
  | O => mret C64MODEL_UNKNOWN
  | S n' =>
      m ← record_at i;
      if record_matches m vicii_model new_cia glue_logic new_sid board_type
           iec_reset chargen kernal_rev
      then mret i
      else c64model_scan n' (i + 1) vicii_model new_cia glue_logic new_sid
             board_type iec_reset chargen kernal_rev
  end.

Definition c64model_get_temp
    (vicii_model sid_model glue_logic cia1model cia2model board_type
     iec_reset : Z) (chargen : option string) (kernal_rev : Z) : prog Z :=
  if negb (cia1model =? cia2model) then mret C64MODEL_UNKNOWN
  else
    let new_sid := is_new_sid sid_model in
    let new_cia := is_new_cia cia1model in
    c64model_scan (Z.to_nat C64MODEL_NUM) 0 vicii_model new_cia glue_logic
      new_sid board_type iec_reset chargen kernal_rev.

(** get model from details *)
Definition c64model_get_model (details : Z) : prog Z :=
  d ← details_at details;
  c64model_get_temp (d_vicii_model d) (d_sid_model d) (d_glue_logic d)
    (d_cia1_model d) (d_cia2_model d) (d_board d) (d_iecreset d)
    (d_chargen d) (d_kernalrev d).

Definition c64model_get : prog Z :=
  '(r, vicii_model) ← extern_get (resources_get_int "VICIIModel");
  if r <? 0 then mret (-1) else
  '(r, sid_model) ← extern_get (resources_get_int "SidModel");
  if r <? 0 then mret (-1) else
  '(r, glue_logic) ← extern_get (resources_get_int "GlueLogic");
  if r <? 0 then mret (-1) else
  '(r, cia1model) ← extern_get (resources_get_int "CIA1Model");
  if r <? 0 then mret (-1) else
  '(r, cia2model) ← extern_get (resources_get_int "CIA2Model");
  if r <? 0 then mret (-1) else
  '(r, board_type) ← extern_get (resources_get_int "BoardType");
  if r <? 0 then mret (-1) else
  '(r, iec_reset) ← extern_get (resources_get_int "IECReset");
  if r <? 0 then mret (-1) else
  '(r, kernal_rev) ← extern_get (resources_get_int "KernalRev");
  if r <? 0 then mret (-1) else
  '(r, chargen) ← extern_get (resources_get_string "ChargenName");
  if r <? 0 then mret (-1) else
  c64model_get_temp vicii_model sid_model glue_logic cia1model cia2model
    board_type iec_reset chargen kernal_rev.

(** [c64model_set_temp], statement by statement; the pointers [board],
    [iecreset] and [kernalrev] of the source carry a prime here. *)
Definition c64model_set_temp (model : Z)
    (vicii_model sid_model glue_logic cia1model cia2model board' iecreset'
     : int_ptr) (chargen : option string) (kernalrev' : int_ptr)
    : prog unit :=
  v ← deref vicii_model;
  s ← deref sid_model;
  g ← deref glue_logic;
  c1 ← deref cia1model;
  c2 ← deref cia2model;
  b ← deref board';
  i ← deref iecreset';
  k ← deref kernalrev';
  old_model ← c64model_get_temp v s g c1 c2 b i chargen k;
  if (model =? old_model) || (model =? C64MODEL_UNKNOWN) then mret tt
  else
    x ← member_at model vicii; assign vicii_model x;;
    x ← member_at model cia; assign cia1model x;;
    x ← member_at model cia; assign cia2model x;;
    x ← member_at model glue; assign glue_logic x;;
    x ← member_at model board; assign board' x;;
    x ← member_at model iecreset; assign iecreset' x;;
    x ← member_at model kernalrev; assign kernalrev' x;;
    (* Only change the SID model if the model changes from 6581 to 8580.
       The current engine is preserved. *)
    s ← deref sid_model;
    let old_engine := Z.shiftr s 8 in
    s ← deref sid_model;
    let old_sid_model := Z.land s 255 in
    new_sid_model ← member_at model sid;
    let old_type := is_new_sid old_sid_model in
    let new_type := is_new_sid new_sid_model in
    if negb (old_type =? new_type)
    then assign sid_model (Z.lor (wrap_int (Z.shiftl old_engine 8))
                             new_sid_model)
    else mret tt.

(** get details for model *)
Definition c64model_set_details (details : Z) (model : Z) : prog unit :=
  d ← details_at details;
  c64model_set_temp model (In_details details dm_vicii_model)
    (In_details details dm_sid_model) (In_details details dm_glue_logic)
    (In_details details dm_cia1_model) (In_details details dm_cia2_model)
    (In_details details dm_board) (In_details details dm_iecreset)
    (d_chargen d) (In_details details dm_kernalrev).

Definition c64model_set (model : Z) : prog unit :=
  old_model ← c64model_get;
  if (model =? old_model) || (model =? C64MODEL_UNKNOWN) then mret tt
  else
    x ← member_at model vicii; extern (resources_set_int "VICIIModel" x);;
    (* Determine the power net frequency for this model. *)
    ct ← member_at model ciatick;
    pf ← (if ct =? CIATICK_NET then
            vd ← member_at model video;
            mret (if vd =? MACHINE_SYNC_PAL then 50
                  else if vd =? MACHINE_SYNC_PALN then 50
                  else 60)
          else mret 60);
    extern (resources_set_int "MachinePowerFrequency" pf);;
    x ← member_at model cia; extern (resources_set_int "CIA1Model" x);;
    x ← member_at model cia; extern (resources_set_int "CIA2Model" x);;
    x ← member_at model glue; extern (resources_set_int "GlueLogic" x);;
    x ← member_at model board; extern (resources_set_int "BoardType" x);;
    x ← member_at model iecreset; extern (resources_set_int "IECReset" x);;
    x ← member_at model chargenname;
    extern (resources_set_string "ChargenName" x);;
    x ← member_at model kernalrev; extern (resources_set_int "KernalRev" x);;
    old_engine ← extern_get (fun e => snd (resources_get_int "SidEngine" e));
    old_sid_model ← extern_get (fun e => snd (resources_get_int "SidModel" e));
    new_sid_model ← member_at model sid;
    let old_type := is_new_sid old_sid_model in
    let new_type := is_new_sid new_sid_model in
    (if negb (old_type =? new_type)
     then extern (sid_set_engine_model old_engine new_sid_model)
     else mret tt);;
    x ← member_at model userport; extern (userport_enable x);;
    x ← member_at model keyboard; extern (c64keyboard_enable x);;
    x ← member_at model iec; extern (c64iec_enable x);;
    x ← member_at model datasette; extern (tapeport_enable x);;
    x ← member_at model cia2; extern (c64_cia2_enable x).

(** *** The module as a whole

    A [request] is a call of one of the six functions, with its arguments;
    [exec] runs it, [exec_all] runs one call after the other. *)
Inductive request : Type :=
| Call_get_temp (vicii_model sid_model glue_logic cia1model cia2model
                 board_type iec_reset : Z) (chargen : option string)
                (kernal_rev : Z)
| Call_get_model (details : Z)
| Call_get
| Call_set_temp (model : Z)
                (vicii_model sid_model glue_logic cia1model cia2model board'
                 iecreset' : int_ptr) (chargen : option string)
                (kernalrev' : int_ptr)
| Call_set_details (details : Z) (model : Z)
| Call_set (model : Z).

Inductive reply : Type :=
| Returned_int (r : Z)
| Returned.

Definition exec (q : request) : prog reply :=
  match q with
  | Call_get_temp v s g c1 c2 b i ch k =>
      r ← c64model_get_temp v s g c1 c2 b i ch k; mret (Returned_int r)
  | Call_get_model details =>
      r ← c64model_get_model details; mret (Returned_int r)
  | Call_get => r ← c64model_get; mret (Returned_int r)
  | Call_set_temp model v s g c1 c2 b i ch k =>
      c64model_set_temp model v s g c1 c2 b i ch k;; mret Returned
  | Call_set_details details model =>
      c64model_set_details details model;; mret Returned
  | Call_set model => c64model_set model;; mret Returned
  end.

Fixpoint exec_all (qs : list request) : prog unit :=
  match qs with
  | [] => mret tt
  | q :: qs' => exec q;; exec_all qs'
  end.

(** The state at program startup: the array holds its initialiser; the
    objects of the callers and the state of the emulator are any. *)
Definition startup (details : gmap Z c64model_details_t) (e : env) : state :=
  State (Memory c64models details) e.

(** The call hands in no pointer into the array.  Only [c64model_set_temp]
    takes pointers to [int]; it is [static], and the one call of it in the
    file, in [c64model_set_details], hands in addresses of members of
    [*details]. *)
Definition passes_no_table_pointer (q : request) : Prop :=
  match q with
  | Call_set_temp _ v s g c1 c2 b i _ k =>
      Forall outside_c64models [v; s; g; c1; c2; b; i; k]
  | _ => True
  end.

(** The function leaves the array as it finds it, whenever it returns. *)
Definition keeps_c64models {A : Type} (p : prog A) : Prop :=
  forall st a st', p st = Some (a, st') ->
    mem_c64models (st_memory st') = mem_c64models (st_memory st).

End WithMachine.

Arguments state env : clear implicits.
Arguments prog env A : clear implicits.
Arguments keeps_c64models env {A} p.

End C64ModelMem.

(** ** The GTK3 menus *)

Module UiMenu.

Local Open Scope Z_scope.

(** The constants of [uimenu.h] and [uiactions.h]. *)
Class MenuHeaders : Type := {
  UI_MENU_TYPE_ITEM_ACTION : Z;
  UI_MENU_TYPE_ITEM_CHECK : Z;
  UI_MENU_TYPE_ITEM_RADIO_INT : Z;
  UI_MENU_TYPE_ITEM_RADIO_STR : Z;
  UI_MENU_TYPE_SEPARATOR : Z;
  UI_MENU_TYPE_SUBMENU : Z;
  ACTION_NONE : Z
}.

(** What a [resources_get_*] call stores in the variable it is given the
    address of; [None] when it stores nothing. *)
Class Resources : Type := {
  resources_get_int : string -> option Z;
  resources_get_string : string -> option (option string)
}.

(** Size of the menu references array *)
Definition MENU_REFERENCES_MAX : Z := 512.

(** A [GtkWidget *], by the order of creation. *)
Definition widget : Type := nat.

(** A [void *] of a menu item, by what it stands for. *)
Inductive gpointer (I : Type) : Type :=
| NULL
| GINT_TO_POINTER (v : Z)
| String_at (s : string)
| Items_at (items : list I).

Arguments NULL {I}.
Arguments GINT_TO_POINTER {I} v.
Arguments String_at {I} s.
Arguments Items_at {I} items.

(** [ui_menu_item_t]; a callback is the name of its function. *)
#[warnings="-register-all"]
Inductive ui_menu_item_t : Type := Menu_item {
  label : option string;
  type : Z;
  action_id : Z;
  callback : option string;
  unlocked : bool;
  resource : option string;
  data : gpointer ui_menu_item_t;
  keysym : Z;
  modifier : Z
}.

(** [ui_menu_item_ref_t]. *)
Record ui_menu_item_ref_t : Type := Menu_item_ref {
  item_vice : option ui_menu_item_t;
  item_gtk3 : option widget;
  handler_id : Z;
  window_id : Z;
  ref_keysym : Z;
  ref_modifier : Z
}.

(** The calls into GTK, GLib, the log and the locking wrappers, each with
    the arguments it is given and, for a constructor or a connection, the
    widget or handler ID it returns.  The accelerator data and its closure
    ([ui_accel_data_new], [g_cclosure_new]) are the widget and the item they
    hold; a radio button group ([gtk_radio_menu_item_get_group]) is the list
    of its members; [gtk_bin_get_child] and the casts leave no call. *)
Inductive gtk_call : Type :=
| gtk_menu_item_new_with_mnemonic (l : option string) (w : widget)
| gtk_check_menu_item_new_with_mnemonic (l : option string) (w : widget)
| gtk_radio_menu_item_new_with_label (group : list widget) (l : option string)
    (w : widget)
| gtk_separator_menu_item_new (w : widget)
| gtk_menu_new (w : widget)
| gtk_menu_item_set_submenu (item submenu : widget)
| g_signal_connect_unlocked (item : widget) (signal handler : string)
    (d : gpointer ui_menu_item_t) (id : Z)
| g_signal_connect (item : widget) (signal handler : string)
    (d : gpointer ui_menu_item_t) (id : Z)
| gtk_widget_set_sensitive (item : widget) (sensitive : bool)
| gtk_check_menu_item_set_active (item : widget) (active : option bool)
| gtk_menu_shell_append (menu item : widget)
| g_object_set_data (item : widget) (key : string)
    (value : gpointer ui_menu_item_t)
| gtk_accel_group_connect (group : option widget) (key mods : Z)
    (accel_widget : widget) (accel_item : ui_menu_item_t)
| vice_locking_gtk_accel_group_connect (group : option widget) (key mods : Z)
    (accel_widget : widget) (accel_item : ui_menu_item_t)
| gtk_accel_label_set_accel (item : widget) (key mods : Z)
| log_error (message : string).

(** The static variables of the file, the calls made so far, and the next
    widget and handler ID that GTK hands out. *)
Record menu_state : Type := Menu_state {
  menu_item_references : list ui_menu_item_ref_t;
  menu_ref_count : Z;
  accel_group : option widget;
  calls : list gtk_call;
  next_widget : widget;
  next_handler_id : Z
}.

Definition menu_state_init : menu_state :=
  Menu_state
    (replicate (Z.to_nat MENU_REFERENCES_MAX)
       (Menu_item_ref None None 0 0 0 0))
    0 None [] 0%nat 1.

(** How a function ends: it returns, the process exits
    ([archdep_vice_exit]), or it has no defined result. *)
Inductive outcome (A : Type) : Type :=
| Done (a : A) (s : menu_state)
| Exited (code : Z) (s : menu_state)
| Undefined.

Arguments Done {A} a s.
Arguments Exited {A} code s.
Arguments Undefined {A}.

Definition run (A : Type) : Type := menu_state -> outcome A.

#[global] Instance run_ret : MRet run := fun A a s => Done a s.

#[global] Instance run_bind : MBind run := fun A B f m s =>
  match m s with
  | Done a s' => f a s'
  | Exited code s' => Exited code s'
  | Undefined => Undefined
  end.

Definition call (c : gtk_call) : run unit := fun s =>
  Done tt (Menu_state (menu_item_references s) (menu_ref_count s)
             (accel_group s) (calls s ++ [c]) (next_widget s)
             (next_handler_id s)).

Definition new_widget (c : widget -> gtk_call) : run widget := fun s =>
  let w := next_widget s in
  Done w (Menu_state (menu_item_references s) (menu_ref_count s)
            (accel_group s) (calls s ++ [c w]) (S w) (next_handler_id s)).

Definition connect (c : Z -> gtk_call) : run Z := fun s =>
  let id := next_handler_id s in
  Done id (Menu_state (menu_item_references s) (menu_ref_count s)
             (accel_group s) (calls s ++ [c id]) (next_widget s) (id + 1)).

Definition archdep_vice_exit (code : Z) : run unit := fun s => Exited code s.

Definition undefined {A : Type} : run A := fun _ => Undefined.

(** Add menu item reference to list of runtime references.  The assignments
    to the four fields of [menu_item_references[menu_ref_count]], then the
    increment; the [debug_gtk3] line prints in debug builds only. *)
Definition add_menu_item_ref (item_vice' : ui_menu_item_t) (item_gtk3' : widget)
    (handler_id' window_id' : Z) : run unit := fun s =>
  if menu_ref_count s =? MENU_REFERENCES_MAX then
    (call (log_error "add_menu_item_ref: menu item references table is FULL");;
     archdep_vice_exit 1) s
  else if (0 <=? menu_ref_count s) && (menu_ref_count s <? MENU_REFERENCES_MAX)
  then
    match menu_item_references s !! Z.to_nat (menu_ref_count s) with
    | None => Undefined
    | Some ref =>
        let ref := Menu_item_ref (Some item_vice') (Some item_gtk3') handler_id'
                     window_id' (ref_keysym ref) (ref_modifier ref) in
        Done tt (Menu_state
                   (<[Z.to_nat (menu_ref_count s) := ref]>
                      (menu_item_references s))
                   (menu_ref_count s + 1) (accel_group s) (calls s)
                   (next_widget s) (next_handler_id s))
    end
  else Undefined.

Section WithMenuHeaders.

Context {MH : MenuHeaders} {R : Resources}.

(** The condition of the [while] of [ui_menu_add], negated: the terminator
    of an array of items. *)
Definition is_terminator (it : ui_menu_item_t) : bool :=
  negb (bool_decide (label it <> None) || (0 <=? type it)).

(** The loop of [ui_menu_add] over the items of one array, [body] being one
    pass and [group] the radio button group; an array with no terminator is
    read past its end. *)
Section Loop.

Variable body : list widget -> ui_menu_item_t -> run (list widget).

Fixpoint menu_items_loop (group : list widget) (items : list ui_menu_item_t)
    : run unit :=
  match items with
  | [] => undefined
  | it :: rest =>
      if is_terminator it then mret tt
      else group' ← body group it; menu_items_loop group' rest
  end.

End Loop.

(** Whether a radio item is the active one; [None] where the comparison is
    of addresses, which are not modelled. *)
Definition radio_active (it : ui_menu_item_t) (res : string) : option bool :=
  if type it =? UI_MENU_TYPE_ITEM_RADIO_INT then
    let res_val := default 0 (resources_get_int res) in
    match data it with
    | NULL => Some (res_val =? 0)
    | GINT_TO_POINTER item_val => Some (res_val =? item_val)
    | _ => None
    end
  else
    let res_val := default None (resources_get_string res) in
    match res_val, data it with
    | Some r, String_at item_val => Some (bool_decide (r = item_val))
    | Some _, NULL => Some false
    | Some _, GINT_TO_POINTER v => if v =? 0 then Some false else None
    | Some _, Items_at _ => None
    | None, NULL => Some true
    | None, GINT_TO_POINTER v => Some (v =? 0)
    | None, _ => Some false
    end.

(** Connect the callback of an item: the unlocked or the locking macro. *)
Definition connect_callback (it : ui_menu_item_t) (item : widget)
    (signal cb : string) (d : gpointer ui_menu_item_t) : run Z :=
  if unlocked it
  then connect (g_signal_connect_unlocked item signal cb d)
  else connect (g_signal_connect item signal cb d).

(** The block [if (item != NULL)] of the loop of [ui_menu_add]: the widget
    [item] made for [it] is appended to [menu], gets the handler of its
    [destroy] signal and its three data, and is added to the table of
    references when the item has an action. *)
Definition ui_menu_add_created (window_id' : Z) (menu : widget)
    (it : ui_menu_item_t) (item : widget) (handler_id' : Z) : run unit :=
  call (gtk_menu_shell_append menu item);;
  connect (g_signal_connect_unlocked item "destroy" "on_menu_item_destroy"
             NULL);;
  call (g_object_set_data item "HandlerID" (GINT_TO_POINTER handler_id'));;
  call (g_object_set_data item "ActionID" (GINT_TO_POINTER (action_id it)));;
  call (g_object_set_data item "ResourceName"
          (from_option String_at NULL (resource it)));;
  if action_id it >? ACTION_NONE
  then add_menu_item_ref it item handler_id' window_id'
  else mret tt.

(** One pass of the loop of [ui_menu_add]: the [switch] on the item's type,
    then the block for an item that was created.  It yields the radio
    button group. *)
Fixpoint ui_menu_add_item (window_id' : Z) (menu : widget)
    (group : list widget) (it : ui_menu_item_t) {struct it}
    : run (list widget) :=
  '(group, item, handler_id') ←
    (if type it =? UI_MENU_TYPE_ITEM_ACTION then
       (* normal callback item *)
       item ← new_widget (gtk_menu_item_new_with_mnemonic (label it));
       match callback it with
       | Some cb =>
           connect_callback it item "activate" cb (data it);;
           mret ([], Some item, 0)
       | None =>
           call (gtk_widget_set_sensitive item false);;
           mret ([], Some item, 0)
       end
     else if type it =? UI_MENU_TYPE_ITEM_CHECK then
       (* check mark item *)
       item ← new_widget (gtk_check_menu_item_new_with_mnemonic (label it));
       match callback it with
       | Some cb =>
           match resource it with
           | Some res =>
               let state := resources_get_int res in
               call (gtk_check_menu_item_set_active item
                       ((fun v => negb (v =? 0)) <$> state))
           | None => mret tt
           end;;
           id ← connect_callback it item "activate" cb
                  (from_option String_at NULL (resource it));
           mret ([], Some item, id)
       | None =>
           call (gtk_widget_set_sensitive item false);;
           mret ([], Some item, 0)
       end
     else if (type it =? UI_MENU_TYPE_ITEM_RADIO_INT)
             || (type it =? UI_MENU_TYPE_ITEM_RADIO_STR) then
       (* radio button item *)
       item ← new_widget
                (gtk_radio_menu_item_new_with_label group (label it));
       let group := item :: group in
       match callback it with
       | Some cb =>
           match resource it with
           | Some res =>
               call (gtk_check_menu_item_set_active item (radio_active it res))
           | None => mret tt
           end;;
           id ← connect_callback it item "toggled" cb (data it);
           mret (group, Some item, id)
       | None =>
           call (gtk_widget_set_sensitive item false);;
           mret (group, Some item, 0)
       end
     else if type it =? UI_MENU_TYPE_SEPARATOR then
       item ← new_widget gtk_separator_menu_item_new;
       mret ([], Some item, 0)
     else if type it =? UI_MENU_TYPE_SUBMENU then
       submenu ← new_widget gtk_menu_new;
       item ← new_widget (gtk_menu_item_new_with_mnemonic (label it));
       call (gtk_menu_item_set_submenu item submenu);;
       match data it with
       | Items_at items =>
           menu_items_loop (ui_menu_add_item window_id' submenu) [] items
       | _ => undefined
       end;;
       mret ([], Some item, 0)
     else
       mret ([], None, 0)) : run (list widget * option widget * Z);
  match item with
  | Some item =>
      ui_menu_add_created window_id' menu it item handler_id';;
      mret group
  | None => mret group
  end.

(** Add menu [items] to [menu]. *)
Definition ui_menu_add (menu : widget) (items : list ui_menu_item_t)
    (window_id' : Z) : run widget :=
  menu_items_loop (ui_menu_add_item window_id' menu) [] items;;
  mret menu.

(** Set accelerator on [item_gtk] using [item_vice]: the closure holds the
    accelerator data, that is the widget and the item. *)
Definition ui_menu_set_accel_via_vice_item (item_gtk : widget)
    (item_vice' : ui_menu_item_t) : run unit := fun s =>
  ((if unlocked item_vice'
    then call (gtk_accel_group_connect (accel_group s) (keysym item_vice')
                 (modifier item_vice') item_gtk item_vice')
    else call (vice_locking_gtk_accel_group_connect (accel_group s)
                 (keysym item_vice') (modifier item_vice') item_gtk
                 item_vice'));;
   call (gtk_accel_label_set_accel item_gtk (keysym item_vice')
           (modifier item_vice'))) s.

End WithMenuHeaders.

(** *** Reading the calls *)

(** The calls made when a function has ended. *)
Definition calls_of {A : Type} (o : outcome A) : option (list gtk_call) :=
  match o with
  | Done _ s => Some (calls s)
  | Exited _ s => Some (calls s)
  | Undefined => None
  end.

(** A signal connection: whether it is made by the unlocked macro, the
    widget, the signal and the handler. *)
Definition signal_connection (c : gtk_call)
    : option (bool * widget * string * string) :=
  match c with
  | g_signal_connect_unlocked item signal handler _ _ =>
      Some (true, item, signal, handler)
  | g_signal_connect item signal handler _ _ =>
      Some (false, item, signal, handler)
  | _ => None
  end.

Definition signal_connections (cs : list gtk_call)
    : list (bool * widget * string * string) :=
  omap signal_connection cs.

(** An accelerator connection: whether it is made by the unlocked function,
    the key, the modifiers, and the widget and the item of the closure. *)
Definition accel_connection (c : gtk_call)
    : option (bool * Z * Z * widget * ui_menu_item_t) :=
  match c with
  | gtk_accel_group_connect _ key mods w it => Some (true, key, mods, w, it)
  | vice_locking_gtk_accel_group_connect _ key mods w it =>
      Some (false, key, mods, w, it)
  | _ => None
  end.

Definition accel_connections (cs : list gtk_call)
    : list (bool * Z * Z * widget * ui_menu_item_t) :=
  omap accel_connection cs.

(** The references table has its [MENU_REFERENCES_MAX] slots and the count
    is within them. *)
Definition menu_refs_ok (s : menu_state) : Prop :=
  0 <= menu_ref_count s <= MENU_REFERENCES_MAX
  /\ length (menu_item_references s) = Z.to_nat MENU_REFERENCES_MAX.

(** A run of calls of [add_menu_item_ref]. *)
Fixpoint add_menu_item_refs
    (l : list (ui_menu_item_t * widget * Z * Z)) : run unit :=
  match l with
  | [] => mret tt
  | (it, w, id, win) :: l' =>
      add_menu_item_ref it w id win;; add_menu_item_refs l'
  end.

(** The [case] labels of the [switch] of [ui_menu_add] are distinct (C
    requires it). *)
Definition menu_types_distinct {MH : MenuHeaders} : Prop :=
  NoDup [UI_MENU_TYPE_ITEM_ACTION; UI_MENU_TYPE_ITEM_CHECK;
         UI_MENU_TYPE_ITEM_RADIO_INT; UI_MENU_TYPE_ITEM_RADIO_STR;
         UI_MENU_TYPE_SEPARATOR; UI_MENU_TYPE_SUBMENU].

(** An item that [ui_menu_add] connects a callback for: an action, a check
    or a radio item. *)
Definition is_activatable {MH : MenuHeaders} (it : ui_menu_item_t) : Prop :=
  type it = UI_MENU_TYPE_ITEM_ACTION
  \/ type it = UI_MENU_TYPE_ITEM_CHECK
  \/ type it = UI_MENU_TYPE_ITEM_RADIO_INT
  \/ type it = UI_MENU_TYPE_ITEM_RADIO_STR.

(** The signal of the callback of an activatable item. *)
Definition callback_signal {MH : MenuHeaders} (it : ui_menu_item_t) : string :=
  if (type it =? UI_MENU_TYPE_ITEM_RADIO_INT)
     || (type it =? UI_MENU_TYPE_ITEM_RADIO_STR)
  then "toggled" else "activate".

(** One assignment of values to the constants, and a resource store, for the
    examples. *)
Definition sample_menu_headers : MenuHeaders := {|
  UI_MENU_TYPE_ITEM_ACTION := 0;
  UI_MENU_TYPE_ITEM_CHECK := 1;
  UI_MENU_TYPE_ITEM_RADIO_INT := 2;
  UI_MENU_TYPE_ITEM_RADIO_STR := 3;
  UI_MENU_TYPE_SUBMENU := 4;
  UI_MENU_TYPE_SEPARATOR := 5;
  ACTION_NONE := 0
|}.

Definition sample_resources : Resources := {|
  resources_get_int name :=
    if String.eqb name "WarpMode" then Some 1 else None;
  resources_get_string name := None
|}.

(** Items of a menu: the terminator of an array, and some entries. *)
Definition menu_terminator : ui_menu_item_t :=
  Menu_item None (-1) 0 None false None NULL 0 0.

Definition item_pause : ui_menu_item_t :=
  Menu_item (Some "Pause emulation") 0 7 (Some "ui_action_toggle_pause")
    false None NULL 0 0.

Definition item_warp : ui_menu_item_t :=
  Menu_item (Some "Warp mode") 1 8 (Some "ui_action_toggle_warp")
    true (Some "WarpMode") NULL 0 0.

(** A separator that carries a callback. *)
Definition item_separator_with_callback : ui_menu_item_t :=
  Menu_item (Some "---") 5 0 (Some "ui_action_toggle_pause")
    false None NULL 0 0.

(** *** For the proofs *)

(** The items below an item: those of its submenu. *)
Definition sub_items (d : gpointer ui_menu_item_t) : list ui_menu_item_t :=
  match d with
  | Items_at items => items
  | _ => []
  end.

(** Induction on an item, with the property at hand for the items below. *)
Section ItemInduction.

Variable P : ui_menu_item_t -> Prop.
Hypothesis Hitem : forall it, Forall P (sub_items (data it)) -> P it.

Fixpoint ui_menu_item_nested_ind (it : ui_menu_item_t) : P it :=
  Hitem it
    (match it as it0 return Forall P (sub_items (data it0)) with
     | Menu_item l t a c u r d k m =>
         match d as d0 return Forall P (sub_items d0) with
         | Items_at items =>
             (fix all (xs : list ui_menu_item_t) : Forall P xs :=
                match xs with
                | [] => Forall_nil_2 P
                | x :: xs' =>
                    Forall_cons_2 P x xs' (ui_menu_item_nested_ind x) (all xs')
                end) items
         | _ => Forall_nil_2 P
         end
     end).

End ItemInduction.

(** A function keeps the table of references in order: it ends, if it does,
    with the count within the table. *)
Definition keeps_refs_ok {A : Type} (m : run A) : Prop :=
  forall s, menu_refs_ok s ->
    match m s with
    | Done _ s' => menu_refs_ok s'
    | Exited _ s' => menu_refs_ok s'
    | Undefined => True
    end.

(** The inequalities between the [case] labels, from [menu_types_distinct]. *)
Ltac switch_facts Hd :=
  unfold menu_types_distinct in Hd;
  repeat (apply NoDup_cons in Hd as [? Hd]).

(** Decide the comparisons of the [switch] for a type that is a label. *)
Ltac switch_case :=
  repeat
    match goal with
    | |- context [?a =? ?a] => rewrite (Z.eqb_refl a)
    | |- context [?a =? ?b] =>
        rewrite (proj2 (Z.eqb_neq a b))
          by (let E := fresh in
              intros E; first [rewrite E in * | rewrite <- E in *]; set_solver)
    end;
  cbn [orb].

End UiMenu.

(** ** The C64 model table: further assumptions and examples *)

Module C64ModelMore.

Import C64Model.

Local Open Scope Z_scope.

(** The two new SID models fit the low byte of a SID model. *)
Definition sid_models_small {K : Headers} : Prop :=
  0 <= SID_MODEL_8580 < 256 /\ 0 <= SID_MODEL_8580D < 256.

(** The record that [c64model_set_details] takes its values from is the one
    the details are detected as afterwards: the character ROM name is the
    record's and the SID model is of the record's class. *)
Definition detected_as {K : Headers} (m : model_s) (d : c64model_details_t)
    : Prop :=
  d_chargen d = Some (chargenname m) /\ sid m = is_new_sid (d_sid_model d).

(** The details of a C64 PAL with the engine 0, and those with the character
    ROM of the Japanese C64, with the values of [sample_headers]. *)
Definition c64_pal_plain : c64model_details_t :=
  Details 0 0 0 0 0 0 1 (Some "chargen") 3.

Definition c64_pal_jap_chargen : c64model_details_t :=
  Details 0 0 0 0 0 0 1 (Some "jpchrgen") 3.

(** The record of the C64C PAL, with the values of [sample_headers]. *)
Definition c64c_pal : model_s :=
  Model 1 1 0 1 1 1 0 0 1 1 1 1 1 "chargen" 3.

End C64ModelMore.

(** ** Looking up the menu references *)

Module UiMenuRefs.

Import UiMenu.

Local Open Scope Z_scope.

(** The window IDs and the number of actions ([uiapi.h], [uiactions.h]),
    and what [ui_get_main_window_index] returns. *)
Class WindowHeaders : Type := {
  PRIMARY_WINDOW : Z;
  SECONDARY_WINDOW : Z;
  ACTION_ID_COUNT : Z;
  ui_get_main_window_index : Z
}.

(** [menu_item_references[i]] for a C index. *)
Definition ref_at (refs : list ui_menu_item_ref_t) (i : Z)
    : option ui_menu_item_ref_t :=
  if i <? 0 then None else refs !! Z.to_nat i.

(** A state with another table of references. *)
Definition with_references (refs : list ui_menu_item_ref_t) (s : menu_state)
    : menu_state :=
  Menu_state refs (menu_ref_count s) (accel_group s) (calls s) (next_widget s)
    (next_handler_id s).

(** A read of the state that has no defined result where a slot outside the
    array, or the item behind a [NULL] [item_vice], is read. *)
Definition read {A : Type} (f : menu_state -> option A) : run A := fun s =>
  match f s with
  | Some a => Done a s
  | None => Undefined
  end.

Section WithWindowHeaders.

Context {MH : MenuHeaders} {WH : WindowHeaders}.

(** Check if window ID is valid; logs an error if it is not. *)
Definition valid_window_id (window_id' : Z) : run bool :=
  if negb (window_id' =? PRIMARY_WINDOW)
     && negb (window_id' =? SECONDARY_WINDOW)
  then
    call (log_error ("Invalid window ID of " +:+ pretty window_id' +:+ "."));;
    mret false
  else mret true.

(** The loop of [ui_menu_item_ref_by_action] from index [i] on, with [n]
    iterations left before [i] reaches [menu_ref_count].  A pointer to a
    reference is its index in the array. *)
Fixpoint ref_by_action_scan (refs : list ui_menu_item_ref_t) (n : nat) (i : Z)
    (action_id' window_id' : Z) : option (option Z) :=
  match n with
  | O => Some None
  | S n' =>
      match ref_at refs i with
      | None => None
      | Some ref =>
          match item_vice ref with
          | None => None
          | Some it =>
              if (action_id it =? action_id') && (window_id ref =? window_id')
              then Some (Some i)
              else ref_by_action_scan refs n' (i + 1) action_id' window_id'
          end
      end
  end.

(** Get menu item references by action ID and window ID. *)
Definition ui_menu_item_ref_by_action (action_id' window_id' : Z)
    : run (option Z) :=
  valid ← valid_window_id window_id';
  if negb valid then mret None
  else if (action_id' >? ACTION_NONE) && (action_id' <? ACTION_ID_COUNT) then
    read (fun s =>
            ref_by_action_scan (menu_item_references s)
              (Z.to_nat (menu_ref_count s)) 0 action_id' window_id')
  else mret None.

(** Get menu item reference by index. *)
Definition ui_menu_item_ref_by_index (index : Z) : run (option Z) := fun s =>
  if (index <? 0) || (index >=? menu_ref_count s) then Done None s
  else Done (Some index) s.

(** Return number of menu item references. *)
Definition ui_menu_item_ref_count : run Z := fun s =>
  Done (menu_ref_count s) s.

(** The loop of [ui_get_vice_menu_item_by_hotkey]; it yields the [item_vice]
    of the reference found, which may be [NULL]. *)
Fixpoint item_by_hotkey_scan (refs : list ui_menu_item_ref_t) (n : nat)
    (i : Z) (keysym' mask : Z) : option (option ui_menu_item_t) :=
  match n with
  | O => Some None
  | S n' =>
      match ref_at refs i with
      | None => None
      | Some ref =>
          if (window_id ref =? PRIMARY_WINDOW)
             && (ref_keysym ref =? keysym')
             && (ref_modifier ref =? mask)
          then Some (item_vice ref)
          else item_by_hotkey_scan refs n' (i + 1) keysym' mask
      end
  end.

(** Scan menu items for hotkey. *)
Definition ui_get_vice_menu_item_by_hotkey (keysym' mask : Z)
    : run (option ui_menu_item_t) :=
  read (fun s =>
          item_by_hotkey_scan (menu_item_references s)
            (Z.to_nat (menu_ref_count s)) 0 keysym' mask).

(** An item after the stores [item_vice->modifier = 0] and
    [item_vice->keysym = 0]. *)
Definition item_without_hotkey (it : ui_menu_item_t) : ui_menu_item_t :=
  Menu_item (label it) (type it) (action_id it) (callback it) (unlocked it)
    (resource it) (data it) 0 0.

(** The loop of [ui_clear_vice_menu_item_hotkeys] from index [i] on.  The
    item a reference points to is held in the reference: the two stores
    through [item_vice] change it there. *)
Fixpoint clear_hotkeys_loop (refs : list ui_menu_item_ref_t) (n : nat) (i : Z)
    : option (list ui_menu_item_ref_t) :=
  match n with
  | O => Some refs
  | S n' =>
      match ref_at refs i with
      | None => None
      | Some ref =>
          match item_vice ref with
          | None => None
          | Some it =>
              let ref := Menu_item_ref (Some (item_without_hotkey it))
                           (item_gtk3 ref) (handler_id ref) (window_id ref)
                           0 0 in
              clear_hotkeys_loop (<[Z.to_nat i := ref]> refs) n' (i + 1)
          end
      end
  end.

(** Clear hotkeys of all the menu items. *)
Definition ui_clear_vice_menu_item_hotkeys : run unit := fun s =>
  match clear_hotkeys_loop (menu_item_references s)
          (Z.to_nat (menu_ref_count s)) 0 with
  | Some refs => Done tt (with_references refs s)
  | None => Undefined
  end.

(** Get hotkey for action of the current window: the return value, and the
    values stored in [*keysym] and [*modifier]. *)
Definition ui_get_menu_item_hotkey_by_action (action_id' : Z)
    : run (bool * Z * Z) :=
  let window_id' := ui_get_main_window_index in
  ref ← ui_menu_item_ref_by_action action_id' window_id';
  match ref with
  | Some i =>
      read (fun s =>
              r ← ref_at (menu_item_references s) i;
              Some (true, ref_keysym r, ref_modifier r))
  | None => mret (false, 0, 0)
  end.

(** Scan menu items for action ID. *)
Definition ui_get_vice_menu_item_by_action_for_window
    (action_id' window_id' : Z) : run (option ui_menu_item_t) :=
  ref ← ui_menu_item_ref_by_action action_id' window_id';
  match ref with
  | Some i =>
      read (fun s => r ← ref_at (menu_item_references s) i; Some (item_vice r))
  | None => mret None
  end.

(** Get menu item from the Gtk menu bar by action and window index. *)
Definition ui_get_gtk_menu_item_by_action_for_window
    (action_id' window_id' : Z) : run (option widget) :=
  ref ← ui_menu_item_ref_by_action action_id' window_id';
  match ref with
  | Some i =>
      read (fun s => r ← ref_at (menu_item_references s) i; Some (item_gtk3 r))
  | None => mret None
  end.

(** *** What the properties speak of *)

(** The window ID is one of the two, and the action ID an action. *)
Definition window_ok (window_id' : Z) : Prop :=
  window_id' = PRIMARY_WINDOW \/ window_id' = SECONDARY_WINDOW.

Definition action_ok (action_id' : Z) : Prop :=
  ACTION_NONE < action_id' < ACTION_ID_COUNT.

(** The reference [r] is for the action and the window. *)
Definition ref_is_for (action_id' window_id' : Z) (r : ui_menu_item_ref_t)
    : Prop :=
  exists it, item_vice r = Some it
             /\ action_id it = action_id' /\ window_id r = window_id'.

(** The reference [r] is one of the primary window with the hotkey. *)
Definition ref_has_hotkey (keysym' mask : Z) (r : ui_menu_item_ref_t) : Prop :=
  window_id r = PRIMARY_WINDOW /\ ref_keysym r = keysym'
  /\ ref_modifier r = mask.

End WithWindowHeaders.

(** The table is in order and the slots below the count hold an item. *)
Definition menu_refs_filled (s : menu_state) : Prop :=
  menu_refs_ok s
  /\ forall (j : nat) r, (Z.of_nat j < menu_ref_count s) ->
       menu_item_references s !! j = Some r -> is_Some (item_vice r).

(** What a scan of the table from slot 0 on finds: the first reference
    below the count that [P] holds of, with its index, or none. *)
Definition first_match (P : ui_menu_item_ref_t -> Prop) (s : menu_state)
    (found : option (nat * ui_menu_item_ref_t)) : Prop :=
  match found with
  | Some (j, r) =>
      Z.of_nat j < menu_ref_count s
      /\ menu_item_references s !! j = Some r
      /\ P r
      /\ forall (j' : nat) r', (j' < j)%nat ->
           menu_item_references s !! j' = Some r' -> ~ P r'
  | None =>
      forall (j : nat) r, Z.of_nat j < menu_ref_count s ->
        menu_item_references s !! j = Some r -> ~ P r
  end.

(** Each value a function returns has the property [P]. *)
Definition yields {A : Type} (m : run A) (P : A -> Prop) : Prop :=
  forall s a s', m s = Done a s' -> P a.

(** No slot of the table carries a hotkey. *)
Definition ref_hotkeys_unset (s : menu_state) : Prop :=
  forall (j : nat) r, menu_item_references s !! j = Some r ->
    ref_keysym r = 0 /\ ref_modifier r = 0.

(** A function keeps a property of the state: it holds when the function
    ends, be it by an exit. *)
Definition keeps (I : menu_state -> Prop) {A : Type} (m : run A) : Prop :=
  forall s, I s ->
    match m s with
    | Done _ s' => I s'
    | Exited _ s' => I s'
    | Undefined => True
    end.

(** A property of the table and the count alone. *)
Definition on_table (I : menu_state -> Prop) : Prop :=
  forall s s', menu_item_references s' = menu_item_references s ->
    menu_ref_count s' = menu_ref_count s -> I s -> I s'.

(** One assignment of values to the constants, for the examples. *)
Definition sample_window_headers : WindowHeaders := {|
  PRIMARY_WINDOW := 0;
  SECONDARY_WINDOW := 1;
  ACTION_ID_COUNT := 300;
  ui_get_main_window_index := 0
|}.

(** An item that declares a hotkey, a radio item, and the state with one
    reference, of the primary window, that carries the hotkey. *)
Definition item_reset : ui_menu_item_t :=
  Menu_item (Some "Reset") 0 9 (Some "ui_action_reset") false None NULL 114 8.

Definition item_radio : ui_menu_item_t :=
  Menu_item (Some "PAL") 2 0 (Some "ui_action_set_sync") false None
    (GINT_TO_POINTER 1) 0 0.

Definition menu_state_reset : menu_state :=
  Menu_state
    (<[0%nat := Menu_item_ref (Some item_reset) (Some 0%nat) 0 0 114 8]>
       (menu_item_references menu_state_init))
    1 None [] 1%nat 2.

End UiMenuRefs.

(** ** Properties of the C64 model table *)

Module C64ModelFacts.

Import C64Model.

Local Open Scope Z_scope.

Section Lookup.

Context {K : Headers}.

Lemma string_compare_refl (a : string) : String.compare a a = Eq.
Proof.
  pose proof (String.compare_antisym a a) as H.
  destruct (String.compare a a); [reflexivity | discriminate | discriminate].
Qed.

Lemma strcmp_0 (a b : string) : strcmp a b = 0 <-> a = b.
Proof.
  unfold strcmp. split.
  - destruct (String.compare a b) eqn:E; [| discriminate | discriminate].
    intros _. by apply String.compare_eq_iff.
  - intros ->. by rewrite string_compare_refl.
Qed.

(** The condition of the loop holds exactly when the key agrees. *)
Lemma record_matches_iff m v s g c b i ch k :
  record_matches m v (is_new_cia c) g (is_new_sid s) b i ch k = true
  <-> key_agrees m v s g c b i ch k.
Proof.
  unfold record_matches, key_agrees.
  rewrite !andb_true_iff, !Z.eqb_eq.
  destruct ch as [n |].
  - rewrite Z.eqb_eq, strcmp_0. intuition congruence.
  - intuition congruence.
Qed.

Lemma table_at_of_nat (T : list model_s) (j : nat) :
  table_at T (Z.of_nat j) = T !! j.
Proof.
  unfold table_at. destruct (Z.ltb_spec (Z.of_nat j) 0); [lia |].
  by rewrite Nat2Z.id.
Qed.

(** The loop, from index [i] with [n] iterations left, on a table that has
    the [n] records: it yields the first matching index, or
    [C64MODEL_UNKNOWN] after [n] misses. *)
Lemma c64model_scan_spec (T : list model_s) v nc g ns b ir ch k :
  forall (n i : nat), (i + n <= length T)%nat ->
  exists r, c64model_scan T n (Z.of_nat i) v nc g ns b ir ch k = Some r
    /\ ((exists (j : nat) m, (i <= j < i + n)%nat /\ T !! j = Some m
           /\ record_matches m v nc g ns b ir ch k = true
           /\ (forall (j' : nat) m', (i <= j' < j)%nat -> T !! j' = Some m' ->
                 record_matches m' v nc g ns b ir ch k = false)
           /\ r = Z.of_nat j)
        \/ ((forall (j : nat) m, (i <= j < i + n)%nat -> T !! j = Some m ->
               record_matches m v nc g ns b ir ch k = false)
            /\ r = C64MODEL_UNKNOWN)).
Proof.
  induction n as [| n IH]; intros i Hlen; cbn [c64model_scan].
  - eexists; split; [reflexivity |]. right; split; [| reflexivity].
    intros j m Hj; lia.
  - rewrite table_at_of_nat.
    destruct (lookup_lt_is_Some_2 T i ltac:(lia)) as [m Hm]. rewrite Hm.
    destruct (record_matches m v nc g ns b ir ch k) eqn:Em.
    + eexists; split; [reflexivity |]. left. exists i, m.
      repeat split; try done; try lia; intros j' m' Hj'; lia.
    + replace (Z.of_nat i + 1) with (Z.of_nat (S i)) by lia.
      destruct (IH (S i) ltac:(lia)) as (r & -> & Hr).
      eexists; split; [reflexivity |].
      destruct Hr
        as [(j & mj & Hj & Hlook & Hmatch & Hleast & ->) | [Hnone ->]].
      * left. exists j, mj. repeat split; try done; try lia.
        intros j' m' Hj' Hl'. destruct (decide (j' = i)) as [-> |].
        -- congruence.
        -- apply (Hleast j' m'); [lia | done].
      * right; split; [| reflexivity].
        intros j mj Hj Hl. destruct (decide (j = i)) as [-> |].
        -- congruence.
        -- apply (Hnone j mj); [lia | done].
Qed.

Lemma model_count (H : model_count_ok) :
  Z.to_nat C64MODEL_NUM = length c64models.
Proof. unfold model_count_ok in H. rewrite H. apply Nat2Z.id. Qed.

(** [c64model_get_temp] on any table that has [C64MODEL_NUM] records. *)
Lemma c64model_get_temp_spec (T : list model_s) v s g c1 c2 b i ch k :
  (Z.to_nat C64MODEL_NUM <= length T)%nat ->
  exists r, c64model_get_temp T v s g c1 c2 b i ch k = Some r
    /\ ((c1 = c2
         /\ exists (j : nat) m, (j < Z.to_nat C64MODEL_NUM)%nat
              /\ T !! j = Some m
              /\ key_agrees m v s g c1 b i ch k
              /\ (forall (j' : nat) m', (j' < j)%nat -> T !! j' = Some m' ->
                    ~ key_agrees m' v s g c1 b i ch k)
              /\ r = Z.of_nat j)
        \/ ((c1 <> c2
             \/ forall (j : nat) m, (j < Z.to_nat C64MODEL_NUM)%nat ->
                  T !! j = Some m -> ~ key_agrees m v s g c1 b i ch k)
            /\ r = C64MODEL_UNKNOWN)).
Proof.
  intros Hlen. unfold c64model_get_temp.
  destruct (Z.eqb_spec c1 c2) as [Heq | Hne]; cbn [negb].
  - destruct (c64model_scan_spec T v (is_new_cia c1) g (is_new_sid s) b i ch k
                (Z.to_nat C64MODEL_NUM) 0%nat ltac:(lia)) as (r & Hr & Hcase).
    exists r. split; [exact Hr |].
    destruct Hcase as [(j & m & Hj & Hl & Hm & Hleast & ->) | [Hnone ->]].
    + left. split; [done |]. exists j, m.
      split; [lia |]. split; [done |].
      split; [by apply record_matches_iff |]. split; [| done].
      intros j' m' Hj' Hl' Hk. apply record_matches_iff in Hk.
      rewrite (Hleast j' m') in Hk; [discriminate | lia | done].
    + right. split; [| done]. right. intros j m Hj Hl Hk.
      apply record_matches_iff in Hk.
      rewrite (Hnone j m) in Hk; [discriminate | lia | done].
  - eexists. split; [reflexivity |]. right. split; [by left | done].
Qed.

(** C1, as the code has it: [c64model_get_temp] is a linear scan of the
    table that returns the lowest index of a record agreeing with the
    arguments on the lookup key ([key_agrees]: VIC-II model, glue logic,
    board, IEC reset and kernal revision equal, CIA and SID of the same
    old/new class, character ROM name given and equal), provided the two CIA
    arguments are equal; it returns [C64MODEL_UNKNOWN] when they differ or
    when no record agrees. *)
Theorem c64model_get_temp_lowest_key_match v s g c1 c2 b i ch k :
  model_count_ok ->
  exists r, c64model_get_temp c64models v s g c1 c2 b i ch k = Some r
    /\ ((c1 = c2
         /\ exists (j : nat) m, c64models !! j = Some m
              /\ key_agrees m v s g c1 b i ch k
              /\ (forall (j' : nat) m', (j' < j)%nat ->
                    c64models !! j' = Some m' ->
                    ~ key_agrees m' v s g c1 b i ch k)
              /\ r = Z.of_nat j)
        \/ ((c1 <> c2
             \/ forall (j : nat) m, c64models !! j = Some m ->
                  ~ key_agrees m v s g c1 b i ch k)
            /\ r = C64MODEL_UNKNOWN)).
Proof.
  intros Hnum. pose proof (model_count Hnum) as Hn.
  destruct (c64model_get_temp_spec c64models v s g c1 c2 b i ch k
              ltac:(lia)) as (r & Hr & Hcase).
  exists r. split; [exact Hr |].
  destruct Hcase as [(Hc & j & m & Hj & Hl & Hk & Hleast & ->) | [Hmiss ->]].
  - left. split; [done |]. by exists j, m.
  - right. split; [| done]. destruct Hmiss as [Hc | Hnone]; [by left |].
    right. intros j m Hl. apply (Hnone j m); [| done].
    rewrite Hn. by apply lookup_lt_Some in Hl.
Qed.

(** A miss of the scan, on the table of the source. *)
Lemma c64model_get_temp_no_match v s g c1 c2 b i ch k :
  model_count_ok ->
  (forall (j : nat) m, c64models !! j = Some m ->
     ~ key_agrees m v s g c1 b i ch k) ->
  c64model_get_temp c64models v s g c1 c2 b i ch k = Some C64MODEL_UNKNOWN.
Proof.
  intros Hnum Hmiss. pose proof (model_count Hnum) as Hn.
  destruct (c64model_get_temp_spec c64models v s g c1 c2 b i ch k
              ltac:(lia)) as (r & Hr & Hcase).
  rewrite Hr. f_equal.
  destruct Hcase as [(_ & j & m & _ & Hl & Hk & _) | [_ ->]]; [| done].
  destruct (Hmiss j m Hl Hk).
Qed.

(** C3: a lookup miss returns the sentinel.  When no record of the table
    agrees with the arguments on the lookup key, [c64model_get_temp] and
    [c64model_get_model] return [C64MODEL_UNKNOWN]. *)
Theorem c64model_get_temp_miss v s g c1 c2 b i ch k :
  model_count_ok ->
  (forall (j : nat) m, c64models !! j = Some m ->
     ~ key_agrees m v s g c1 b i ch k) ->
  c64model_get_temp c64models v s g c1 c2 b i ch k = Some C64MODEL_UNKNOWN
  /\ c64model_get_model c64models (Details v s g c1 c2 b i ch k)
     = Some C64MODEL_UNKNOWN.
Proof.
  intros Hnum Hmiss.
  pose proof (c64model_get_temp_no_match v s g c1 c2 b i ch k Hnum Hmiss)
    as Hget.
  split; [exact Hget |]. unfold c64model_get_model. cbn. exact Hget.
Qed.

(** C8: [c64model_get_temp] returns [C64MODEL_UNKNOWN] whenever the two CIA
    arguments differ, and whenever the character ROM name is [NULL],
    whatever the other arguments are. *)
Theorem c64model_get_temp_cia_or_null v s g c1 c2 b i ch k :
  (c1 <> c2 ->
   c64model_get_temp c64models v s g c1 c2 b i ch k = Some C64MODEL_UNKNOWN)
  /\ (model_count_ok ->
      c64model_get_temp c64models v s g c1 c2 b i None k
      = Some C64MODEL_UNKNOWN).
Proof.
  split.
  - intros Hne. unfold c64model_get_temp.
    destruct (Z.eqb_spec c1 c2); [contradiction | reflexivity].
  - intros Hnum.
    apply (c64model_get_temp_no_match v s g c1 c2 b i None k Hnum).
    intros j m _ Hk. unfold key_agrees in Hk.
    by destruct Hk as (_ & _ & _ & _ & _ & _ & _ & ?).
Qed.

(** *** The records of the table have different keys *)

Lemma vicii_models_neq :
  vicii_models_distinct ->
  forall (a b : nat) x y,
    [VICII_MODEL_6569; VICII_MODEL_8565; VICII_MODEL_6569R1;
     VICII_MODEL_6567; VICII_MODEL_8562; VICII_MODEL_6567R56A;
     VICII_MODEL_6572] !! a = Some x ->
    [VICII_MODEL_6569; VICII_MODEL_8565; VICII_MODEL_6569R1;
     VICII_MODEL_6567; VICII_MODEL_8562; VICII_MODEL_6567R56A;
     VICII_MODEL_6572] !! b = Some y ->
    x = y -> a = b.
Proof.
  intros Hnd a b x y Ha Hb <-. exact (NoDup_lookup _ a b x Hnd Ha Hb).
Qed.

Lemma kernal_revs_neq :
  kernal_revs_distinct ->
  forall (a b : nat) x y,
    [C64_KERNAL_REV1; C64_KERNAL_REV2; C64_KERNAL_REV3; C64_KERNAL_SX64;
     C64_KERNAL_JAP; C64_KERNAL_GS64; C64_KERNAL_4064; C64_KERNAL_NONE]
      !! a = Some x ->
    [C64_KERNAL_REV1; C64_KERNAL_REV2; C64_KERNAL_REV3; C64_KERNAL_SX64;
     C64_KERNAL_JAP; C64_KERNAL_GS64; C64_KERNAL_4064; C64_KERNAL_NONE]
      !! b = Some y ->
    x = y -> a = b.
Proof.
  intros Hnd a b x y Ha Hb <-. exact (NoDup_lookup _ a b x Hnd Ha Hb).
Qed.

Lemma vicii_pos_ok (j : nat) m :
  c64models !! j = Some m ->
  [VICII_MODEL_6569; VICII_MODEL_8565; VICII_MODEL_6569R1;
   VICII_MODEL_6567; VICII_MODEL_8562; VICII_MODEL_6567R56A;
   VICII_MODEL_6572] !! vicii_pos j = Some (vicii m).
Proof. intros H. table_cases H; reflexivity. Qed.

Lemma kernal_pos_ok (j : nat) m :
  c64models !! j = Some m ->
  [C64_KERNAL_REV1; C64_KERNAL_REV2; C64_KERNAL_REV3; C64_KERNAL_SX64;
   C64_KERNAL_JAP; C64_KERNAL_GS64; C64_KERNAL_4064; C64_KERNAL_NONE]
    !! kernal_pos j = Some (kernalrev m).
Proof. intros H. table_cases H; reflexivity. Qed.

(** No two records carry the same VIC-II model and kernal revision. *)
Lemma positions_injective (j j' : nat) :
  (j < 14)%nat -> (j' < 14)%nat ->
  vicii_pos j = vicii_pos j' -> kernal_pos j = kernal_pos j' -> j = j'.
Proof.
  intros Hj Hj'.
  do 14 (destruct j as [| j]; [
    do 14 (destruct j' as [| j'];
           [cbn; intros; first [reflexivity | discriminate] |]);
    lia |]).
  lia.
Qed.

Lemma records_differ (j j' : nat) m m' :
  vicii_models_distinct -> kernal_revs_distinct ->
  c64models !! j = Some m -> c64models !! j' = Some m' ->
  vicii m = vicii m' -> kernalrev m = kernalrev m' -> j = j'.
Proof.
  intros Hv Hk Hl Hl' Ev Ek.
  apply positions_injective.
  - by apply lookup_lt_Some in Hl.
  - by apply lookup_lt_Some in Hl'.
  - exact (vicii_models_neq Hv _ _ _ _ (vicii_pos_ok j m Hl)
             (vicii_pos_ok j' m' Hl') Ev).
  - exact (kernal_revs_neq Hk _ _ _ _ (kernal_pos_ok j m Hl)
             (kernal_pos_ok j' m' Hl') Ek).
Qed.

(** Every record agrees with its own field values. *)
Lemma record_agrees_with_itself (j : nat) m :
  sid_classes_ok -> c64models !! j = Some m ->
  key_agrees m (vicii m) (sid m) (glue m) (cia m) (board m) (iecreset m)
    (Some (chargenname m)) (kernalrev m).
Proof.
  intros [Hold Hnew] Hl. unfold key_agrees.
  repeat split; try reflexivity.
  table_cases Hl; cbn; congruence.
Qed.

(** C2: each field combination of the table appears once with respect to
    the lookup.  Looking up the field values of record [j] (its CIA for both
    CIA arguments, its SID as the SID model) returns [j]. *)
Theorem c64model_get_temp_of_record (j : nat) m :
  model_count_ok -> sid_classes_ok ->
  vicii_models_distinct -> kernal_revs_distinct ->
  c64models !! j = Some m ->
  c64model_get_temp c64models (vicii m) (sid m) (glue m) (cia m) (cia m)
    (board m) (iecreset m) (Some (chargenname m)) (kernalrev m)
  = Some (Z.of_nat j).
Proof.
  intros Hnum Hsid Hv Hk Hl. pose proof (model_count Hnum) as Hn.
  destruct (c64model_get_temp_spec c64models (vicii m) (sid m) (glue m)
              (cia m) (cia m) (board m) (iecreset m) (Some (chargenname m))
              (kernalrev m) ltac:(lia)) as (r & Hr & Hcase).
  rewrite Hr. f_equal.
  pose proof (record_agrees_with_itself j m Hsid Hl) as Hself.
  destruct Hcase as [(_ & j' & m' & _ & Hl' & Hk' & _ & ->) | [Hmiss ->]].
  - f_equal. destruct Hk' as (Ev & _ & _ & _ & _ & _ & Ek & _).
    exact (records_differ j' j m' m Hv Hk Hl' Hl Ev Ek).
  - destruct Hmiss as [Hc | Hnone]; [done |].
    destruct (Hnone j m); [| done | done].
    rewrite Hn. by apply lookup_lt_Some in Hl.
Qed.

(** The lookup sees the SID and the CIA arguments through their old/new
    class only: two SID models of one class, or two CIA models of one class,
    give the same result. *)
Lemma c64model_get_temp_by_class (T : list model_s) v s s' g c c' b i ch k :
  is_new_sid s = is_new_sid s' -> is_new_cia c = is_new_cia c' ->
  c64model_get_temp T v s g c c b i ch k
  = c64model_get_temp T v s' g c' c' b i ch k.
Proof.
  intros Hs Hc. unfold c64model_get_temp.
  rewrite !Z.eqb_refl. cbn [negb]. by rewrite Hs, Hc.
Qed.

(** So the SID argument is not compared by value, whatever the headers say:
    [SID_MODEL_8580] and [SID_MODEL_8580D] are different numbers, being
    labels of one [switch], and the lookup cannot tell them apart. *)
Lemma c64model_get_temp_8580_8580d (T : list model_s) v g c b i ch k :
  sid_cases_distinct ->
  SID_MODEL_8580 <> SID_MODEL_8580D
  /\ c64model_get_temp T v SID_MODEL_8580 g c c b i ch k
     = c64model_get_temp T v SID_MODEL_8580D g c c b i ch k.
Proof.
  intros Hd. unfold sid_cases_distinct in Hd.
  apply NoDup_cons in Hd as [_ Hd]. apply NoDup_cons in Hd as [Hne _].
  split; [set_solver |].
  apply c64model_get_temp_by_class; [| reflexivity].
  unfold is_new_sid. rewrite !Z.eqb_refl.
  by destruct (SID_MODEL_8580D =? SID_MODEL_8580).
Qed.

(** With [C64MODEL_UNKNOWN] outside the indices of the table, the sentinel
    is returned on a miss and only then. *)
Lemma c64model_get_temp_unknown_iff v s g c1 c2 b i ch k :
  model_count_ok -> unknown_is_no_index ->
  c64model_get_temp c64models v s g c1 c2 b i ch k = Some C64MODEL_UNKNOWN
  <-> (c1 <> c2
       \/ forall (j : nat) m, c64models !! j = Some m ->
            ~ key_agrees m v s g c1 b i ch k).
Proof.
  intros Hnum Hunk. pose proof (model_count Hnum) as Hn.
  destruct (c64model_get_temp_spec c64models v s g c1 c2 b i ch k
              ltac:(lia)) as (r & Hr & Hcase).
  rewrite Hr. split.
  - intros [= ->].
    destruct Hcase as [(_ & j & m & Hj & _ & _ & _ & Hidx) | [Hmiss _]].
    + destruct Hunk. rewrite Hidx. lia.
    + destruct Hmiss as [Hc | Hnone]; [by left | right].
      intros j m Hl. apply (Hnone j m); [| done].
      rewrite Hn. by apply lookup_lt_Some in Hl.
  - intros Hmiss. f_equal.
    destruct Hcase as [(Hc & j & m & _ & Hl & Hk & _) | [_ ->]]; [| done].
    destruct Hmiss as [Hne | Hnone]; [done | destruct (Hnone j m Hl Hk)].
Qed.

(** *** Setting a model *)

Lemma wrap_int_id (z : Z) : int_range z -> wrap_int z = z.
Proof.
  unfold int_range, wrap_int. intros Hz.
  rewrite Z.mod_small; lia.
Qed.

(** The engine part of a SID model, shifted back in place, is an [int]. *)
Lemma engine_in_range (s : Z) :
  int_range s -> int_range (Z.shiftl (Z.shiftr s 8) 8).
Proof.
  unfold int_range. intros Hs.
  rewrite Z.shiftr_div_pow2, Z.shiftl_mul_pow2 by lia.
  change (2 ^ 8) with 256. change (2 ^ 31) with (8388608 * 256) in *.
  pose proof (Z.div_mod s 256 ltac:(lia)) as Hdm.
  pose proof (Z.mod_pos_bound s 256 ltac:(lia)) as Hmod.
  lia.
Qed.

Lemma engine_of_combined (e n : Z) :
  0 <= n < 256 -> Z.shiftr (Z.lor (Z.shiftl e 8) n) 8 = e.
Proof.
  intros Hn. rewrite Z.shiftr_lor, Z.shiftr_shiftl_l by lia.
  replace (8 - 8) with 0 by lia. rewrite Z.shiftl_0_r.
  rewrite (Z.shiftr_div_pow2 n 8) by lia. change (2 ^ 8) with 256.
  rewrite Z.div_small by lia. apply Z.lor_0_r.
Qed.

Lemma model_of_combined (e n : Z) :
  0 <= n < 256 -> Z.land (Z.lor (Z.shiftl e 8) n) 255 = n.
Proof.
  intros Hn. change 255 with (Z.ones 8).
  rewrite Z.land_lor_distr_l, !Z.land_ones by lia.
  rewrite Z.shiftl_mul_pow2 by lia. rewrite Z.mod_mul by lia.
  change (2 ^ 8) with 256. rewrite Z.mod_small by lia. reflexivity.
Qed.

(** The SID value of every record is [OLD_SID] or [NEW_SID]. *)
Lemma table_sid (j : nat) m :
  c64models !! j = Some m -> sid m = OLD_SID \/ sid m = NEW_SID.
Proof. intros H. table_cases H; cbn; tauto. Qed.

Lemma table_at_in_range (model : Z) :
  model_count_ok -> 0 <= model < C64MODEL_NUM ->
  exists m, table_at c64models model = Some m
            /\ c64models !! Z.to_nat model = Some m.
Proof.
  intros Hnum Hm. pose proof (model_count Hnum) as Hn.
  unfold table_at. destruct (Z.ltb_spec model 0); [lia |].
  destruct (lookup_lt_is_Some_2 c64models (Z.to_nat model) ltac:(lia))
    as [m Hl].
  by exists m.
Qed.

Lemma c64model_get_temp_returns v s g c1 c2 b i ch k :
  model_count_ok ->
  exists r, c64model_get_temp c64models v s g c1 c2 b i ch k = Some r.
Proof.
  intros Hnum. pose proof (model_count Hnum) as Hn.
  destruct (c64model_get_temp_spec c64models v s g c1 c2 b i ch k
              ltac:(lia)) as (r & Hr & _).
  by exists r.
Qed.

(** C9: [c64model_set_temp], and so [c64model_set_details], changes nothing
    when the requested model is the one the current values are detected as,
    or is [C64MODEL_UNKNOWN]: every location keeps its value. *)
Theorem c64model_set_temp_same_or_unknown (d : c64model_details_t) model :
  model_count_ok ->
  c64model_get_model c64models d = Some model \/ model = C64MODEL_UNKNOWN ->
  c64model_set_temp c64models model d = Some d
  /\ c64model_set_details c64models d model = Some d.
Proof.
  intros Hnum Hcase.
  assert (c64model_set_temp c64models model d = Some d) as Hset.
  { unfold c64model_set_temp.
    destruct (c64model_get_temp_returns (d_vicii_model d) (d_sid_model d)
                (d_glue_logic d) (d_cia1_model d) (d_cia2_model d) (d_board d)
                (d_iecreset d) (d_chargen d) (d_kernalrev d) Hnum)
      as [old_model Hold].
    rewrite Hold. destruct Hcase as [Hsame | ->].
    - unfold c64model_get_model in Hsame. rewrite Hold in Hsame.
      injection Hsame as ->. by rewrite Z.eqb_refl.
    - by rewrite Z.eqb_refl, orb_true_r. }
  split; [exact Hset | exact Hset].
Qed.

(** C10: [c64model_set_temp] preserves the SID engine.  For a model of the
    table or [C64MODEL_UNKNOWN] the call returns, the bits 8 and above of
    the SID model are as before, and the low byte is either as before or the
    SID value of the requested record, the latter only when that value and
    the old low byte are of different old/new classes; when they are of the
    same class the whole SID model is unchanged. *)
Theorem c64model_set_temp_keeps_engine (d : c64model_details_t) model :
  model_count_ok -> sid_classes_small -> int_range (d_sid_model d) ->
  0 <= model < C64MODEL_NUM \/ model = C64MODEL_UNKNOWN ->
  exists d', c64model_set_temp c64models model d = Some d'
    /\ Z.shiftr (d_sid_model d') 8 = Z.shiftr (d_sid_model d) 8
    /\ (Z.land (d_sid_model d') 255 = Z.land (d_sid_model d) 255
        \/ exists m, table_at c64models model = Some m
             /\ is_new_sid (Z.land (d_sid_model d) 255) <> is_new_sid (sid m)
             /\ Z.land (d_sid_model d') 255 = sid m)
    /\ (forall m, table_at c64models model = Some m ->
          is_new_sid (Z.land (d_sid_model d) 255) = is_new_sid (sid m) ->
          d_sid_model d' = d_sid_model d).
Proof.
  intros Hnum [Hold Hnew] Hrange Hmodel.
  unfold c64model_set_temp.
  destruct (c64model_get_temp_returns (d_vicii_model d) (d_sid_model d)
              (d_glue_logic d) (d_cia1_model d) (d_cia2_model d) (d_board d)
              (d_iecreset d) (d_chargen d) (d_kernalrev d) Hnum)
    as [old_model ->].
  destruct ((model =? old_model) || (model =? C64MODEL_UNKNOWN)) eqn:Eret.
  - exists d. repeat split; auto.
  - destruct Hmodel as [Hm | ->];
      [| by rewrite Z.eqb_refl, orb_true_r in Eret].
    destruct (table_at_in_range model Hnum Hm) as (m & -> & Hl).
    cbn [d_sid_model store_vicii_model store_cia1model store_cia2model
         store_glue_logic store_board store_iecreset store_kernalrev].
    assert (0 <= sid m < 256) as Hsid
      by (destruct (table_sid _ m Hl) as [-> | ->]; assumption).
    destruct (Z.eqb_spec (is_new_sid (Z.land (d_sid_model d) 255))
                (is_new_sid (sid m))) as [Esame | Ediff]; cbn [negb].
    + eexists. split; [reflexivity |]. cbn. repeat split; auto.
    + eexists. split; [reflexivity |]. cbn [d_sid_model store_sid_model].
      rewrite wrap_int_id by (by apply engine_in_range).
      split; [by apply engine_of_combined |].
      split.
      * right. exists m. repeat split; [done |].
        by apply model_of_combined.
      * intros m' [= <-] E. contradiction.
Qed.

End Lookup.

(** *** The resources and the module as a whole *)

Section WholeModule.

Context {K : Headers} {env : Type} {M : Machine env}.

(** C5: [c64model_get] is driven by the resources "VICIIModel", "SidModel",
    "GlueLogic", "CIA1Model", "CIA2Model", "BoardType", "IECReset",
    "KernalRev" and "ChargenName": it returns -1 if the retrieval of one of
    them fails, and otherwise the result of the table lookup for the values
    retrieved. *)
Theorem c64model_get_by_resources (T : list model_s) (e : env) :
  (Exists (fun name => fst (resources_get_int name e) < 0) int_resources
   \/ fst (resources_get_string "ChargenName" e) < 0 ->
   c64model_get T e = Some (-1))
  /\ (Forall (fun name => 0 <= fst (resources_get_int name e)) int_resources ->
      0 <= fst (resources_get_string "ChargenName" e) ->
      c64model_get T e
      = c64model_get_temp T
          (snd (resources_get_int "VICIIModel" e))
          (snd (resources_get_int "SidModel" e))
          (snd (resources_get_int "GlueLogic" e))
          (snd (resources_get_int "CIA1Model" e))
          (snd (resources_get_int "CIA2Model" e))
          (snd (resources_get_int "BoardType" e))
          (snd (resources_get_int "IECReset" e))
          (snd (resources_get_string "ChargenName" e))
          (snd (resources_get_int "KernalRev" e))).
Proof.
  unfold c64model_get, int_resources.
  rewrite !Exists_cons, Exists_nil, !Forall_cons.
  destruct (resources_get_int "VICIIModel" e) as [r1 v1].
  destruct (resources_get_int "SidModel" e) as [r2 v2].
  destruct (resources_get_int "GlueLogic" e) as [r3 v3].
  destruct (resources_get_int "CIA1Model" e) as [r4 v4].
  destruct (resources_get_int "CIA2Model" e) as [r5 v5].
  destruct (resources_get_int "BoardType" e) as [r6 v6].
  destruct (resources_get_int "IECReset" e) as [r7 v7].
  destruct (resources_get_int "KernalRev" e) as [r8 v8].
  destruct (resources_get_string "ChargenName" e) as [r9 v9].
  cbn [fst snd].
  destruct (Z.ltb_spec r1 0); [split; [done | lia] |].
  destruct (Z.ltb_spec r2 0); [split; [done | lia] |].
  destruct (Z.ltb_spec r3 0); [split; [done | lia] |].
  destruct (Z.ltb_spec r4 0); [split; [done | lia] |].
  destruct (Z.ltb_spec r5 0); [split; [done | lia] |].
  destruct (Z.ltb_spec r6 0); [split; [done | lia] |].
  destruct (Z.ltb_spec r7 0); [split; [done | lia] |].
  destruct (Z.ltb_spec r8 0); [split; [done | lia] |].
  destruct (Z.ltb_spec r9 0); [split; [done | lia] |].
  split; [lia | done].
Qed.

End WholeModule.

(** *** The theorems at work, with [sample_headers] *)

Section Examples.

Local Existing Instance sample_headers.

(** C1, as the specification words it, fails: the SID model 8580D is not the
    value [NEW_SID] that the record of the C64C PAL holds, so no record
    equals the arguments field by field, and yet the lookup returns the
    index 1 of the C64C PAL, not [C64MODEL_UNKNOWN]. *)
Lemma c64model_get_temp_not_exact :
  c64model_get_temp c64models 1 2 1 1 1 0 0 (Some "chargen") 3 = Some 1
  /\ (fun m => exact_match m 1 2 1 1 1 0 0 (Some "chargen") 3)
       <$> c64models !! 1%nat
     = Some false
  /\ lookup_exact c64models 1 2 1 1 1 0 0 (Some "chargen") 3
     = C64MODEL_UNKNOWN.
Proof. repeat split; reflexivity. Qed.

Lemma c64model_get_temp_lowest_key_match_witness :
  exists r, c64model_get_temp c64models 3 0 0 0 0 0 1 (Some "chargen") 100
            = Some r
    /\ ((0 = 0
         /\ exists (j : nat) m, c64models !! j = Some m
              /\ key_agrees m 3 0 0 0 0 1 (Some "chargen") 100
              /\ (forall (j' : nat) m', (j' < j)%nat ->
                    c64models !! j' = Some m' ->
                    ~ key_agrees m' 3 0 0 0 0 1 (Some "chargen") 100)
              /\ r = Z.of_nat j)
        \/ ((0 <> 0
             \/ forall (j : nat) m, c64models !! j = Some m ->
                  ~ key_agrees m 3 0 0 0 0 1 (Some "chargen") 100)
            /\ r = C64MODEL_UNKNOWN)).
Proof.
  apply (c64model_get_temp_lowest_key_match 3 0 0 0 0 0 1 (Some "chargen") 100).
  reflexivity.
Defined.

Lemma sample_vicii_models_distinct : vicii_models_distinct.
Proof. apply (bool_decide_unpack _). vm_compute. exact I. Qed.

Lemma sample_kernal_revs_distinct : kernal_revs_distinct.
Proof. apply (bool_decide_unpack _). vm_compute. exact I. Qed.

Lemma c64model_get_temp_of_record_witness :
  c64model_get_temp c64models 3 0 0 0 0 0 1 (Some "jpchrgen") 101 = Some 9.
Proof.
  exact (c64model_get_temp_of_record 9 c64_japanese eq_refl
           (conj eq_refl eq_refl) sample_vicii_models_distinct
           sample_kernal_revs_distinct eq_refl).
Defined.

(** No record has the VIC-II model 42. *)
Lemma c64model_get_temp_miss_witness :
  c64model_get_temp c64models 42 0 0 0 0 0 1 (Some "chargen") 3
  = Some C64MODEL_UNKNOWN
  /\ c64model_get_model c64models
       (Details 42 0 0 0 0 0 1 (Some "chargen") 3)
     = Some C64MODEL_UNKNOWN.
Proof.
  apply (c64model_get_temp_miss 42 0 0 0 0 0 1 (Some "chargen") 3).
  - reflexivity.
  - intros j m Hl [Hv _]. table_cases Hl; discriminate Hv.
Defined.

Lemma c64model_get_temp_cia_or_null_witness :
  c64model_get_temp c64models 0 0 0 0 1 0 1 (Some "chargen") 3
  = Some C64MODEL_UNKNOWN
  /\ c64model_get_temp c64models 0 0 0 0 0 0 1 None 3
     = Some C64MODEL_UNKNOWN.
Proof.
  destruct (c64model_get_temp_cia_or_null 0 0 0 0 1 0 1 (Some "chargen") 3)
    as [Hcia _].
  destruct (c64model_get_temp_cia_or_null 0 0 0 0 0 0 1 None 3)
    as [_ Hnull].
  split; [apply Hcia; discriminate | apply Hnull; reflexivity].
Defined.

Lemma c64model_set_temp_same_or_unknown_witness :
  c64model_set_temp c64models 0 c64_pal_details = Some c64_pal_details
  /\ c64model_set_details c64models c64_pal_details 0 = Some c64_pal_details.
Proof.
  apply (c64model_set_temp_same_or_unknown c64_pal_details 0).
  - reflexivity.
  - left. reflexivity.
Defined.

(** From the C64 PAL to the C64C PAL: the engine 1 stays, the 6581 gives
    way to [NEW_SID]. *)
Lemma c64model_set_temp_keeps_engine_witness :
  exists d', c64model_set_temp c64models 1 c64_pal_details = Some d'
    /\ Z.shiftr (d_sid_model d') 8 = Z.shiftr 256 8
    /\ (Z.land (d_sid_model d') 255 = Z.land 256 255
        \/ exists m, table_at c64models 1 = Some m
             /\ is_new_sid (Z.land 256 255) <> is_new_sid (sid m)
             /\ Z.land (d_sid_model d') 255 = sid m)
    /\ (forall m, table_at c64models 1 = Some m ->
          is_new_sid (Z.land 256 255) = is_new_sid (sid m) ->
          d_sid_model d' = 256).
Proof.
  apply (c64model_set_temp_keeps_engine c64_pal_details 1).
  - reflexivity.
  - unfold sid_classes_small. cbn. lia.
  - unfold int_range. cbn. lia.
  - left. cbn. lia.
Defined.

Local Existing Instance sample_machine.

Lemma c64model_get_by_resources_witness :
  c64model_get c64models (delete "IECReset" sample_env) = Some (-1)
  /\ c64model_get c64models sample_env
     = c64model_get_temp c64models 0 0 0 0 0 0 1 (Some "chargen") 3.
Proof.
  split.
  - apply (proj1 (c64model_get_by_resources c64models
                    (delete "IECReset" sample_env))).
    left. unfold int_resources. rewrite !Exists_cons. do 6 right. left.
    vm_compute. reflexivity.
  - etransitivity.
    + apply (proj2 (c64model_get_by_resources c64models sample_env)).
      * unfold int_resources. repeat constructor; vm_compute; discriminate.
      * vm_compute. discriminate.
    + vm_compute. reflexivity.
Defined.

End Examples.

End C64ModelFacts.

(** ** The C64 model table is never written *)

Module C64ModelMemFacts.

Import C64Model C64ModelFacts C64ModelMem.

Local Open Scope Z_scope.

Section Kept.

Context {K : Headers} {env : Type} {M : Machine env}.

(** *** Running a [prog] *)

Lemma bind_some {A B : Type} (m : prog env A) (f : A -> prog env B) (st st' : state env)
    (a : A) :
  m st = Some (a, st') -> (m ≫= f) st = f a st'.
Proof. intros Hm. unfold mbind, prog_bind. by rewrite Hm. Qed.

Lemma bind_none {A B : Type} (m : prog env A) (f : A -> prog env B) (st : state env) :
  m st = None -> (m ≫= f) st = None.
Proof. intros Hm. unfold mbind, prog_bind. by rewrite Hm. Qed.

Lemma bind_inv {A B : Type} (m : prog env A) (f : A -> prog env B) (st st' : state env)
    (b : B) :
  (m ≫= f) st = Some (b, st') ->
  exists a st1, m st = Some (a, st1) /\ f a st1 = Some (b, st').
Proof.
  unfold mbind, prog_bind. destruct (m st) as [[a st1] |]; [| discriminate].
  intros Hf. by exists a, st1.
Qed.

(** *** What keeps the array *)

Lemma kept_ret {A : Type} (a : A) :
  keeps_c64models env (mret a).
Proof. intros st a' st' [= _ <-]. reflexivity. Qed.

Lemma kept_bind {A B : Type} (m : prog env A) (f : A -> prog env B) :
  keeps_c64models env m -> (forall a, keeps_c64models env (f a)) ->
  keeps_c64models env (m ≫= f).
Proof.
  intros Hm Hf st b st' Hrun.
  apply bind_inv in Hrun as (a & st1 & Hrun1 & Hrun2).
  rewrite (Hf a st1 b st' Hrun2). exact (Hm st a st1 Hrun1).
Qed.

Lemma kept_deref (p : int_ptr) : keeps_c64models env (deref p).
Proof.
  intros st v st'. unfold deref.
  destruct (load p (st_memory st)); cbn; [| discriminate].
  by intros [= _ <-].
Qed.

Lemma kept_record_at (i : Z) : keeps_c64models env (record_at i).
Proof.
  intros st m st'. unfold record_at.
  destruct (table_at (mem_c64models (st_memory st)) i); cbn; [| discriminate].
  by intros [= _ <-].
Qed.

Lemma kept_details_at (details : Z) : keeps_c64models env (details_at details).
Proof.
  intros st d st'. unfold details_at.
  destruct (mem_details (st_memory st) !! details); cbn; [| discriminate].
  by intros [= _ <-].
Qed.

Lemma kept_extern_get {A : Type} (f : env -> A) :
  keeps_c64models env (extern_get f).
Proof. intros st a st' [= _ <-]. reflexivity. Qed.

Lemma kept_extern (f : env -> env) : keeps_c64models env (extern f).
Proof. intros st a st' [= _ <-]. reflexivity. Qed.

(** An assignment through a pointer that does not point into the array
    leaves the array alone. *)
Lemma kept_assign (p : int_ptr) (v : Z) :
  outside_c64models p -> keeps_c64models env (assign p v).
Proof.
  intros Hp st u st'. destruct p as [i f | details f]; [destruct Hp |].
  unfold assign, store.
  destruct (mem_details (st_memory st) !! details); cbn; [| discriminate].
  by intros [= _ <-].
Qed.

(** One through a pointer into the array does not: the member it points to
    holds the value assigned. *)
Lemma assign_in_c64models (st st' : state env) (i : nat) (f : model_member)
    (v : Z) :
  assign (In_c64models (Z.of_nat i) f) v st = Some (tt, st') ->
  member f <$> mem_c64models (st_memory st') !! i = Some v.
Proof.
  unfold assign, store, table_at.
  destruct (Z.ltb_spec (Z.of_nat i) 0); [lia |]. rewrite Nat2Z.id.
  destruct (mem_c64models (st_memory st) !! i) as [m |] eqn:Hm; cbn;
    [| discriminate].
  intros [= <-]. cbn.
  rewrite list_lookup_insert_eq by (by apply lookup_lt_Some in Hm).
  cbn. by destruct m, f.
Qed.

(** The steps of the functions, one by one. *)
Ltac kept :=
  repeat
    match goal with
    | |- keeps_c64models _ (mret _) => apply kept_ret
    | |- keeps_c64models _ (deref _) => apply kept_deref
    | |- keeps_c64models _ (record_at _) => apply kept_record_at
    | |- keeps_c64models _ (member_at _ _) => unfold member_at
    | |- keeps_c64models _ (details_at _) => apply kept_details_at
    | |- keeps_c64models _ (extern_get _) => apply kept_extern_get
    | |- keeps_c64models _ (extern _) => apply kept_extern
    | |- keeps_c64models _ (assign _ _) => apply kept_assign; assumption
    | |- keeps_c64models _ (_ ≫= _) => apply kept_bind; [| intros ?]
    | |- keeps_c64models _ (let '(_, _) := ?a in _) => destruct a
    | |- keeps_c64models _ (if ?b then _ else _) => destruct b
    end.

Lemma kept_c64model_scan (n : nat) :
  forall i v nc g ns b ir ch k,
    keeps_c64models env (c64model_scan n i v nc g ns b ir ch k).
Proof.
  induction n as [| n IH]; intros i v nc g ns b ir ch k;
    cbn [c64model_scan]; kept. apply IH.
Qed.

Lemma kept_c64model_get_temp v s g c1 c2 b i ch k :
  keeps_c64models env (c64model_get_temp v s g c1 c2 b i ch k).
Proof. unfold c64model_get_temp. kept. apply kept_c64model_scan. Qed.

Lemma kept_c64model_get_model (details : Z) :
  keeps_c64models env (c64model_get_model details).
Proof. unfold c64model_get_model. kept. apply kept_c64model_get_temp. Qed.

Lemma kept_c64model_get : keeps_c64models env c64model_get.
Proof. unfold c64model_get. kept. apply kept_c64model_get_temp. Qed.

Lemma kept_c64model_set_temp model v s g c1 c2 b i ch k :
  Forall outside_c64models [v; s; g; c1; c2; b; i; k] ->
  keeps_c64models env (c64model_set_temp model v s g c1 c2 b i ch k).
Proof.
  intros Hout. rewrite !Forall_cons in Hout.
  destruct Hout as (Hv & Hs & Hg & Hc1 & Hc2 & Hb & Hi & Hk & _).
  unfold c64model_set_temp. kept. apply kept_c64model_get_temp.
Qed.

Lemma kept_c64model_set_details (details model : Z) :
  keeps_c64models env (c64model_set_details details model).
Proof.
  unfold c64model_set_details. kept.
  apply kept_c64model_set_temp. repeat constructor.
Qed.

Lemma kept_c64model_set (model : Z) : keeps_c64models env (c64model_set model).
Proof. unfold c64model_set. kept. apply kept_c64model_get. Qed.

Lemma kept_exec (q : request) :
  passes_no_table_pointer q -> keeps_c64models env (exec q).
Proof.
  intros Hq. destruct q; cbn [exec]; kept.
  - apply kept_c64model_get_temp.
  - apply kept_c64model_get_model.
  - apply kept_c64model_get.
  - by apply kept_c64model_set_temp.
  - apply kept_c64model_set_details.
  - apply kept_c64model_set.
Qed.

Lemma kept_exec_all (qs : list request) :
  Forall passes_no_table_pointer qs -> keeps_c64models env (exec_all qs).
Proof.
  induction 1 as [| q qs Hq Hqs IH]; cbn [exec_all]; kept.
  - by apply kept_exec.
  - exact IH.
Qed.

(** C7: the table is immutable.  The array [c64models] holds its
    initialiser at startup, and each of [c64model_get_temp],
    [c64model_get_model], [c64model_get], [c64model_set_temp],
    [c64model_set_details] and [c64model_set] leaves every field of every
    record as it finds it: the functions read the array, assign only
    through the pointers they are handed, and [c64model_set_temp], the one
    that is handed pointers to [int], is handed addresses of members of a
    [c64model_details_t] by its one caller.  So after any run of calls from
    startup the array holds its initialiser. *)
Theorem c64models_never_written :
  (forall (q : request) (st st' : state env) (r : reply),
     passes_no_table_pointer q -> exec q st = Some (r, st') ->
     mem_c64models (st_memory st') = mem_c64models (st_memory st))
  /\ (forall (qs : list request) details (e : env) (st' : state env),
        Forall passes_no_table_pointer qs ->
        exec_all qs (startup details e) = Some (tt, st') ->
        mem_c64models (st_memory st') = c64models).
Proof.
  split.
  - intros q st st' r Hq Hrun. exact (kept_exec q Hq st r st' Hrun).
  - intros qs details e st' Hqs Hrun.
    exact (kept_exec_all qs Hqs (startup details e) tt st' Hrun).
Qed.

(** *** The functions on memory and the functions on values

    What a function on memory returns and leaves is what the function of
    [C64Model] of the same name makes of the values it finds. *)

Lemma c64model_scan_value (n : nat) :
  forall i v nc g ns b ir ch k (st : state env),
    c64model_scan n i v nc g ns b ir ch k st
    = (fun r => (r, st))
        <$> C64Model.c64model_scan (mem_c64models (st_memory st)) n i v nc g
              ns b ir ch k.
Proof.
  induction n as [| n IH]; intros i v nc g ns b ir ch k st;
    cbn [c64model_scan C64Model.c64model_scan]; [reflexivity |].
  unfold mbind, prog_bind, record_at.
  destruct (table_at (mem_c64models (st_memory st)) i) as [m |]; cbn;
    [| reflexivity].
  destruct (record_matches m v nc g ns b ir ch k); [reflexivity | apply IH].
Qed.

Lemma c64model_get_temp_value v s g c1 c2 b i ch k (st : state env) :
  c64model_get_temp v s g c1 c2 b i ch k st
  = (fun r => (r, st))
      <$> C64Model.c64model_get_temp (mem_c64models (st_memory st)) v s g c1
            c2 b i ch k.
Proof.
  unfold c64model_get_temp, C64Model.c64model_get_temp.
  destruct (negb (c1 =? c2)); [reflexivity | apply c64model_scan_value].
Qed.

Lemma c64model_get_model_value (details : Z) (d : c64model_details_t)
    (st : state env) :
  mem_details (st_memory st) !! details = Some d ->
  c64model_get_model details st
  = (fun r => (r, st))
      <$> C64Model.c64model_get_model (mem_c64models (st_memory st)) d.
Proof.
  intros Hd. unfold c64model_get_model, C64Model.c64model_get_model.
  rewrite (bind_some _ _ st st d) by (unfold details_at; by rewrite Hd).
  apply c64model_get_temp_value.
Qed.

Lemma c64model_get_value (st : state env) :
  c64model_get st
  = (fun r => (r, st))
      <$> C64Model.c64model_get (mem_c64models (st_memory st))
            (st_machine st).
Proof.
  unfold c64model_get, C64Model.c64model_get, mbind, prog_bind, extern_get.
  do 8 (match goal with
        | |- context [resources_get_int ?n (st_machine st)] =>
            destruct (resources_get_int n (st_machine st)) as [r ?];
            destruct (r <? 0); [reflexivity | cbv beta]; clear r
        end).
  destruct (resources_get_string "ChargenName" (st_machine st)) as [r ch].
  destruct (r <? 0); [reflexivity |].
  apply c64model_get_temp_value.
Qed.

(** The state whose object at [details] is [d]. *)
Lemma deref_details (T : list model_s) D (e : env) (details : Z)
    (d : c64model_details_t) (f : details_member) :
  deref (In_details details f) (State (Memory T (<[details := d]> D)) e)
  = Some (details_member_of f d, State (Memory T (<[details := d]> D)) e).
Proof.
  unfold deref, load. cbn [st_memory mem_details].
  by rewrite lookup_insert_eq.
Qed.

Lemma assign_details (T : list model_s) D (e : env) (details : Z)
    (d : c64model_details_t) (f : details_member) (v : Z) :
  assign (In_details details f) v (State (Memory T (<[details := d]> D)) e)
  = Some (tt, State (Memory T (<[details := with_details_member f v d]> D))
                e).
Proof.
  unfold assign, store. cbn [st_memory st_machine mem_details mem_c64models].
  rewrite lookup_insert_eq. cbn [mbind option_bind].
  by rewrite insert_insert_eq.
Qed.

Lemma member_at_some {A : Type} (i : Z) (f : model_s -> A) (m : model_s)
    (st : state env) :
  table_at (mem_c64models (st_memory st)) i = Some m ->
  member_at i f st = Some (f m, st).
Proof.
  intros Hm. unfold member_at, mbind, prog_bind, record_at. by rewrite Hm.
Qed.

Lemma c64model_set_details_value (details model : Z)
    (d : c64model_details_t) (st : state env) :
  mem_details (st_memory st) !! details = Some d ->
  c64model_set_details details model st
  = (fun d' =>
       (tt, State (Memory (mem_c64models (st_memory st))
                     (<[details := d']> (mem_details (st_memory st))))
              (st_machine st)))
      <$> C64Model.c64model_set_details (mem_c64models (st_memory st)) d
            model.
Proof.
  destruct st as [[T D] e]. cbn [st_memory st_machine mem_c64models
    mem_details]. intros Hd.
  unfold c64model_set_details, C64Model.c64model_set_details,
    C64Model.c64model_set_temp.
  rewrite (bind_some _ _ _ (State (Memory T D) e) d)
    by (unfold details_at; cbn; by rewrite Hd).
  rewrite <- (insert_id D details d Hd) at 1.
  unfold c64model_set_temp.
  do 8 (erewrite bind_some by apply deref_details).
  cbn [details_member_of].
  unfold mbind at 1, prog_bind at 1. rewrite c64model_get_temp_value.
  cbn [st_memory mem_c64models].
  destruct (C64Model.c64model_get_temp T (d_vicii_model d) (d_sid_model d)
              (d_glue_logic d) (d_cia1_model d) (d_cia2_model d) (d_board d)
              (d_iecreset d) (d_chargen d) (d_kernalrev d))
    as [old_model |]; cbn [fmap option_fmap option_map]; [| reflexivity].
  destruct ((model =? old_model) || (model =? C64MODEL_UNKNOWN)).
  { cbn. by rewrite (insert_id D details d Hd). }
  destruct (table_at T model) as [m |] eqn:Hm.
  2:{ apply bind_none. unfold member_at, mbind, prog_bind, record_at. cbn.
      by rewrite Hm. }
  repeat
    (erewrite bind_some by (first [by apply member_at_some
                                  | apply assign_details
                                  | apply deref_details])).
  cbn [details_member_of with_details_member d_sid_model store_vicii_model
       store_cia1model store_cia2model store_glue_logic store_board
       store_iecreset store_kernalrev].
  destruct (negb (is_new_sid (Z.land (d_sid_model d) 255)
                  =? is_new_sid (sid m))).
  - rewrite assign_details. reflexivity.
  - reflexivity.
Qed.

Lemma extern_run (f : env -> env) (mem : memory) (e : env) :
  extern f (State mem e) = Some (tt, State mem (f e)).
Proof. reflexivity. Qed.

Lemma extern_get_run {A : Type} (f : env -> A) (mem : memory) (e : env) :
  extern_get f (State mem e) = Some (f e, State mem e).
Proof. reflexivity. Qed.

Lemma ret_run {A : Type} (a : A) (st : state env) :
  (mret a : prog env A) st = Some (a, st).
Proof. reflexivity. Qed.

Lemma c64model_set_value (model : Z) (st : state env) :
  c64model_set model st
  = (fun e' => (tt, State (st_memory st) e'))
      <$> C64Model.c64model_set (mem_c64models (st_memory st)) model
            (st_machine st).
Proof.
  unfold c64model_set, C64Model.c64model_set.
  unfold mbind at 1, prog_bind at 1. rewrite c64model_get_value.
  destruct (C64Model.c64model_get (mem_c64models (st_memory st))
              (st_machine st)) as [old_model |];
    cbn [fmap option_fmap option_map]; [| reflexivity].
  destruct ((model =? old_model) || (model =? C64MODEL_UNKNOWN)).
  { by destruct st. }
  destruct st as [mem e]. cbn [st_memory st_machine].
  destruct (table_at (mem_c64models mem) model) as [m |] eqn:Hm.
  2:{ apply bind_none. unfold member_at, mbind, prog_bind, record_at. cbn.
      by rewrite Hm. }
  unfold power_frequency. cbv zeta.
  do 3 (erewrite bind_some
          by first [by apply member_at_some | apply extern_run]).
  destruct (ciatick m =? CIATICK_NET).
  all: repeat
         (erewrite bind_some
            by first [by apply member_at_some
                     | apply extern_run
                     | apply extern_get_run
                     | erewrite bind_some by (by apply member_at_some);
                       apply ret_run
                     | apply ret_run]).
  all: match goal with |- context [negb ?c] => destruct (negb c) end.
  all: repeat
         (erewrite bind_some
            by first [by apply member_at_some
                     | apply extern_run
                     | apply ret_run]).
  all: reflexivity.
Qed.

End Kept.

(** *** The theorem at work, with [sample_headers] *)

Section Examples.

Local Existing Instance sample_headers.
Local Existing Instance sample_machine.

(** A run of calls from startup, with the details of a C64 PAL at the
    address 0: it returns, and the array is as at startup. *)
Lemma c64models_never_written_witness :
  exists st',
    exec_all
      [Call_set 1; Call_get; Call_set_details 0 4; Call_get_model 0;
       Call_set_temp 1 (In_details 0 dm_vicii_model)
         (In_details 0 dm_sid_model) (In_details 0 dm_glue_logic)
         (In_details 0 dm_cia1_model) (In_details 0 dm_cia2_model)
         (In_details 0 dm_board) (In_details 0 dm_iecreset) (Some "chargen")
         (In_details 0 dm_kernalrev)]
      (startup {[0 := c64_pal_details]} sample_env) = Some (tt, st')
    /\ mem_c64models (st_memory st') = c64models.
Proof.
  assert (is_Some
            (exec_all
               [Call_set 1; Call_get; Call_set_details 0 4; Call_get_model 0;
                Call_set_temp 1 (In_details 0 dm_vicii_model)
                  (In_details 0 dm_sid_model) (In_details 0 dm_glue_logic)
                  (In_details 0 dm_cia1_model) (In_details 0 dm_cia2_model)
                  (In_details 0 dm_board) (In_details 0 dm_iecreset)
                  (Some "chargen") (In_details 0 dm_kernalrev)]
               (startup {[0 := c64_pal_details]} sample_env)))
    as [[[] st'] Hrun].
  { apply (bool_decide_unpack _). vm_compute. exact I. }
  exists st'. split; [exact Hrun |].
  refine (proj2 c64models_never_written _ _ _ _ _ Hrun).
  repeat constructor.
Defined.

(** Handed the address of [c64models[0].vicii], [c64model_set_temp] would
    write the array: the theorem rests on what the pointers are. *)
Lemma c64model_set_temp_into_c64models :
  exists st',
    c64model_set_temp 1 (In_c64models 0 m_vicii) (In_details 0 dm_sid_model)
      (In_details 0 dm_glue_logic) (In_details 0 dm_cia1_model)
      (In_details 0 dm_cia2_model) (In_details 0 dm_board)
      (In_details 0 dm_iecreset) (Some "chargen")
      (In_details 0 dm_kernalrev)
      (startup {[0 := c64_pal_details]} (∅ : gmap string resource_value))
    = Some (tt, st')
    /\ vicii <$> mem_c64models (st_memory st') !! 0%nat = Some 1
    /\ vicii <$> c64models !! 0%nat = Some 0.
Proof.
  eexists. split; [vm_compute; reflexivity |]. split; reflexivity.
Qed.

End Examples.

End C64ModelMemFacts.

(** ** Properties of the menu references and of the signal connections *)

Module UiMenuFacts.

Import UiMenu.

Local Open Scope Z_scope.

Section References.

Context {MH : MenuHeaders} {R : Resources}.

(** [add_menu_item_ref] ends, with the table in order; it logs nothing
    unless it exits. *)
Lemma add_menu_item_ref_keeps_ok (s : menu_state) it w id win :
  menu_refs_ok s ->
  match add_menu_item_ref it w id win s with
  | Done _ s' => menu_refs_ok s' /\ calls s' = calls s
  | Exited code s' =>
      menu_refs_ok s' /\ code = 1
      /\ calls s'
         = calls s
           ++ [log_error
                 "add_menu_item_ref: menu item references table is FULL"]
  | Undefined => False
  end.
Proof.
  intros [Hcount Hlen]. unfold add_menu_item_ref.
  destruct (Z.eqb_spec (menu_ref_count s) MENU_REFERENCES_MAX)
    as [Hfull | Hroom].
  - cbn. repeat split; cbn; try lia; done.
  - destruct (Z.leb_spec 0 (menu_ref_count s)); [| lia].
    destruct (Z.ltb_spec (menu_ref_count s) MENU_REFERENCES_MAX); [| lia].
    cbn [andb].
    destruct (lookup_lt_is_Some_2 (menu_item_references s)
                (Z.to_nat (menu_ref_count s)) ltac:(lia)) as [old ->].
    split; [| done]. split; cbn [menu_ref_count menu_item_references].
    + lia.
    + by rewrite length_insert.
Qed.

(** C4: exhausting the table of references logs an error and terminates the
    process.  When [menu_ref_count] is [MENU_REFERENCES_MAX], that is 512,
    [add_menu_item_ref] logs the error and exits with code 1, and the table
    and the count are as before; otherwise it stores the reference in the
    slot [menu_ref_count], leaves the other slots alone and increments the
    count, which stays at most 512. *)
Theorem add_menu_item_ref_full_or_stored (s : menu_state) it w id win :
  menu_refs_ok s ->
  (menu_ref_count s = MENU_REFERENCES_MAX ->
   exists s', add_menu_item_ref it w id win s = Exited 1 s'
     /\ calls s'
        = calls s
          ++ [log_error
                "add_menu_item_ref: menu item references table is FULL"]
     /\ menu_item_references s' = menu_item_references s
     /\ menu_ref_count s' = menu_ref_count s)
  /\ (menu_ref_count s <> MENU_REFERENCES_MAX ->
      exists s' old, add_menu_item_ref it w id win s = Done tt s'
        /\ menu_item_references s !! Z.to_nat (menu_ref_count s) = Some old
        /\ menu_item_references s' !! Z.to_nat (menu_ref_count s)
           = Some (Menu_item_ref (Some it) (Some w) id win (ref_keysym old)
                     (ref_modifier old))
        /\ (forall j : nat, j <> Z.to_nat (menu_ref_count s) ->
              menu_item_references s' !! j = menu_item_references s !! j)
        /\ menu_ref_count s' = menu_ref_count s + 1
        /\ menu_ref_count s' <= MENU_REFERENCES_MAX
        /\ calls s' = calls s).
Proof.
  intros [Hcount Hlen]. unfold add_menu_item_ref. split.
  - intros Hfull. rewrite Hfull, Z.eqb_refl. eexists. split; [reflexivity |].
    cbn. by rewrite Hfull.
  - intros Hroom.
    destruct (Z.eqb_spec (menu_ref_count s) MENU_REFERENCES_MAX); [done |].
    destruct (Z.leb_spec 0 (menu_ref_count s)); [| lia].
    destruct (Z.ltb_spec (menu_ref_count s) MENU_REFERENCES_MAX); [| lia].
    cbn [andb].
    destruct (lookup_lt_is_Some_2 (menu_item_references s)
                (Z.to_nat (menu_ref_count s)) ltac:(lia)) as [old Hold].
    rewrite Hold. eexists _, old. split; [reflexivity |].
    cbn [menu_item_references menu_ref_count calls].
    split; [done |]. split.
    { apply list_lookup_insert_eq. lia. }
    split.
    { intros j Hj. by apply list_lookup_insert_ne. }
    repeat split; lia.
Qed.

(** The table is in order at startup, and after any run of calls of
    [add_menu_item_ref] from there: the count never exceeds 512, and no
    call is left without a defined result. *)
Lemma menu_state_init_ok : menu_refs_ok menu_state_init.
Proof. split; [unfold MENU_REFERENCES_MAX; cbn; lia | reflexivity]. Qed.

Lemma add_menu_item_refs_ok l (s : menu_state) :
  menu_refs_ok s ->
  match add_menu_item_refs l s with
  | Done _ s' => menu_refs_ok s'
  | Exited _ s' => menu_refs_ok s'
  | Undefined => False
  end.
Proof.
  revert s. induction l as [| [[[it w] id] win] l IH]; intros s Hs.
  - exact Hs.
  - cbn [add_menu_item_refs]. unfold mbind, run_bind.
    pose proof (add_menu_item_ref_keeps_ok s it w id win Hs) as Hone.
    destruct (add_menu_item_ref it w id win s) as [[] s' | code s' |].
    + apply IH. tauto.
    + tauto.
    + done.
Qed.

(** *** Every function of the file keeps the table in order *)

Lemma keeps_ret {A : Type} (a : A) : keeps_refs_ok (mret a).
Proof. intros s Hs. exact Hs. Qed.

Lemma keeps_bind {A B : Type} (m : run A) (f : A -> run B) :
  keeps_refs_ok m -> (forall a, keeps_refs_ok (f a)) ->
  keeps_refs_ok (m ≫= f).
Proof.
  intros Hm Hf s Hs. unfold mbind, run_bind. specialize (Hm s Hs).
  destruct (m s) as [a s' | code s' |]; [by apply Hf | done | done].
Qed.

Lemma keeps_call c : keeps_refs_ok (call c).
Proof. intros s Hs. exact Hs. Qed.

Lemma keeps_new_widget c : keeps_refs_ok (new_widget c).
Proof. intros s Hs. exact Hs. Qed.

Lemma keeps_connect c : keeps_refs_ok (connect c).
Proof. intros s Hs. exact Hs. Qed.

Lemma keeps_undefined {A : Type} : keeps_refs_ok (@undefined A).
Proof. intros s Hs. exact I. Qed.

Lemma keeps_add_menu_item_ref it w id win :
  keeps_refs_ok (add_menu_item_ref it w id win).
Proof.
  intros s Hs. pose proof (add_menu_item_ref_keeps_ok s it w id win Hs) as Hk.
  destruct (add_menu_item_ref it w id win s); tauto.
Qed.

Lemma keeps_loop (body : list widget -> ui_menu_item_t -> run (list widget))
    items :
  Forall (fun it => forall group, keeps_refs_ok (body group it)) items ->
  forall group, keeps_refs_ok (menu_items_loop body group items).
Proof.
  induction 1 as [| it rest Hit Hrest IH]; intros group;
    cbn [menu_items_loop].
  - apply keeps_undefined.
  - destruct (is_terminator it); [apply keeps_ret |].
    apply keeps_bind; [apply Hit | intros g; apply IH].
Qed.

Lemma keeps_ui_menu_add_item it :
  forall window menu group,
    keeps_refs_ok (ui_menu_add_item window menu group it).
Proof.
  induction it as [it IH] using ui_menu_item_nested_ind.
  intros window menu group. destruct it as [l t a c u r d k m].
  cbn [ui_menu_add_item].
  cbn [type callback label data resource action_id unlocked] in *.
  repeat
    match goal with
    | |- keeps_refs_ok (_ ≫= _) => apply keeps_bind; [| intros ?]
    | |- keeps_refs_ok (mret _) => apply keeps_ret
    | |- keeps_refs_ok (call _) => apply keeps_call
    | |- keeps_refs_ok (new_widget _) => apply keeps_new_widget
    | |- keeps_refs_ok (connect _) => apply keeps_connect
    | |- keeps_refs_ok undefined => apply keeps_undefined
    | |- keeps_refs_ok (add_menu_item_ref _ _ _ _) =>
        apply keeps_add_menu_item_ref
    | |- keeps_refs_ok (connect_callback _ _ _ _ _) => unfold connect_callback
    | |- keeps_refs_ok (ui_menu_add_created _ _ _ _ _) =>
        unfold ui_menu_add_created
    | |- keeps_refs_ok (menu_items_loop _ _ _) =>
        apply keeps_loop; cbn [sub_items] in IH;
        eapply Forall_impl; [exact IH | intros ? Hx ?; apply Hx]
    | |- keeps_refs_ok (if ?b then _ else _) => destruct b
    | |- keeps_refs_ok (match ?x with _ => _ end) => destruct x
    end.
Qed.

(** Building a menu keeps the count of references at 512 at most. *)
Lemma keeps_ui_menu_add menu items window :
  keeps_refs_ok (ui_menu_add menu items window).
Proof.
  unfold ui_menu_add. apply keeps_bind; [| intros ?; apply keeps_ret].
  apply keeps_loop. apply Forall_forall. intros it _ group.
  apply keeps_ui_menu_add_item.
Qed.

End References.

(** *** The locked and the unlocked connections *)

Section Connections.

Context {MH : MenuHeaders} {R : Resources}.

(** [ui_menu_add] makes one pass for each item before the terminator, in
    order, and stops at the terminator. *)
Lemma ui_menu_add_pass menu it rest window (s : menu_state) :
  ui_menu_add menu (it :: rest) window s
  = if is_terminator it then Done menu s
    else
      (group ← ui_menu_add_item window menu [] it;
       menu_items_loop (ui_menu_add_item window menu) group rest;;
       mret menu) s.
Proof.
  unfold ui_menu_add. cbn [menu_items_loop].
  destruct (is_terminator it); [reflexivity |].
  unfold mbind, run_bind.
  destruct (ui_menu_add_item window menu [] it s); reflexivity.
Qed.

(** The block for a created item connects the handler of [destroy], with
    the unlocked macro, and makes no other connection. *)
Lemma ui_menu_add_created_calls (s : menu_state) window menu it item id :
  menu_refs_ok s ->
  exists new,
    calls_of (ui_menu_add_created window menu it item id s)
    = Some (calls s ++ new)
    /\ signal_connections new
       = [(true, item, "destroy", "on_menu_item_destroy")].
Proof.
  intros Hs. unfold ui_menu_add_created.
  unfold mbind, run_bind, call, connect.
  cbn [calls menu_ref_count menu_item_references accel_group next_widget
       next_handler_id].
  destruct (action_id it >? ACTION_NONE).
  - match goal with
    | |- context [add_menu_item_ref ?i ?w ?h ?n ?st] =>
        pose proof (add_menu_item_ref_keeps_ok st i w h n) as Hadd;
        destruct (add_menu_item_ref i w h n st) as [[] s' | code s' |]
    end.
    + destruct (Hadd Hs) as [_ Hc]. cbn [calls_of]. rewrite Hc. cbn [calls].
      eexists. rewrite <- !app_assoc. split; reflexivity.
    + destruct (Hadd Hs) as (_ & _ & Hc). cbn [calls_of]. rewrite Hc.
      cbn [calls]. eexists. rewrite <- !app_assoc. split; reflexivity.
    + destruct (Hadd Hs).
  - cbn. eexists. rewrite <- !app_assoc. split; reflexivity.
Qed.

(** The same, after the calls [pre] of the [switch]. *)
Lemma ui_menu_add_created_after (s s1 : menu_state) window menu it
    (group : list widget) item h pre :
  menu_refs_ok s1 -> calls s1 = calls s ++ pre ->
  exists new,
    calls_of
      ((ui_menu_add_created window menu it item h ≫= λ _, mret group) s1)
    = Some (calls s ++ new)
    /\ signal_connections new
       = signal_connections pre
         ++ [(true, item, "destroy", "on_menu_item_destroy")].
Proof.
  intros Hs1 Hpre.
  destruct (ui_menu_add_created_calls s1 window menu it item h Hs1)
    as (post & Hcalls & Hpost).
  exists (pre ++ post). split.
  - unfold mbind, run_bind.
    destruct (ui_menu_add_created window menu it item h s1); cbn in *.
    + rewrite app_assoc, <- Hpre. exact Hcalls.
    + rewrite app_assoc, <- Hpre. exact Hcalls.
    + discriminate.
  - unfold signal_connections in *. by rewrite omap_app, Hpost.
Qed.

(** C6, as the code has it: the unlocked flag of an item selects between the
    two connection paths.  For an action, check or radio item that has a
    callback, one pass of the loop of [ui_menu_add] connects the callback
    once, to [activate] or [toggled], with [g_signal_connect_unlocked] if
    the flag is set and with [g_signal_connect] if not; the one other
    connection is the handler of [destroy].  For any item,
    [ui_menu_set_accel_via_vice_item] connects the accelerator once, with
    [gtk_accel_group_connect] if the flag is set and with
    [vice_locking_gtk_accel_group_connect] if not. *)
Theorem menu_lock_path_by_flag (s : menu_state) window menu group it cb
    item_gtk :
  (menu_types_distinct -> menu_refs_ok s ->
   is_activatable it -> callback it = Some cb ->
   exists new,
     calls_of (ui_menu_add_item window menu group it s)
     = Some (calls s ++ new)
     /\ signal_connections new
        = [(unlocked it, next_widget s, callback_signal it, cb);
           (true, next_widget s, "destroy", "on_menu_item_destroy")])
  /\ exists new,
       calls_of (ui_menu_set_accel_via_vice_item item_gtk it s)
       = Some (calls s ++ new)
       /\ accel_connections new
          = [(unlocked it, keysym it, modifier it, item_gtk, it)].
Proof.
  split.
  - intros Hd Hs Hact Hcb. switch_facts Hd.
    destruct it as [l t a c u r d k m]. unfold is_activatable in Hact.
    cbn in Hact, Hcb. subst c.
    unfold callback_signal. cbn [type unlocked].
    destruct Hact as [-> | [-> | [-> | ->]]];
      cbn [ui_menu_add_item]; cbn [type callback label data resource];
      switch_case;
      destruct u, r;
      unfold mbind, run_bind, new_widget, connect_callback, connect, call,
        mret, run_ret;
      cbn -[ui_menu_add_created Z.add];
      match goal with
      | |- exists new,
             calls_of (match ui_menu_add_created ?w ?m ?i ?item ?h ?s1 with
                       | Done _ s2 => Done ?g s2
                       | Exited _ _ => _
                       | Undefined => _
                       end) = Some (calls ?s0 ++ new) /\ _ =>
          let new := fresh "new" in
          let Hc := fresh "Hc" in
          let Hn := fresh "Hn" in
          edestruct (ui_menu_add_created_after s0 s1 w m i g item h)
            as (new & Hc & Hn);
          [exact Hs
          | cbn [calls]; rewrite <- ?app_assoc; reflexivity
          | exists new; split; [exact Hc | rewrite Hn; reflexivity]]
      end.
  - unfold ui_menu_set_accel_via_vice_item, mbind, run_bind, call.
    destruct (unlocked it); cbn;
      (eexists; rewrite <- !app_assoc; split; reflexivity).
Qed.

End Connections.

(** *** The theorems at work, with [sample_menu_headers] *)

Section Examples.

Local Existing Instance sample_menu_headers.
Local Existing Instance sample_resources.

(** C6, as the specification words it, fails: the separator carries a
    callback and its unlocked flag is not set, and [ui_menu_add] makes no
    connection with [g_signal_connect], the locked path, at all; the one
    connection is the handler of [destroy], made with the unlocked macro. *)
Lemma separator_callback_not_connected :
  callback item_separator_with_callback = Some "ui_action_toggle_pause"
  /\ unlocked item_separator_with_callback = false
  /\ signal_connections
       <$> calls_of (ui_menu_add 0%nat
                       [item_separator_with_callback; menu_terminator] 0
                       menu_state_init)
     = Some [(true, 0%nat, "destroy", "on_menu_item_destroy")].
Proof. repeat split; reflexivity. Qed.

Lemma sample_menu_types_distinct : menu_types_distinct.
Proof. apply (bool_decide_unpack _). vm_compute. exact I. Qed.

(** The pause item is not unlocked, the warp item is. *)
Lemma menu_lock_path_by_flag_witness :
  (exists new,
     calls_of (ui_menu_add_item 0 0%nat [] item_pause menu_state_init)
     = Some (calls menu_state_init ++ new)
     /\ signal_connections new
        = [(false, 0%nat, "activate", "ui_action_toggle_pause");
           (true, 0%nat, "destroy", "on_menu_item_destroy")])
  /\ exists new,
       calls_of (ui_menu_set_accel_via_vice_item 0%nat item_warp
                   menu_state_init)
       = Some (calls menu_state_init ++ new)
       /\ accel_connections new = [(true, 0, 0, 0%nat, item_warp)].
Proof.
  split.
  - exact (proj1 (menu_lock_path_by_flag menu_state_init 0 0%nat [] item_pause
                    "ui_action_toggle_pause" 0%nat)
             sample_menu_types_distinct menu_state_init_ok
             (or_introl eq_refl) eq_refl).
  - exact (proj2 (menu_lock_path_by_flag menu_state_init 0 0%nat [] item_warp
                    "ui_action_toggle_warp" 0%nat)).
Defined.

Lemma add_menu_item_ref_full_or_stored_witness :
  exists s',
    add_menu_item_ref item_pause 0%nat 1 0 menu_state_init = Done tt s'
    /\ menu_item_references s' !! 0%nat
       = Some (Menu_item_ref (Some item_pause) (Some 0%nat) 1 0 0 0)
    /\ menu_ref_count s' = 1.
Proof.
  destruct (add_menu_item_ref_full_or_stored menu_state_init item_pause 0%nat
              1 0) as [_ Hstore].
  { split; [unfold MENU_REFERENCES_MAX; cbn; lia | reflexivity]. }
  destruct Hstore as (s' & old & Hrun & Hold & Hnew & _ & Hcount & _).
  { cbn. discriminate. }
  exists s'. split; [exact Hrun |]. split; [| exact Hcount].
  cbn in Hold. injection Hold as <-. exact Hnew.
Defined.

End Examples.

End UiMenuFacts.

(** ** The C64 model table: setting the details, then detecting the model *)

Module C64ModelMoreFacts.

Import C64Model C64ModelMore C64ModelFacts.

Local Open Scope Z_scope.

Section Details.

Context {K : Headers}.

(** What [c64model_set_temp] leaves: the values it found, or those of the
    record with the SID model adjusted. *)
Lemma c64model_set_temp_result (T : list model_s) model d d' :
  c64model_set_temp T model d = Some d' ->
  (d' = d /\ (c64model_get_model T d = Some model \/ model = C64MODEL_UNKNOWN))
  \/ exists m sid',
       table_at T model = Some m
       /\ d' = Details (vicii m) sid' (glue m) (cia m) (cia m) (board m)
                 (iecreset m) (d_chargen d) (kernalrev m)
       /\ ((is_new_sid (Z.land (d_sid_model d) 255) = is_new_sid (sid m)
            /\ sid' = d_sid_model d)
           \/ (is_new_sid (Z.land (d_sid_model d) 255) <> is_new_sid (sid m)
               /\ sid' = Z.lor (wrap_int (Z.shiftl (Z.shiftr (d_sid_model d) 8) 8))
                           (sid m))).
Proof.
  unfold c64model_set_temp, c64model_get_model.
  destruct (c64model_get_temp T (d_vicii_model d) (d_sid_model d)
              (d_glue_logic d) (d_cia1_model d) (d_cia2_model d) (d_board d)
              (d_iecreset d) (d_chargen d) (d_kernalrev d))
    as [old_model |]; [| discriminate].
  destruct (Z.eqb_spec model old_model) as [-> | Hne]; cbn [orb].
  { intros [= <-]. left. split; [done | by left]. }
  destruct (Z.eqb_spec model C64MODEL_UNKNOWN) as [-> | Hunk].
  { intros [= <-]. left. split; [done | by right]. }
  destruct (table_at T model) as [m |]; [| discriminate].
  cbn [d_sid_model store_vicii_model store_cia1model store_cia2model
       store_glue_logic store_board store_iecreset store_kernalrev].
  destruct (Z.eqb_spec (is_new_sid (Z.land (d_sid_model d) 255))
              (is_new_sid (sid m))) as [Esame | Ediff]; cbn [negb];
    intros [= <-]; right; eexists m, _; (split; [done |]); (split; [reflexivity |]).
  - by left.
  - by right.
Qed.

(** A record read at a C index is the record at that place of the list. *)
Lemma table_at_lookup (T : list model_s) model m :
  table_at T model = Some m ->
  0 <= model /\ T !! Z.to_nat model = Some m.
Proof.
  unfold table_at. destruct (Z.ltb_spec model 0); [discriminate |].
  intros Hl. split; [lia | done].
Qed.

(** After [c64model_set_details] to the model of the record [m], the
    details are detected as that model if [detected_as] holds of them, and
    as no model otherwise. *)
Lemma c64model_get_after_set (d d' : c64model_details_t) model m :
  model_count_ok -> unknown_is_no_index ->
  vicii_models_distinct -> kernal_revs_distinct ->
  table_at c64models model = Some m ->
  c64model_set_details c64models d model = Some d' ->
  (detected_as m d' -> c64model_get_model c64models d' = Some model)
  /\ (~ detected_as m d' ->
      c64model_get_model c64models d' = Some C64MODEL_UNKNOWN).
Proof.
  intros Hnum Hunk Hv Hk Hm Hset. pose proof (model_count Hnum) as Hn.
  destruct (table_at_lookup _ _ _ Hm) as [Hpos Hl].
  assert (model <> C64MODEL_UNKNOWN) as Hnot.
  { intros ->. apply Hunk. apply lookup_lt_Some in Hl.
    unfold model_count_ok in Hnum. lia. }
  assert (forall (j : nat) mj,
            c64models !! j = Some mj ->
            key_agrees mj (d_vicii_model d') (d_sid_model d') (d_glue_logic d')
              (d_cia1_model d') (d_board d') (d_iecreset d') (d_chargen d')
              (d_kernalrev d') ->
            Z.of_nat j = model /\ detected_as m d') as Honly.
  { intros j mj Hj Hkey.
    apply c64model_set_temp_result in Hset
      as [[-> [Hsame | ->]] | (m0 & sid' & Hm0 & -> & _)]; [| done |].
    - (* nothing written: the details were detected as [model] *)
      unfold c64model_get_model in Hsame.
      destruct (c64model_get_temp_spec c64models (d_vicii_model d)
                  (d_sid_model d) (d_glue_logic d) (d_cia1_model d)
                  (d_cia2_model d) (d_board d) (d_iecreset d) (d_chargen d)
                  (d_kernalrev d) ltac:(lia)) as (r & Hr & Hcase).
      rewrite Hr in Hsame. injection Hsame as ->.
      destruct Hcase as [(_ & j0 & mj0 & _ & Hj0 & Hk0 & _ & ->) | [_ ->]];
        [| done].
      rewrite Nat2Z.id in Hl. assert (mj0 = m) as -> by congruence.
      assert (j = j0) as ->.
      { destruct Hkey as (Ev & _ & _ & _ & _ & _ & Ek & _).
        destruct Hk0 as (Ev0 & _ & _ & _ & _ & _ & Ek0 & _).
        apply (records_differ j j0 mj m Hv Hk Hj Hj0); congruence. }
      split; [done |].
      destruct Hk0 as (_ & _ & _ & Hs & _ & _ & _ & Hc). by split.
    - (* the values of the record were written *)
      assert (m0 = m) as -> by congruence. cbn in Hkey.
      assert (j = Z.to_nat model) as ->.
      { destruct Hkey as (Ev & _ & _ & _ & _ & _ & Ek & _).
        apply (records_differ j (Z.to_nat model) mj m Hv Hk Hj Hl); congruence. }
      assert (mj = m) as -> by congruence.
      split; [lia |].
      destruct Hkey as (_ & _ & _ & Hs & _ & _ & _ & Hc). by split. }
  unfold c64model_get_model.
  destruct (c64model_get_temp_spec c64models (d_vicii_model d')
              (d_sid_model d') (d_glue_logic d') (d_cia1_model d')
              (d_cia2_model d') (d_board d') (d_iecreset d') (d_chargen d')
              (d_kernalrev d') ltac:(lia)) as (r & -> & Hcase).
  destruct Hcase as [(_ & j & mj & _ & Hj & Hkey & _ & ->) | [Hmiss ->]].
  - destruct (Honly j mj Hj Hkey) as [-> Hdet]. split; [done | done].
  - split; [| done]. intros [Hc Hs]. exfalso.
    assert (d_cia1_model d' = d_cia2_model d'
            /\ key_agrees m (d_vicii_model d') (d_sid_model d')
                 (d_glue_logic d') (d_cia1_model d') (d_board d')
                 (d_iecreset d') (d_chargen d') (d_kernalrev d')) as [Hcia Hkey].
    { apply c64model_set_temp_result in Hset
        as [[-> [Hsame | ->]] | (m0 & sid' & Hm0 & -> & _)]; [| done |].
      - unfold c64model_get_model in Hsame.
        destruct (c64model_get_temp_spec c64models (d_vicii_model d)
                    (d_sid_model d) (d_glue_logic d) (d_cia1_model d)
                    (d_cia2_model d) (d_board d) (d_iecreset d) (d_chargen d)
                    (d_kernalrev d) ltac:(lia)) as (r & Hr & Hcase).
        rewrite Hr in Hsame. injection Hsame as ->.
        destruct Hcase as [(Hcia & j0 & mj0 & _ & Hj0 & Hk0 & _ & ->) | [_ ->]];
          [| done].
        rewrite Nat2Z.id in Hl. assert (mj0 = m) as -> by congruence.
        by split.
      - assert (m0 = m) as -> by congruence. cbn in *.
        split; [done |]. unfold key_agrees. by repeat split. }
    destruct Hmiss as [Hne | Hnone]; [done |].
    apply (Hnone (Z.to_nat model) m); [| done | done].
    rewrite Hn. by apply lookup_lt_Some in Hl.
Qed.

(** [c64model_set_details] returns for a model of the table. *)
Lemma c64model_set_details_returns (d : c64model_details_t) model m :
  model_count_ok -> table_at c64models model = Some m ->
  exists d', c64model_set_details c64models d model = Some d'.
Proof.
  intros Hnum Hm. unfold c64model_set_details, c64model_set_temp.
  destruct (c64model_get_temp_returns (d_vicii_model d) (d_sid_model d)
              (d_glue_logic d) (d_cia1_model d) (d_cia2_model d) (d_board d)
              (d_iecreset d) (d_chargen d) (d_kernalrev d) Hnum)
    as [old_model ->].
  rewrite Hm. repeat case_match; eauto.
Qed.

(** A SID model below 256: the low byte is all of it, the engine is 0. *)
Lemma low_byte_small (s : Z) : 0 <= s < 256 -> Z.land s 255 = s.
Proof.
  intros Hs. change 255 with (Z.ones 8). rewrite Z.land_ones by lia.
  apply Z.mod_small. change (2 ^ 8) with 256. lia.
Qed.

Lemma no_engine_small (s : Z) :
  0 <= s < 256 -> wrap_int (Z.shiftl (Z.shiftr s 8) 8) = 0.
Proof.
  intros Hs. rewrite Z.shiftr_div_pow2 by lia. change (2 ^ 8) with 256.
  rewrite Z.div_small by lia. reflexivity.
Qed.

(** X1: the round trip of [c64model_set_details] and [c64model_get_model].
    For details whose SID model names no engine (it is below 256) and a
    model of the table, [c64model_set_details] returns, and the details it
    leaves are detected as that model by [c64model_get_model] when the
    character ROM name they came with is the one of the model's record;
    with any other name they are detected as no model at all, for
    [c64model_set_details] never writes the name. *)
Theorem c64model_set_details_then_get (d : c64model_details_t) model m :
  model_count_ok -> unknown_is_no_index -> sid_classes_ok ->
  vicii_models_distinct -> kernal_revs_distinct ->
  table_at c64models model = Some m ->
  0 <= d_sid_model d < 256 ->
  exists d', c64model_set_details c64models d model = Some d'
    /\ (d_chargen d = Some (chargenname m) ->
        c64model_get_model c64models d' = Some model)
    /\ (d_chargen d <> Some (chargenname m) ->
        c64model_get_model c64models d' = Some C64MODEL_UNKNOWN).
Proof.
  intros Hnum Hunk Hsid Hv Hk Hm Hs.
  destruct (c64model_set_details_returns d model m Hnum Hm) as [d' Hset].
  exists d'. split; [exact Hset |].
  destruct (c64model_get_after_set d d' model m Hnum Hunk Hv Hk Hm Hset)
    as [Hyes Hno].
  destruct (table_at_lookup _ _ _ Hm) as [_ Hl].
  assert (is_new_sid (sid m) = sid m) as Hclass.
  { destruct Hsid as [Hold Hnew].
    destruct (table_sid _ m Hl) as [-> | ->]; assumption. }
  pose proof Hset as Hres. apply c64model_set_temp_result in Hres
    as [[-> Hsame] | (m0 & sid' & Hm0 & -> & Hsid')].
  - split.
    + intros Hc. destruct Hsame as [Hsame | ->]; [exact Hsame |].
      apply Hyes. split; [exact Hc |].
      exfalso. apply Hunk. apply lookup_lt_Some in Hl.
      unfold model_count_ok in Hnum. unfold table_at in Hm.
      destruct (Z.ltb_spec C64MODEL_UNKNOWN 0); [discriminate | lia].
    + intros Hc. apply Hno. intros [Hc' _]. contradiction.
  - assert (m0 = m) as -> by congruence. split.
    + intros Hc. apply Hyes. split; [exact Hc |]. cbn [d_sid_model].
      destruct Hsid' as [[Esame ->] | [_ ->]].
      * rewrite low_byte_small in Esame by exact Hs. congruence.
      * rewrite no_engine_small by exact Hs. rewrite Z.lor_0_l. congruence.
    + intros Hc. apply Hno. intros [Hc' _]. contradiction.
Qed.

(** A SID model that names an engine is classed as an old SID. *)
Lemma is_new_sid_engine (s : Z) :
  sid_models_small -> 256 <= s -> is_new_sid s = 0.
Proof.
  intros [H1 H2] Hs. unfold is_new_sid.
  destruct (Z.eqb_spec s SID_MODEL_8580); [lia |].
  destruct (Z.eqb_spec s SID_MODEL_8580D); [lia | reflexivity].
Qed.

(** A SID model with the engine of one that is 256 or more is 256 or
    more. *)
Lemma engine_stays_set (s s' : Z) :
  256 <= s -> Z.shiftr s' 8 = Z.shiftr s 8 -> 256 <= s'.
Proof.
  rewrite !Z.shiftr_div_pow2 by lia. change (2 ^ 8) with 256. intros Hs E.
  assert (1 <= s / 256) by (apply Z.div_le_lower_bound; lia).
  destruct (Z.lt_ge_cases s' 256) as [Hlt |]; [| lia].
  assert (s' / 256 <= 0); [| lia].
  destruct (Z.lt_ge_cases s' 0).
  - apply Z.lt_le_incl. apply Z.div_lt_upper_bound; lia.
  - rewrite Z.div_small by lia. lia.
Qed.

(** X2: [c64model_get_model] does not mask the engine out of the SID model,
    as [c64model_set_details] does.  Where the SID model of the details
    names an engine (it is 256 or more) and the record of the model has a
    SID other than 0, the details that [c64model_set_details] leaves for the
    model are not detected as it: [c64model_get_model] gives
    [C64MODEL_UNKNOWN]. *)
Theorem c64model_get_model_engine_bits (d : c64model_details_t) model m :
  model_count_ok -> unknown_is_no_index ->
  sid_classes_small -> sid_models_small ->
  vicii_models_distinct -> kernal_revs_distinct ->
  table_at c64models model = Some m -> sid m <> 0 ->
  int_range (d_sid_model d) -> 256 <= d_sid_model d ->
  exists d', c64model_set_details c64models d model = Some d'
    /\ c64model_get_model c64models d' = Some C64MODEL_UNKNOWN.
Proof.
  intros Hnum Hunk Hsmall Hids Hv Hk Hm Hnew Hrange Hs.
  destruct (c64model_set_details_returns d model m Hnum Hm) as [d' Hset].
  exists d'. split; [exact Hset |].
  destruct (c64model_get_after_set d d' model m Hnum Hunk Hv Hk Hm Hset)
    as [_ Hno].
  apply Hno. intros [_ Hclass].
  destruct (table_at_lookup _ _ _ Hm) as [_ Hl].
  assert (0 <= sid m < 256) as Hsm
    by (destruct Hsmall; destruct (table_sid _ m Hl) as [-> | ->]; assumption).
  assert (256 <= d_sid_model d') as Hs'.
  { apply c64model_set_temp_result in Hset
      as [[-> _] | (m0 & sid' & Hm0 & -> & Hsid')]; [exact Hs |].
    assert (m0 = m) as -> by congruence. cbn [d_sid_model].
    destruct Hsid' as [[_ ->] | [_ ->]]; [exact Hs |].
    apply (engine_stays_set (d_sid_model d)); [exact Hs |].
    rewrite wrap_int_id by (by apply engine_in_range).
    by apply engine_of_combined. }
  rewrite (is_new_sid_engine _ Hids Hs') in Hclass. contradiction.
Qed.

(** X3: [c64model_set_temp] is idempotent: applied for the same model to
    the details it has left, it leaves them as they are. *)
Theorem c64model_set_temp_idempotent (d d' : c64model_details_t) model :
  model_count_ok -> sid_classes_small -> int_range (d_sid_model d) ->
  c64model_set_temp c64models model d = Some d' ->
  c64model_set_temp c64models model d' = Some d'.
Proof.
  intros Hnum Hsmall Hrange Hset.
  pose proof Hset as Hres. apply c64model_set_temp_result in Hres
    as [[-> _] | (m & sid' & Hm & -> & Hsid')]; [exact Hset |].
  destruct (table_at_lookup _ _ _ Hm) as [_ Hl].
  assert (0 <= sid m < 256) as Hsm
    by (destruct Hsmall; destruct (table_sid _ m Hl) as [-> | ->]; assumption).
  assert (is_new_sid (Z.land sid' 255) = is_new_sid (sid m)) as Hclass.
  { destruct Hsid' as [[Esame ->] | [_ ->]]; [exact Esame |].
    rewrite wrap_int_id by (by apply engine_in_range).
    by rewrite model_of_combined. }
  unfold c64model_set_temp. cbn [d_vicii_model d_sid_model d_glue_logic
    d_cia1_model d_cia2_model d_board d_iecreset d_chargen d_kernalrev].
  destruct (c64model_get_temp_returns (vicii m) sid' (glue m) (cia m) (cia m)
              (board m) (iecreset m) (d_chargen d) (kernalrev m) Hnum)
    as [old_model ->].
  destruct ((model =? old_model) || (model =? C64MODEL_UNKNOWN));
    [reflexivity |].
  rewrite Hm.
  cbn [d_sid_model store_vicii_model store_cia1model store_cia2model
       store_glue_logic store_board store_iecreset store_kernalrev
       d_vicii_model d_glue_logic d_cia1_model d_cia2_model d_board
       d_iecreset d_chargen d_kernalrev].
  rewrite Hclass, Z.eqb_refl. reflexivity.
Qed.

End Details.

(** *** The resources *)

Section Resources.

Context {K : Headers} {env : Type} {M : Machine env}.

(** [c64model_get] returns on every state of the resources. *)
Lemma c64model_get_returns (e : env) :
  model_count_ok -> exists r, c64model_get c64models e = Some r.
Proof.
  intros Hnum. unfold c64model_get.
  repeat (match goal with
          | |- context [let '(_, _) := ?c in _] => destruct c
          | |- context [if ?b then _ else _] => destruct b
          end; eauto).
  apply c64model_get_temp_returns. exact Hnum.
Qed.

(** X4: [c64model_set] changes nothing, and calls none of the functions
    that set a resource or enable a port, when the model is the one that
    [c64model_get] detects or is [C64MODEL_UNKNOWN]. *)
Theorem c64model_set_same_or_unknown (e : env) model :
  model_count_ok ->
  c64model_get c64models e = Some model \/ model = C64MODEL_UNKNOWN ->
  c64model_set c64models model e = Some e.
Proof.
  intros Hnum Hcase. unfold c64model_set.
  destruct (c64model_get_returns e Hnum) as [old_model Hold].
  rewrite Hold. destruct Hcase as [Hsame | ->].
  - rewrite Hold in Hsame. injection Hsame as ->. by rewrite Z.eqb_refl.
  - by rewrite Z.eqb_refl, orb_true_r.
Qed.

End Resources.

(** *** The theorems at work, with [sample_headers] *)

Section Examples.

Local Existing Instance sample_headers.

Lemma sample_model_count_ok : model_count_ok.
Proof. reflexivity. Qed.

Lemma sample_unknown_is_no_index : unknown_is_no_index.
Proof. unfold unknown_is_no_index. cbn. lia. Qed.

(** From the C64 PAL to the C64C PAL and back to the model number; with
    the character ROM of the Japanese C64 no model is found. *)
Lemma c64model_set_details_then_get_witness :
  (exists d', c64model_set_details c64models c64_pal_plain 1 = Some d'
     /\ c64model_get_model c64models d' = Some 1)
  /\ exists d', c64model_set_details c64models c64_pal_jap_chargen 1 = Some d'
       /\ c64model_get_model c64models d' = Some C64MODEL_UNKNOWN.
Proof.
  split.
  - destruct (c64model_set_details_then_get c64_pal_plain 1 c64c_pal
                sample_model_count_ok sample_unknown_is_no_index (conj eq_refl eq_refl)
                sample_vicii_models_distinct sample_kernal_revs_distinct
                eq_refl ltac:(cbn; lia)) as (d' & Hset & Hyes & _).
    exists d'. split; [exact Hset | apply Hyes; reflexivity].
  - destruct (c64model_set_details_then_get c64_pal_jap_chargen 1 c64c_pal
                sample_model_count_ok sample_unknown_is_no_index (conj eq_refl eq_refl)
                sample_vicii_models_distinct sample_kernal_revs_distinct
                eq_refl ltac:(cbn; lia)) as (d' & Hset & _ & Hno).
    exists d'. split; [exact Hset | apply Hno; discriminate].
Defined.

(** The C64 PAL with a 6581 played by the engine 1, set to the C64C PAL. *)
Lemma c64model_get_model_engine_bits_witness :
  exists d', c64model_set_details c64models c64_pal_details 1 = Some d'
    /\ c64model_get_model c64models d' = Some C64MODEL_UNKNOWN.
Proof.
  apply (c64model_get_model_engine_bits c64_pal_details 1 c64c_pal).
  - reflexivity.
  - exact sample_unknown_is_no_index.
  - unfold sid_classes_small. cbn. lia.
  - unfold sid_models_small. cbn. lia.
  - exact sample_vicii_models_distinct.
  - exact sample_kernal_revs_distinct.
  - reflexivity.
  - discriminate.
  - unfold int_range. cbn. lia.
  - cbn. lia.
Defined.

Lemma c64model_set_temp_idempotent_witness :
  c64model_set_temp c64models 1
    (Details 1 257 1 1 1 0 0 (Some "chargen") 3)
  = Some (Details 1 257 1 1 1 0 0 (Some "chargen") 3).
Proof.
  apply (c64model_set_temp_idempotent c64_pal_details).
  - reflexivity.
  - unfold sid_classes_small. cbn. lia.
  - unfold int_range. cbn. lia.
  - reflexivity.
Defined.

Local Existing Instance sample_machine.

Lemma c64model_set_same_or_unknown_witness :
  c64model_set c64models 0 sample_env = Some sample_env
  /\ c64model_set c64models C64MODEL_UNKNOWN sample_env = Some sample_env.
Proof.
  split.
  - apply (c64model_set_same_or_unknown sample_env 0); [reflexivity |].
    left. vm_compute. reflexivity.
  - apply (c64model_set_same_or_unknown sample_env C64MODEL_UNKNOWN);
      [reflexivity |].
    right. reflexivity.
Defined.

End Examples.

End C64ModelMoreFacts.

(** ** Properties of the lookups in the table of menu references *)

Module UiMenuRefsFacts.

Import UiMenu UiMenuRefs UiMenuFacts.

Local Open Scope Z_scope.

(** *** The lookup by action *)

Section Lookup.

Context {MH : MenuHeaders} {WH : WindowHeaders}.

(** A slot read at a C index that is a natural number. *)
Lemma ref_at_of_nat (refs : list ui_menu_item_ref_t) (j : nat) :
  ref_at refs (Z.of_nat j) = refs !! j.
Proof.
  unfold ref_at. destruct (Z.ltb_spec (Z.of_nat j) 0); [lia |].
  by rewrite Nat2Z.id.
Qed.

(** The condition of the [if] in the loop of the lookup. *)
Lemma ref_matches_iff (r : ui_menu_item_ref_t) it a w :
  item_vice r = Some it ->
  (action_id it =? a) && (window_id r =? w) = true <-> ref_is_for a w r.
Proof.
  intros Hit. unfold ref_is_for. rewrite andb_true_iff, !Z.eqb_eq. split.
  - intros [Ha Hw]. by exists it.
  - intros (it' & Hit' & Ha & Hw). by assert (it' = it) as -> by congruence.
Qed.

(** The loop of the lookup on a table whose slots from [i] on hold an
    item: the first reference for the action and the window, if any. *)
Lemma ref_by_action_scan_spec (refs : list ui_menu_item_ref_t) a w :
  forall (n i : nat), (i + n <= length refs)%nat ->
  (forall (j : nat) r, (i <= j < i + n)%nat -> refs !! j = Some r ->
     is_Some (item_vice r)) ->
  exists res, ref_by_action_scan refs n (Z.of_nat i) a w = Some res
    /\ ((exists (j : nat) r, (i <= j < i + n)%nat /\ refs !! j = Some r
           /\ ref_is_for a w r
           /\ (forall (j' : nat) r', (i <= j' < j)%nat ->
                 refs !! j' = Some r' -> ~ ref_is_for a w r')
           /\ res = Some (Z.of_nat j))
        \/ ((forall (j : nat) r, (i <= j < i + n)%nat -> refs !! j = Some r ->
               ~ ref_is_for a w r)
            /\ res = None)).
Proof.
  induction n as [| n IH]; intros i Hlen Hfilled; cbn [ref_by_action_scan].
  - eexists; split; [reflexivity |]. right; split; [| reflexivity].
    intros j r Hj; lia.
  - rewrite ref_at_of_nat.
    destruct (lookup_lt_is_Some_2 refs i ltac:(lia)) as [r Hr]. rewrite Hr.
    destruct (Hfilled i r ltac:(lia) Hr) as [it Hit]. rewrite Hit.
    destruct ((action_id it =? a) && (window_id r =? w)) eqn:Em.
    + eexists; split; [reflexivity |]. left. exists i, r.
      split; [lia |]. split; [done |].
      split; [by apply (ref_matches_iff r it) |].
      split; [| done]. intros j' r' Hj'; lia.
    + replace (Z.of_nat i + 1) with (Z.of_nat (S i)) by lia.
      destruct (IH (S i) ltac:(lia)) as (res & -> & Hres).
      { intros j rj Hj. apply Hfilled. lia. }
      assert (~ ref_is_for a w r) as Hnot.
      { intros Hfor. apply (ref_matches_iff r it a w Hit) in Hfor. congruence. }
      eexists; split; [reflexivity |].
      destruct Hres as [(j & rj & Hj & Hl & Hfor & Hleast & ->) | [Hnone ->]].
      * left. exists j, rj. repeat split; try done; try lia.
        intros j' r' Hj' Hl'. destruct (decide (j' = i)) as [-> |].
        -- by assert (r' = r) as -> by congruence.
        -- apply (Hleast j' r'); [lia | done].
      * right; split; [| reflexivity].
        intros j rj Hj Hl. destruct (decide (j = i)) as [-> |].
        -- by assert (rj = r) as -> by congruence.
        -- apply (Hnone j rj); [lia | done].
Qed.

(** [valid_window_id] on a valid window ID, and the test of the action
    ID. *)
Lemma valid_window_id_ok w (s : menu_state) :
  window_ok w -> valid_window_id w s = Done true s.
Proof.
  intros Hw. unfold valid_window_id.
  destruct (Z.eqb_spec w PRIMARY_WINDOW); [reflexivity |].
  destruct (Z.eqb_spec w SECONDARY_WINDOW); [reflexivity |].
  destruct Hw; contradiction.
Qed.

Lemma action_ok_test a :
  action_ok a -> (a >? ACTION_NONE) && (a <? ACTION_ID_COUNT) = true.
Proof.
  intros [H1 H2]. apply andb_true_iff. split.
  - apply Z.gtb_lt. lia.
  - by apply Z.ltb_lt.
Qed.

(** For a window and an action that pass the checks, the lookup is the
    loop. *)
Lemma ui_menu_item_ref_by_action_scan a w (s : menu_state) :
  window_ok w -> action_ok a ->
  ui_menu_item_ref_by_action a w s
  = read (fun s => ref_by_action_scan (menu_item_references s)
                     (Z.to_nat (menu_ref_count s)) 0 a w) s.
Proof.
  intros Hw Ha. unfold ui_menu_item_ref_by_action, mbind, run_bind.
  rewrite (valid_window_id_ok w s Hw). cbn [negb].
  by rewrite (action_ok_test a Ha).
Qed.

(** On a filled table, for a window and an action that pass the checks, the
    lookup returns the index of the first reference for them, or [NULL] when
    there is none; the state is as before. *)
Lemma ui_menu_item_ref_by_action_found (s : menu_state) a w :
  menu_refs_filled s -> window_ok w -> action_ok a ->
  exists res, ui_menu_item_ref_by_action a w s = Done res s
    /\ ((exists (j : nat) r, Z.of_nat j < menu_ref_count s
           /\ menu_item_references s !! j = Some r
           /\ ref_is_for a w r
           /\ (forall (j' : nat) r', (j' < j)%nat ->
                 menu_item_references s !! j' = Some r' -> ~ ref_is_for a w r')
           /\ res = Some (Z.of_nat j))
        \/ ((forall (j : nat) r, Z.of_nat j < menu_ref_count s ->
               menu_item_references s !! j = Some r -> ~ ref_is_for a w r)
            /\ res = None)).
Proof.
  intros [[Hcount Hlen] Hfilled] Hw Ha.
  rewrite (ui_menu_item_ref_by_action_scan a w s Hw Ha). unfold read.
  destruct (ref_by_action_scan_spec (menu_item_references s) a w
              (Z.to_nat (menu_ref_count s)) 0%nat) as (res & Hres & Hcase).
  { lia. }
  { intros j r Hj. apply Hfilled. lia. }
  change (Z.of_nat 0) with 0 in Hres. rewrite Hres.
  exists res. split; [reflexivity |].
  destruct Hcase as [(j & r & Hj & Hl & Hfor & Hleast & ->) | [Hnone ->]].
  - left. exists j, r. split; [lia |]. split; [done |]. split; [done |].
    split; [| done]. intros j' r' Hj'. apply Hleast. lia.
  - right. split; [| done]. intros j r Hj. apply Hnone. lia.
Qed.

(** X6: what [ui_menu_item_ref_by_action] rejects.  For a window ID that is
    neither [PRIMARY_WINDOW] nor [SECONDARY_WINDOW] it returns [NULL] after
    one call of [log_error], with the message [Invalid window ID of <n>.],
    and leaves the table alone; for a valid window and an action ID that is
    not above [ACTION_NONE] and below [ACTION_ID_COUNT] it returns [NULL]
    and does nothing else.  In both cases the table is not read, so the
    result is defined on any state. *)
Theorem ui_menu_item_ref_by_action_rejects (s : menu_state) a w :
  (~ window_ok w ->
   exists s', ui_menu_item_ref_by_action a w s = Done None s'
     /\ calls s'
        = calls s
          ++ [log_error ("Invalid window ID of " +:+ pretty w +:+ ".")]
     /\ menu_item_references s' = menu_item_references s
     /\ menu_ref_count s' = menu_ref_count s)
  /\ (window_ok w -> ~ action_ok a ->
      ui_menu_item_ref_by_action a w s = Done None s).
Proof.
  split.
  - intros Hw. unfold ui_menu_item_ref_by_action, valid_window_id, mbind,
      run_bind.
    destruct (Z.eqb_spec w PRIMARY_WINDOW) as [-> | _];
      [destruct Hw; by left |].
    destruct (Z.eqb_spec w SECONDARY_WINDOW) as [-> | _];
      [destruct Hw; by right |].
    cbn. eexists. split; [reflexivity |]. done.
  - intros Hw Ha. unfold ui_menu_item_ref_by_action, mbind, run_bind.
    rewrite (valid_window_id_ok w s Hw). cbn [negb].
    destruct (Z.gtb_spec a ACTION_NONE); [| reflexivity].
    destruct (Z.ltb_spec a ACTION_ID_COUNT); [| reflexivity].
    destruct Ha. split; lia.
Qed.

(** *** Adding a reference, then looking up *)

(** [add_menu_item_ref] with room in the table, and with none. *)
Lemma add_menu_item_ref_stores (s : menu_state) it w id win :
  menu_refs_ok s -> menu_ref_count s <> MENU_REFERENCES_MAX ->
  exists old,
    menu_item_references s !! Z.to_nat (menu_ref_count s) = Some old
    /\ add_menu_item_ref it w id win s
       = Done tt
           (Menu_state
              (<[Z.to_nat (menu_ref_count s) :=
                   Menu_item_ref (Some it) (Some w) id win (ref_keysym old)
                     (ref_modifier old)]> (menu_item_references s))
              (menu_ref_count s + 1) (accel_group s) (calls s) (next_widget s)
              (next_handler_id s)).
Proof.
  intros [Hcount Hlen] Hroom. unfold add_menu_item_ref.
  destruct (Z.eqb_spec (menu_ref_count s) MENU_REFERENCES_MAX); [done |].
  destruct (Z.leb_spec 0 (menu_ref_count s)); [| lia].
  destruct (Z.ltb_spec (menu_ref_count s) MENU_REFERENCES_MAX); [| lia].
  cbn [andb].
  destruct (lookup_lt_is_Some_2 (menu_item_references s)
              (Z.to_nat (menu_ref_count s)) ltac:(lia)) as [old Hold].
  rewrite Hold. by exists old.
Qed.

Lemma add_menu_item_ref_full (s : menu_state) it w id win :
  menu_ref_count s = MENU_REFERENCES_MAX ->
  add_menu_item_ref it w id win s
  = Exited 1
      (Menu_state (menu_item_references s) (menu_ref_count s) (accel_group s)
         (calls s
          ++ [log_error
                "add_menu_item_ref: menu item references table is FULL"])
         (next_widget s) (next_handler_id s)).
Proof.
  intros Hfull. unfold add_menu_item_ref.
  rewrite (proj2 (Z.eqb_eq _ _) Hfull). reflexivity.
Qed.

(** A slot that holds an item keeps the table filled, one reference more. *)
Lemma insert_keeps_filled (s : menu_state) r :
  menu_refs_filled s -> menu_ref_count s <> MENU_REFERENCES_MAX ->
  is_Some (item_vice r) ->
  menu_refs_filled
    (Menu_state (<[Z.to_nat (menu_ref_count s) := r]> (menu_item_references s))
       (menu_ref_count s + 1) (accel_group s) (calls s) (next_widget s)
       (next_handler_id s)).
Proof.
  intros [[Hcount Hlen] Hfilled] Hroom Hr. split.
  - split; cbn [menu_ref_count menu_item_references]; [lia |].
    by rewrite length_insert.
  - cbn [menu_ref_count menu_item_references]. intros j rj Hj Hl.
    destruct (decide (j = Z.to_nat (menu_ref_count s))) as [-> | Hne].
    + rewrite list_lookup_insert_eq in Hl by lia. by injection Hl as <-.
    + rewrite list_lookup_insert_ne in Hl by done.
      apply (Hfilled j rj); [lia | done].
Qed.

(** [add_menu_item_ref] keeps the table filled. *)
Lemma filled_add_menu_item_ref it w id win :
  keeps menu_refs_filled (add_menu_item_ref it w id win).
Proof.
  intros s Hs.
  destruct (decide (menu_ref_count s = MENU_REFERENCES_MAX)) as [Hfull | Hroom].
  - rewrite (add_menu_item_ref_full s it w id win Hfull). exact Hs.
  - destruct (add_menu_item_ref_stores s it w id win (proj1 Hs) Hroom)
      as (old & _ & ->).
    by apply insert_keeps_filled.
Qed.

(** The loop reads the slots from [i] to [i + n] only. *)
Lemma ref_by_action_scan_ext (refs refs' : list ui_menu_item_ref_t) a w :
  forall (n i : nat),
  (forall j : nat, (i <= j < i + n)%nat -> refs' !! j = refs !! j) ->
  ref_by_action_scan refs' n (Z.of_nat i) a w
  = ref_by_action_scan refs n (Z.of_nat i) a w.
Proof.
  induction n as [| n IH]; intros i Hsame; cbn [ref_by_action_scan];
    [reflexivity |].
  rewrite !ref_at_of_nat, (Hsame i) by lia.
  destruct (refs !! i) as [r |]; [| reflexivity].
  destruct (item_vice r) as [it |]; [| reflexivity].
  destruct ((action_id it =? a) && (window_id r =? w)); [reflexivity |].
  replace (Z.of_nat i + 1) with (Z.of_nat (S i)) by lia.
  apply IH. intros j Hj. apply Hsame. lia.
Qed.

(** One more iteration at the end of the loop. *)
Lemma ref_by_action_scan_snoc (refs : list ui_menu_item_ref_t) a w :
  forall (n i : nat),
  ref_by_action_scan refs (n + 1) (Z.of_nat i) a w
  = match ref_by_action_scan refs n (Z.of_nat i) a w with
    | Some None => ref_by_action_scan refs 1 (Z.of_nat (i + n)) a w
    | res => res
    end.
Proof.
  induction n as [| n IH]; intros i.
  - cbn [Nat.add]. by rewrite Nat.add_0_r.
  - cbn [Nat.add ref_by_action_scan].
    destruct (ref_at refs (Z.of_nat i)) as [r |]; [| reflexivity].
    destruct (item_vice r) as [it |]; [| reflexivity].
    destruct ((action_id it =? a) && (window_id r =? w)); [reflexivity |].
    replace (Z.of_nat i + 1) with (Z.of_nat (S i)) by lia.
    rewrite IH. by replace (S i + n)%nat with (i + S n)%nat by lia.
Qed.

(** The lookup after one more reference was stored at the count. *)
Lemma ui_menu_item_ref_by_action_one_more (s s' : menu_state) r it a w res :
  menu_refs_ok s -> menu_ref_count s <> MENU_REFERENCES_MAX ->
  menu_item_references s'
  = <[Z.to_nat (menu_ref_count s) := r]> (menu_item_references s) ->
  menu_ref_count s' = menu_ref_count s + 1 ->
  item_vice r = Some it -> window_ok w -> action_ok a ->
  ui_menu_item_ref_by_action a w s = Done res s ->
  ui_menu_item_ref_by_action a w s'
  = Done (match res with
          | Some i => Some i
          | None =>
              if (action_id it =? a) && (window_id r =? w)
              then Some (menu_ref_count s) else None
          end) s'.
Proof.
  intros [Hcount Hlen] Hroom Hrefs Hcnt Hit Hw Ha Hres.
  rewrite (ui_menu_item_ref_by_action_scan a w s' Hw Ha).
  rewrite (ui_menu_item_ref_by_action_scan a w s Hw Ha) in Hres.
  unfold read in *. rewrite Hrefs, Hcnt.
  replace (Z.to_nat (menu_ref_count s + 1))
    with (Z.to_nat (menu_ref_count s) + 1)%nat by lia.
  change 0 with (Z.of_nat 0) in *.
  rewrite ref_by_action_scan_snoc.
  rewrite (ref_by_action_scan_ext (menu_item_references s)).
  2:{ intros j Hj. apply list_lookup_insert_ne. lia. }
  destruct (ref_by_action_scan (menu_item_references s)
              (Z.to_nat (menu_ref_count s)) (Z.of_nat 0) a w)
    as [[i |] |]; [by injection Hres as <- | | discriminate].
  injection Hres as <-. cbn [ref_by_action_scan Nat.add].
  rewrite ref_at_of_nat, list_lookup_insert_eq by lia. rewrite Hit.
  destruct ((action_id it =? a) && (window_id r =? w)); [| reflexivity].
  by rewrite Z2Nat.id by lia.
Qed.


(** X5: [ui_menu_item_ref_by_action] finds the first reference.  On a table
    whose slots below [menu_ref_count] hold an item, for a valid window ID
    and an action ID above [ACTION_NONE] and below [ACTION_ID_COUNT], the
    lookup returns the index of the first reference below the count whose
    item has the action ID and whose window ID is the one asked for, and
    [NULL] exactly when no reference below the count is for them; it changes
    nothing. *)
Theorem ui_menu_item_ref_by_action_first (s : menu_state) a w :
  menu_refs_filled s -> window_ok w -> action_ok a ->
  exists found,
    first_match (ref_is_for a w) s found
    /\ ui_menu_item_ref_by_action a w s
       = Done ((fun p => Z.of_nat p.1) <$> found) s.
Proof.
  intros Hs Hw Ha.
  destruct (ui_menu_item_ref_by_action_found s a w Hs Hw Ha)
    as (res & Hres & [(j & r & Hj & Hl & Hfor & Hleast & ->) | [Hnone ->]]).
  - exists (Some (j, r)). split; [| exact Hres].
    cbn [first_match]. tauto.
  - exists None. split; [exact Hnone | exact Hres].
Qed.

(** X7: a lookup after [add_menu_item_ref].  With room in the table, the
    lookup for an action and a window after the addition of a reference
    returns what it returned before if that was a reference; if it was
    [NULL], it returns the new reference, at the index of the old count,
    when the item added has the action ID and the window ID added is the
    one asked for, and [NULL] otherwise.  A reference added later never
    hides an earlier one. *)
Theorem ui_menu_item_ref_by_action_after_add (s : menu_state) it item h win
    a w :
  menu_refs_filled s -> menu_ref_count s <> MENU_REFERENCES_MAX ->
  window_ok w -> action_ok a ->
  exists s' res,
    add_menu_item_ref it item h win s = Done tt s'
    /\ ui_menu_item_ref_by_action a w s = Done res s
    /\ ui_menu_item_ref_by_action a w s'
       = Done (match res with
               | Some i => Some i
               | None =>
                   if (action_id it =? a) && (win =? w)
                   then Some (menu_ref_count s) else None
               end) s'.
Proof.
  intros Hs Hroom Hw Ha.
  destruct (add_menu_item_ref_stores s it item h win (proj1 Hs) Hroom)
    as (old & Hold & Hadd).
  destruct (ui_menu_item_ref_by_action_found s a w Hs Hw Ha)
    as (res & Hres & _).
  eexists _, res. split; [exact Hadd |]. split; [exact Hres |].
  apply (ui_menu_item_ref_by_action_one_more s _
           (Menu_item_ref (Some it) (Some item) h win (ref_keysym old)
              (ref_modifier old)) it a w res (proj1 Hs) Hroom);
    [reflexivity | reflexivity | reflexivity | exact Hw | exact Ha
    | exact Hres].
Qed.

(** *** Runs of additions *)

(** A run of additions from a table in order: all stored in the slots from
    the count on if they fit, the exit in the first call that finds the
    table full if not. *)
Lemma add_menu_item_refs_run l :
  forall s : menu_state, menu_refs_ok s ->
  (menu_ref_count s + Z.of_nat (length l) <= MENU_REFERENCES_MAX ->
   exists s', add_menu_item_refs l s = Done tt s'
     /\ menu_refs_ok s'
     /\ menu_ref_count s' = menu_ref_count s + Z.of_nat (length l)
     /\ calls s' = calls s
     /\ (forall j : nat, Z.of_nat j < menu_ref_count s ->
           menu_item_references s' !! j = menu_item_references s !! j)
     /\ (forall (k : nat) it w id win, l !! k = Some (it, w, id, win) ->
           exists old,
             menu_item_references s !! (Z.to_nat (menu_ref_count s) + k)%nat
             = Some old
             /\ menu_item_references s'
                !! (Z.to_nat (menu_ref_count s) + k)%nat
                = Some (Menu_item_ref (Some it) (Some w) id win
                          (ref_keysym old) (ref_modifier old))))
  /\ (MENU_REFERENCES_MAX < menu_ref_count s + Z.of_nat (length l) ->
      exists s', add_menu_item_refs l s = Exited 1 s'
        /\ menu_ref_count s' = MENU_REFERENCES_MAX
        /\ calls s'
           = calls s
             ++ [log_error
                   "add_menu_item_ref: menu item references table is FULL"]).
Proof.
  induction l as [| [[[it w] id] win] l IH]; intros s Hs.
  - cbn [length add_menu_item_refs]. split.
    + intros _. exists s. split; [reflexivity |]. split; [done |].
      split; [lia |]. split; [done |]. split; [done |].
      intros k ? ? ? ? Hk. by rewrite lookup_nil in Hk.
    + intros Hover. destruct Hs as [Hcount _]. cbn in Hover. lia.
  - cbn [length add_menu_item_refs]. unfold mbind, run_bind.
    destruct (decide (menu_ref_count s = MENU_REFERENCES_MAX))
      as [Hfull | Hroom].
    + rewrite (add_menu_item_ref_full s it w id win Hfull). split.
      * intros Hfit. lia.
      * intros _. eexists. split; [reflexivity |]. by cbn.
    + destruct (add_menu_item_ref_stores s it w id win Hs Hroom)
        as (old & Hold & ->).
      set (s1 := Menu_state _ _ _ _ _ _).
      assert (menu_refs_ok s1) as Hs1.
      { destruct Hs as [Hcount Hlen]. split; subst s1;
          cbn [menu_ref_count menu_item_references]; [lia |].
        by rewrite length_insert. }
      destruct (IH s1 Hs1) as [Hfit Hover].
      assert (menu_ref_count s1 = menu_ref_count s + 1) as Hc1 by done.
      destruct Hs as [Hcount Hlen]. split.
      * intros Hlen'.
        destruct Hfit as (s' & Hrun & Hok & Hcnt & Hcalls & Hbelow & Hnew);
          [lia |].
        exists s'. split; [exact Hrun |]. split; [exact Hok |].
        split; [lia |]. split; [by rewrite Hcalls |]. split.
        -- intros j Hj. rewrite Hbelow by lia. subst s1.
           cbn [menu_item_references]. apply list_lookup_insert_ne. lia.
        -- intros k it' w' id' win' Hk. destruct k as [| k].
           ++ injection Hk as <- <- <- <-. exists old.
              rewrite Nat.add_0_r. split; [exact Hold |].
              rewrite Hbelow by lia. subst s1. cbn [menu_item_references].
              apply list_lookup_insert_eq. lia.
           ++ cbn [lookup list_lookup] in Hk.
              destruct (Hnew k it' w' id' win' Hk) as (old' & Hold' & Hst).
              rewrite Hc1 in Hold', Hst.
              replace (Z.to_nat (menu_ref_count s + 1) + k)%nat
                with (Z.to_nat (menu_ref_count s) + S k)%nat in Hold', Hst
                by lia.
              exists old'. split; [| exact Hst].
              subst s1. cbn [menu_item_references] in Hold'.
              rewrite list_lookup_insert_ne in Hold' by lia. exact Hold'.
      * intros Hlen'.
        destruct Hover as (s' & Hrun & Hcnt & Hcalls); [lia |].
        exists s'. split; [exact Hrun |]. split; [exact Hcnt |].
        by rewrite Hcalls.
Qed.

(** X8: a run of additions from the state at startup.  A run of at most
    512 calls of [add_menu_item_ref] returns with nothing logged: the count
    is the number of calls, [ui_menu_item_ref_count] returns it,
    [ui_menu_item_ref_by_index] returns the slot of an index from 0 up to
    the count and [NULL] for any other, and the slot [k] holds the four
    values of the call [k], with no hotkey.  A longer run logs the error
    once and exits with code 1, with the count at 512. *)
Theorem add_menu_item_refs_from_init l :
  (Z.of_nat (length l) <= MENU_REFERENCES_MAX ->
   exists s', add_menu_item_refs l menu_state_init = Done tt s'
     /\ calls s' = []
     /\ ui_menu_item_ref_count s' = Done (Z.of_nat (length l)) s'
     /\ (forall i, ui_menu_item_ref_by_index i s'
                   = Done (if (0 <=? i) && (i <? Z.of_nat (length l))
                           then Some i else None) s')
     /\ forall (k : nat) it w id win, l !! k = Some (it, w, id, win) ->
          menu_item_references s' !! k
          = Some (Menu_item_ref (Some it) (Some w) id win 0 0))
  /\ (MENU_REFERENCES_MAX < Z.of_nat (length l) ->
      exists s', add_menu_item_refs l menu_state_init = Exited 1 s'
        /\ menu_ref_count s' = MENU_REFERENCES_MAX
        /\ calls s'
           = [log_error
                "add_menu_item_ref: menu item references table is FULL"]).
Proof.
  destruct (add_menu_item_refs_run l menu_state_init menu_state_init_ok)
    as [Hfit Hover].
  split.
  - intros Hlen. destruct Hfit as (s' & Hrun & _ & Hcnt & Hcalls & _ & Hnew).
    { cbn [menu_ref_count menu_state_init]. lia. }
    cbn [menu_ref_count menu_state_init] in Hcnt. rewrite Z.add_0_l in Hcnt.
    exists s'. split; [exact Hrun |]. split; [exact Hcalls |].
    split; [unfold ui_menu_item_ref_count; by rewrite Hcnt |]. split.
    + intros i. unfold ui_menu_item_ref_by_index. rewrite Hcnt, Z.geb_leb.
      destruct (Z.ltb_spec i 0), (Z.leb_spec 0 i),
        (Z.leb_spec (Z.of_nat (length l)) i),
        (Z.ltb_spec i (Z.of_nat (length l))); cbn; first [reflexivity | lia].
    + intros k it w id win Hk.
      destruct (Hnew k it w id win Hk) as (old & Hold & Hst).
      cbn [menu_ref_count menu_state_init menu_item_references] in Hold, Hst.
      change (Z.to_nat 0 + k)%nat with k in Hold, Hst.
      apply lookup_replicate in Hold as [-> _]. exact Hst.
  - intros Hlen. destruct Hover as (s' & Hrun & Hcnt & Hcalls).
    { cbn [menu_ref_count menu_state_init]. lia. }
    exists s'. split; [exact Hrun |]. split; [exact Hcnt |]. exact Hcalls.
Qed.

End Lookup.

(** *** What [ui_menu_add] keeps

    A property of the table that [add_menu_item_ref] keeps is kept by
    [ui_menu_add], for every array of items and their submenus. *)

Section Keeping.

Context {MH : MenuHeaders} {R : Resources}.
Variable Inv : menu_state -> Prop.
Hypothesis Htable : on_table Inv.
Hypothesis Hadd : forall it w id win, keeps Inv (add_menu_item_ref it w id win).

Lemma inv_ret {A : Type} (a : A) : keeps Inv (mret a).
Proof. intros s Hs. exact Hs. Qed.

Lemma inv_bind {A B : Type} (m : run A) (f : A -> run B) :
  keeps Inv m -> (forall a, keeps Inv (f a)) -> keeps Inv (m ≫= f).
Proof.
  intros Hm Hf s Hs. unfold mbind, run_bind. specialize (Hm s Hs).
  destruct (m s) as [a s' | code s' |]; [by apply Hf | done | done].
Qed.

Lemma inv_call c : keeps Inv (call c).
Proof. intros s Hs. by apply (Htable s). Qed.

Lemma inv_new_widget c : keeps Inv (new_widget c).
Proof. intros s Hs. by apply (Htable s). Qed.

Lemma inv_connect c : keeps Inv (connect c).
Proof. intros s Hs. by apply (Htable s). Qed.

Lemma inv_undefined {A : Type} : keeps Inv (@undefined A).
Proof. intros s Hs. exact I. Qed.

Lemma inv_loop (body : list widget -> ui_menu_item_t -> run (list widget))
    items :
  Forall (fun it => forall group, keeps Inv (body group it)) items ->
  forall group, keeps Inv (menu_items_loop body group items).
Proof.
  induction 1 as [| it rest Hit Hrest IH]; intros group;
    cbn [menu_items_loop].
  - apply inv_undefined.
  - destruct (is_terminator it); [apply inv_ret |].
    apply inv_bind; [apply Hit | intros g; apply IH].
Qed.

Lemma inv_ui_menu_add_item it :
  forall window menu group, keeps Inv (ui_menu_add_item window menu group it).
Proof.
  induction it as [it IH] using ui_menu_item_nested_ind.
  intros window menu group. destruct it as [l t a c u r d k m].
  cbn [ui_menu_add_item].
  cbn [type callback label data resource action_id unlocked] in *.
  repeat
    match goal with
    | |- keeps Inv (_ ≫= _) => apply inv_bind; [| intros ?]
    | |- keeps Inv (mret _) => apply inv_ret
    | |- keeps Inv (call _) => apply inv_call
    | |- keeps Inv (new_widget _) => apply inv_new_widget
    | |- keeps Inv (connect _) => apply inv_connect
    | |- keeps Inv undefined => apply inv_undefined
    | |- keeps Inv (add_menu_item_ref _ _ _ _) => apply Hadd
    | |- keeps Inv (connect_callback _ _ _ _ _) => unfold connect_callback
    | |- keeps Inv (ui_menu_add_created _ _ _ _ _) => unfold ui_menu_add_created
    | |- keeps Inv (menu_items_loop _ _ _) =>
        apply inv_loop; cbn [sub_items] in IH;
        eapply Forall_impl; [exact IH | intros ? Hx ?; apply Hx]
    | |- keeps Inv (if ?b then _ else _) => destruct b
    | |- keeps Inv (match ?x with _ => _ end) => destruct x
    end.
Qed.

Lemma inv_ui_menu_add menu items window :
  keeps Inv (ui_menu_add menu items window).
Proof.
  unfold ui_menu_add. apply inv_bind; [| intros ?; apply inv_ret].
  apply inv_loop. apply Forall_forall. intros it _ group.
  apply inv_ui_menu_add_item.
Qed.

End Keeping.

(** *** Lookups after a menu is built, and the hotkeys *)

Section Built.

Context {MH : MenuHeaders} {R : Resources} {WH : WindowHeaders}.

(** The two invariants speak of the table and the count alone. *)
Lemma menu_refs_filled_on_table : on_table menu_refs_filled.
Proof.
  intros s s' Hrefs Hcount [[Hc Hlen] Hfilled]. unfold menu_refs_filled,
    menu_refs_ok. rewrite Hrefs, Hcount. done.
Qed.

Lemma ref_hotkeys_unset_on_table : on_table ref_hotkeys_unset.
Proof.
  intros s s' Hrefs Hcount Hs. unfold ref_hotkeys_unset. by rewrite Hrefs.
Qed.


(** X11: building a menu keeps the lookups defined.  From a table whose
    slots below the count hold an item, [ui_menu_add], however it ends (by
    its return, or by the exit of [add_menu_item_ref] on a full table),
    leaves such a table, for any array of items and their submenus; so the
    lookup by action afterwards returns a reference or [NULL] and never
    reads the item behind a [NULL] [item_vice]. *)
Theorem ui_menu_add_keeps_lookups (s : menu_state) menu items window a w :
  menu_refs_filled s -> window_ok w -> action_ok a ->
  match ui_menu_add menu items window s with
  | Done _ s' | Exited _ s' =>
      menu_refs_filled s'
      /\ exists res, ui_menu_item_ref_by_action a w s' = Done res s'
  | Undefined => True
  end.
Proof.
  intros Hs Hw Ha.
  pose proof (inv_ui_menu_add menu_refs_filled menu_refs_filled_on_table
                filled_add_menu_item_ref menu items window s Hs) as Hk.
  destruct (ui_menu_add menu items window s) as [m s' | code s' |];
    [| | exact I].
  all: split; [exact Hk |].
  all: destruct (ui_menu_item_ref_by_action_found s' a w Hk Hw Ha)
         as (res & Hres & _); by exists res.
Qed.

(** The condition of the [if] in the loop of the scan for a hotkey. *)
Lemma ref_has_hotkey_iff (r : ui_menu_item_ref_t) k m :
  (window_id r =? PRIMARY_WINDOW) && (ref_keysym r =? k)
  && (ref_modifier r =? m) = true <-> ref_has_hotkey k m r.
Proof.
  unfold ref_has_hotkey. rewrite !andb_true_iff, !Z.eqb_eq. tauto.
Qed.

(** The loop of the scan for a hotkey from the slot [i] on. *)
Lemma item_by_hotkey_scan_spec (refs : list ui_menu_item_ref_t) k m :
  forall (n i : nat), (i + n <= length refs)%nat ->
  exists res, item_by_hotkey_scan refs n (Z.of_nat i) k m = Some res
    /\ ((exists (j : nat) r, (i <= j < i + n)%nat /\ refs !! j = Some r
           /\ ref_has_hotkey k m r
           /\ (forall (j' : nat) r', (i <= j' < j)%nat ->
                 refs !! j' = Some r' -> ~ ref_has_hotkey k m r')
           /\ res = item_vice r)
        \/ ((forall (j : nat) r, (i <= j < i + n)%nat -> refs !! j = Some r ->
               ~ ref_has_hotkey k m r)
            /\ res = None)).
Proof.
  induction n as [| n IH]; intros i Hlen; cbn [item_by_hotkey_scan].
  - eexists; split; [reflexivity |]. right; split; [| reflexivity].
    intros j r Hj; lia.
  - rewrite ref_at_of_nat.
    destruct (lookup_lt_is_Some_2 refs i ltac:(lia)) as [r Hr]. rewrite Hr.
    destruct ((window_id r =? PRIMARY_WINDOW) && (ref_keysym r =? k)
              && (ref_modifier r =? m)) eqn:Em.
    + eexists; split; [reflexivity |]. left. exists i, r.
      split; [lia |]. split; [done |].
      split; [by apply ref_has_hotkey_iff |].
      split; [| done]. intros j' r' Hj'; lia.
    + replace (Z.of_nat i + 1) with (Z.of_nat (S i)) by lia.
      destruct (IH (S i) ltac:(lia)) as (res & -> & Hres).
      assert (~ ref_has_hotkey k m r) as Hnot.
      { intros Hhas. apply ref_has_hotkey_iff in Hhas. congruence. }
      eexists; split; [reflexivity |].
      destruct Hres as [(j & rj & Hj & Hl & Hhas & Hleast & ->) | [Hnone ->]].
      * left. exists j, rj. repeat split; try apply Hhas; try done; try lia.
        intros j' r' Hj' Hl'. destruct (decide (j' = i)) as [-> |].
        -- by assert (r' = r) as -> by congruence.
        -- apply (Hleast j' r'); [lia | done].
      * right; split; [| reflexivity].
        intros j rj Hj Hl. destruct (decide (j = i)) as [-> |].
        -- by assert (rj = r) as -> by congruence.
        -- apply (Hnone j rj); [lia | done].
Qed.

(** The scan for a hotkey returns the item of the first reference of the
    primary window with the hotkey, or [NULL]. *)
Lemma ui_get_vice_menu_item_by_hotkey_found (s : menu_state) k m :
  menu_refs_ok s ->
  exists res, ui_get_vice_menu_item_by_hotkey k m s = Done res s
    /\ ((exists (j : nat) r, Z.of_nat j < menu_ref_count s
           /\ menu_item_references s !! j = Some r
           /\ ref_has_hotkey k m r
           /\ (forall (j' : nat) r', (j' < j)%nat ->
                 menu_item_references s !! j' = Some r' ->
                 ~ ref_has_hotkey k m r')
           /\ res = item_vice r)
        \/ ((forall (j : nat) r, Z.of_nat j < menu_ref_count s ->
               menu_item_references s !! j = Some r -> ~ ref_has_hotkey k m r)
            /\ res = None)).
Proof.
  intros [Hcount Hlen]. unfold ui_get_vice_menu_item_by_hotkey, read.
  destruct (item_by_hotkey_scan_spec (menu_item_references s) k m
              (Z.to_nat (menu_ref_count s)) 0%nat) as (res & Hres & Hcase).
  { lia. }
  change (Z.of_nat 0) with 0 in Hres. rewrite Hres.
  exists res. split; [reflexivity |].
  destruct Hcase as [(j & r & Hj & Hl & Hhas & Hleast & ->) | [Hnone ->]].
  - left. exists j, r. split; [lia |]. split; [done |]. split; [done |].
    split; [| done]. intros j' r' Hj'. apply Hleast. lia.
  - right. split; [| done]. intros j r Hj. apply Hnone. lia.
Qed.

(** X13: [ui_get_vice_menu_item_by_hotkey] returns the [item_vice] of the
    first reference below the count that is of the primary window and whose
    own keysym and modifier (not those of its item) are the ones asked for,
    and [NULL] when there is none; references of the secondary window are
    never found.  It is defined on any table in order, and changes
    nothing. *)
Theorem ui_get_vice_menu_item_by_hotkey_first (s : menu_state) k m :
  menu_refs_ok s ->
  exists found,
    first_match (ref_has_hotkey k m) s found
    /\ ui_get_vice_menu_item_by_hotkey k m s
       = Done (found ≫= fun p => item_vice p.2) s.
Proof.
  intros Hs.
  destruct (ui_get_vice_menu_item_by_hotkey_found s k m Hs)
    as (res & Hres & [(j & r & Hj & Hl & Hhas & Hleast & ->) | [Hnone ->]]).
  - exists (Some (j, r)). split; [| exact Hres].
    cbn [first_match]. tauto.
  - exists None. split; [exact Hnone | exact Hres].
Qed.

(** No reference has a hotkey other than 0, 0 where none carries one. *)
Lemma ui_get_vice_menu_item_by_hotkey_unset (s : menu_state) k m :
  menu_refs_ok s ->
  (forall (j : nat) r, Z.of_nat j < menu_ref_count s ->
     menu_item_references s !! j = Some r ->
     ref_keysym r = 0 /\ ref_modifier r = 0) ->
  k <> 0 \/ m <> 0 ->
  ui_get_vice_menu_item_by_hotkey k m s = Done None s.
Proof.
  intros Hok Hunset Hkm.
  destruct (ui_get_vice_menu_item_by_hotkey_found s k m Hok)
    as (res & -> & [(j & r & Hj & Hl & Hhas & _) | [_ ->]]); [| done].
  destruct (Hunset j r Hj Hl) as [Hk0 Hm0].
  destruct Hhas as (_ & Hk & Hm). lia.
Qed.

(** [add_menu_item_ref] gives no slot a hotkey. *)
Lemma keeps_hotkeys_add_menu_item_ref it w id win :
  keeps ref_hotkeys_unset (add_menu_item_ref it w id win).
Proof.
  intros s Hs. unfold add_menu_item_ref.
  destruct (menu_ref_count s =? MENU_REFERENCES_MAX); [exact Hs |].
  destruct ((0 <=? menu_ref_count s)
            && (menu_ref_count s <? MENU_REFERENCES_MAX)); [| exact I].
  destruct (menu_item_references s !! Z.to_nat (menu_ref_count s))
    as [old |] eqn:Hold; [| exact I].
  intros j r. cbn [menu_item_references].
  destruct (decide (j = Z.to_nat (menu_ref_count s))) as [-> | Hne].
  - rewrite list_lookup_insert_eq by (by apply lookup_lt_Some in Hold).
    intros [= <-]. exact (Hs _ old Hold).
  - rewrite list_lookup_insert_ne by done. apply Hs.
Qed.

(** The two checks of the lookup can be decided. *)
Lemma window_ok_dec w : {window_ok w} + {~ window_ok w}.
Proof.
  unfold window_ok.
  destruct (Z.eq_dec w PRIMARY_WINDOW); [left; tauto |].
  destruct (Z.eq_dec w SECONDARY_WINDOW); [left; tauto | right; tauto].
Qed.

Lemma action_ok_dec a : {action_ok a} + {~ action_ok a}.
Proof.
  unfold action_ok.
  destruct (Z_lt_dec ACTION_NONE a); [| right; lia].
  destruct (Z_lt_dec a ACTION_ID_COUNT); [left; lia | right; lia].
Qed.

(** The hotkey reported for an action is 0, 0 where no reference carries
    one. *)
Lemma ui_get_menu_item_hotkey_by_action_unset (s : menu_state) a :
  menu_refs_filled s -> ref_hotkeys_unset s ->
  exists found s',
    ui_get_menu_item_hotkey_by_action a s = Done (found, 0, 0) s'.
Proof.
  intros Hs Hunset. unfold ui_get_menu_item_hotkey_by_action, mbind, run_bind.
  destruct (window_ok_dec ui_get_main_window_index) as [Hw | Hw].
  - destruct (action_ok_dec a) as [Ha | Ha].
    + destruct (ui_menu_item_ref_by_action_found s a ui_get_main_window_index
                  Hs Hw Ha)
        as (res & -> & [(j & r & Hj & Hl & _ & _ & ->) | [_ ->]]).
      * unfold read. rewrite ref_at_of_nat, Hl. cbn.
        destruct (Hunset j r Hl) as [-> ->]. by eexists _, _.
      * by eexists _, _.
    + unfold ui_menu_item_ref_by_action, mbind, run_bind.
      rewrite (valid_window_id_ok _ s Hw). cbn [negb].
      destruct (Z.gtb_spec a ACTION_NONE);
        [destruct (Z.ltb_spec a ACTION_ID_COUNT) |];
        [destruct Ha; split; lia | by eexists _, _ | by eexists _, _].
  - unfold ui_menu_item_ref_by_action, valid_window_id, mbind, run_bind.
    destruct (Z.eqb_spec ui_get_main_window_index PRIMARY_WINDOW) as [E | _];
      [destruct Hw; by left |].
    destruct (Z.eqb_spec ui_get_main_window_index SECONDARY_WINDOW)
      as [E | _]; [destruct Hw; by right |].
    cbn. by eexists _, _.
Qed.

(** X12: building a menu gives no reference a hotkey.  [add_menu_item_ref]
    stores four fields of a reference and leaves its keysym and modifier as
    they are, whatever hotkey the item declares.  So from a filled table
    whose slots carry no hotkey (the table at startup is one),
    [ui_menu_add], however it ends, leaves such a table: the scan for a
    hotkey other than 0, 0 returns [NULL], and
    [ui_get_menu_item_hotkey_by_action] stores 0 and 0 for every action. *)
Theorem ui_menu_add_sets_no_hotkey (s : menu_state) menu items window a k m :
  menu_refs_filled s -> ref_hotkeys_unset s -> k <> 0 \/ m <> 0 ->
  match ui_menu_add menu items window s with
  | Done _ s' | Exited _ s' =>
      ref_hotkeys_unset s'
      /\ ui_get_vice_menu_item_by_hotkey k m s' = Done None s'
      /\ exists found s'',
           ui_get_menu_item_hotkey_by_action a s' = Done (found, 0, 0) s''
  | Undefined => True
  end.
Proof.
  intros Hs Hunset Hkm.
  pose proof (inv_ui_menu_add menu_refs_filled menu_refs_filled_on_table
                filled_add_menu_item_ref menu items window s Hs) as Hfilled.
  pose proof (inv_ui_menu_add ref_hotkeys_unset ref_hotkeys_unset_on_table
                keeps_hotkeys_add_menu_item_ref menu items window s Hunset)
    as Hkept.
  destruct (ui_menu_add menu items window s) as [x s' | code s' |];
    [| | exact I].
  all: split; [exact Hkept |]. all: split.
  all: try (apply ui_get_vice_menu_item_by_hotkey_unset;
            [exact (proj1 Hfilled) | intros j r _; apply Hkept | exact Hkm]).
  all: by apply ui_get_menu_item_hotkey_by_action_unset.
Qed.

(** *** Clearing the hotkeys *)

(** The loop of [ui_clear_vice_menu_item_hotkeys] over filled slots: they
    lose their hotkey, as do their items, and the other slots stay. *)
Lemma clear_hotkeys_loop_spec :
  forall (n i : nat) (refs : list ui_menu_item_ref_t),
  (i + n <= length refs)%nat ->
  (forall (j : nat) r, (i <= j < i + n)%nat -> refs !! j = Some r ->
     is_Some (item_vice r)) ->
  exists refs', clear_hotkeys_loop refs n (Z.of_nat i) = Some refs'
    /\ length refs' = length refs
    /\ (forall j : nat, ~ (i <= j < i + n)%nat -> refs' !! j = refs !! j)
    /\ (forall (j : nat) r, (i <= j < i + n)%nat -> refs !! j = Some r ->
          exists it, item_vice r = Some it
            /\ refs' !! j
               = Some (Menu_item_ref (Some (item_without_hotkey it))
                         (item_gtk3 r) (handler_id r) (window_id r) 0 0)).
Proof.
  induction n as [| n IH]; intros i refs Hlen Hfilled;
    cbn [clear_hotkeys_loop].
  - exists refs. split; [done |]. split; [done |]. split; [done |].
    intros j r Hj; lia.
  - rewrite ref_at_of_nat.
    destruct (lookup_lt_is_Some_2 refs i ltac:(lia)) as [r Hr]. rewrite Hr.
    destruct (Hfilled i r ltac:(lia) Hr) as [it Hit]. rewrite Hit.
    rewrite Nat2Z.id.
    replace (Z.of_nat i + 1) with (Z.of_nat (S i)) by lia.
    set (c := Menu_item_ref _ _ _ _ _ _).
    destruct (IH (S i) (<[i := c]> refs)) as (refs' & -> & Hl' & Hout & Hin).
    { rewrite length_insert. lia. }
    { intros j rj Hj. rewrite list_lookup_insert_ne by lia.
      apply Hfilled. lia. }
    exists refs'. split; [done |].
    split; [by rewrite Hl', length_insert |]. split.
    + intros j Hj. rewrite Hout by lia. apply list_lookup_insert_ne. lia.
    + intros j rj Hj Hlj. destruct (decide (j = i)) as [-> | Hne].
      * assert (rj = r) as -> by congruence. exists it. split; [done |].
        rewrite Hout by lia. apply list_lookup_insert_eq. lia.
      * apply Hin; [lia |]. by rewrite list_lookup_insert_ne by lia.
Qed.

(** [ui_clear_vice_menu_item_hotkeys] on a filled table: it returns, with
    another table. *)
Lemma ui_clear_vice_menu_item_hotkeys_run (s : menu_state) :
  menu_refs_filled s ->
  exists refs',
    ui_clear_vice_menu_item_hotkeys s = Done tt (with_references refs' s)
    /\ length refs' = length (menu_item_references s)
    /\ (forall j : nat, menu_ref_count s <= Z.of_nat j ->
          refs' !! j = menu_item_references s !! j)
    /\ (forall (j : nat) r, Z.of_nat j < menu_ref_count s ->
          menu_item_references s !! j = Some r ->
          exists it, item_vice r = Some it
            /\ refs' !! j
               = Some (Menu_item_ref (Some (item_without_hotkey it))
                         (item_gtk3 r) (handler_id r) (window_id r) 0 0)).
Proof.
  intros [[Hcount Hlen] Hfilled]. unfold ui_clear_vice_menu_item_hotkeys.
  destruct (clear_hotkeys_loop_spec (Z.to_nat (menu_ref_count s)) 0
              (menu_item_references s)) as (refs' & Hrun & Hl' & Hout & Hin).
  { lia. }
  { intros j r Hj. apply Hfilled. lia. }
  change (Z.of_nat 0) with 0 in Hrun. rewrite Hrun.
  exists refs'. split; [reflexivity |]. split; [exact Hl' |]. split.
  - intros j Hj. apply Hout. lia.
  - intros j r Hj. apply Hin. lia.
Qed.

(** X14: [ui_clear_vice_menu_item_hotkeys] on a filled table.  It returns;
    each reference below the count and its item have the keysym and the
    modifier 0 afterwards, and the item, the widget, the handler ID and the
    window ID they had; the slots from the count on, the count and the
    accelerator group are as before, and no call is made: an accelerator
    that is connected stays connected.  The table is filled as before. *)
Theorem ui_clear_vice_menu_item_hotkeys_clears (s : menu_state) :
  menu_refs_filled s ->
  exists s', ui_clear_vice_menu_item_hotkeys s = Done tt s'
    /\ menu_refs_filled s'
    /\ menu_ref_count s' = menu_ref_count s
    /\ accel_group s' = accel_group s
    /\ calls s' = calls s
    /\ (forall (j : nat) r, Z.of_nat j < menu_ref_count s ->
          menu_item_references s !! j = Some r ->
          exists it, item_vice r = Some it
            /\ menu_item_references s' !! j
               = Some (Menu_item_ref (Some (item_without_hotkey it))
                         (item_gtk3 r) (handler_id r) (window_id r) 0 0))
    /\ (forall j : nat, menu_ref_count s <= Z.of_nat j ->
          menu_item_references s' !! j = menu_item_references s !! j).
Proof.
  intros Hs.
  destruct (ui_clear_vice_menu_item_hotkeys_run s Hs)
    as (refs' & Hrun & Hlen' & Hout & Hin).
  destruct Hs as [[Hcount Hlen] Hfilled].
  exists (with_references refs' s). split; [exact Hrun |].
  unfold with_references. split.
  { split; [split; cbn [menu_ref_count menu_item_references];
              [lia | congruence] |].
    cbn [menu_ref_count menu_item_references]. intros j r' Hj Hlj.
    destruct (lookup_lt_is_Some_2 (menu_item_references s) j ltac:(lia))
      as [r Hr].
    destruct (Hin j r Hj Hr) as (it & _ & Hnew).
    rewrite Hnew in Hlj. injection Hlj as <-. by eexists. }
  cbn [menu_ref_count menu_item_references calls accel_group].
  split; [done |]. split; [done |]. split; [done |].
  split; [exact Hin | exact Hout].
Qed.

(** The loop of the lookup reads the action and the window of a slot
    only. *)
Lemma ref_by_action_scan_same_keys (refs refs' : list ui_menu_item_ref_t) a w :
  forall (n i : nat),
  (forall (j : nat) r, (i <= j < i + n)%nat -> refs !! j = Some r ->
     exists it r', item_vice r = Some it /\ refs' !! j = Some r'
       /\ window_id r' = window_id r
       /\ exists it', item_vice r' = Some it'
            /\ action_id it' = action_id it) ->
  (i + n <= length refs)%nat ->
  ref_by_action_scan refs' n (Z.of_nat i) a w
  = ref_by_action_scan refs n (Z.of_nat i) a w.
Proof.
  induction n as [| n IH]; intros i Hsame Hlen; cbn [ref_by_action_scan];
    [reflexivity |].
  rewrite !ref_at_of_nat.
  destruct (lookup_lt_is_Some_2 refs i ltac:(lia)) as [r Hr]. rewrite Hr.
  destruct (Hsame i r ltac:(lia) Hr)
    as (it & r' & -> & -> & -> & it' & -> & ->).
  destruct ((action_id it =? a) && (window_id r =? w)); [reflexivity |].
  replace (Z.of_nat i + 1) with (Z.of_nat (S i)) by lia.
  apply IH; [| lia]. intros j rj Hj. apply Hsame. lia.
Qed.

(** X15: the lookups after [ui_clear_vice_menu_item_hotkeys].  On a filled
    table, the lookup by action returns after the clearing the reference it
    returned before, and the scan for a hotkey other than 0, 0 returns
    [NULL]. *)
Theorem ui_clear_vice_menu_item_hotkeys_then_lookup (s : menu_state) a w k m :
  menu_refs_filled s -> window_ok w -> action_ok a -> k <> 0 \/ m <> 0 ->
  exists s' res,
    ui_clear_vice_menu_item_hotkeys s = Done tt s'
    /\ ui_menu_item_ref_by_action a w s = Done res s
    /\ ui_menu_item_ref_by_action a w s' = Done res s'
    /\ ui_get_vice_menu_item_by_hotkey k m s' = Done None s'.
Proof.
  intros Hs Hw Ha Hkm.
  destruct (ui_clear_vice_menu_item_hotkeys_run s Hs)
    as (refs' & Hclear & Hlen' & _ & Hin).
  destruct (ui_menu_item_ref_by_action_found s a w Hs Hw Ha)
    as (res & Hres & _).
  destruct Hs as [[Hcount Hlen] Hfilled].
  exists (with_references refs' s), res.
  split; [exact Hclear |]. split; [exact Hres |]. split.
  - rewrite (ui_menu_item_ref_by_action_scan a w s Hw Ha) in Hres.
    rewrite (ui_menu_item_ref_by_action_scan a w _ Hw Ha).
    unfold read, with_references in *.
    cbn [menu_ref_count menu_item_references].
    change 0 with (Z.of_nat 0) in *.
    rewrite (ref_by_action_scan_same_keys (menu_item_references s)).
    + destruct (ref_by_action_scan (menu_item_references s)
                  (Z.to_nat (menu_ref_count s)) (Z.of_nat 0) a w);
        [by injection Hres as <- | discriminate].
    + intros j r Hj Hl. destruct (Hin j r ltac:(lia) Hl) as (it & Hit & Hnew).
      eexists it, _. split; [exact Hit |]. split; [exact Hnew |].
      split; [reflexivity |]. by eexists.
    + lia.
  - apply ui_get_vice_menu_item_by_hotkey_unset; [| | done].
    + split; cbn [with_references menu_ref_count menu_item_references];
        [lia | congruence].
    + cbn [with_references menu_ref_count menu_item_references].
      intros j r' Hj Hl.
      destruct (lookup_lt_is_Some_2 (menu_item_references s) j ltac:(lia))
        as [r Hr].
      destruct (Hin j r Hj Hr) as (it & _ & Hnew).
      rewrite Hnew in Hl. by injection Hl as <-.
Qed.

End Built.

(** *** One pass of the loop of [ui_menu_add] *)

Section Pass.

Context {MH : MenuHeaders} {R : Resources} {WH : WindowHeaders}.

(** The block for a created item that has an action, with room in the
    table. *)
Lemma ui_menu_add_created_stores (s : menu_state) window menu it item h :
  menu_refs_ok s -> menu_ref_count s <> MENU_REFERENCES_MAX ->
  ACTION_NONE < action_id it ->
  exists old s',
    menu_item_references s !! Z.to_nat (menu_ref_count s) = Some old
    /\ ui_menu_add_created window menu it item h s = Done tt s'
    /\ menu_item_references s'
       = <[Z.to_nat (menu_ref_count s) :=
             Menu_item_ref (Some it) (Some item) h window (ref_keysym old)
               (ref_modifier old)]> (menu_item_references s)
    /\ menu_ref_count s' = menu_ref_count s + 1
    /\ calls s'
       = calls s
         ++ [gtk_menu_shell_append menu item;
             g_signal_connect_unlocked item "destroy" "on_menu_item_destroy"
               NULL (next_handler_id s);
             g_object_set_data item "HandlerID" (GINT_TO_POINTER h);
             g_object_set_data item "ActionID"
               (GINT_TO_POINTER (action_id it));
             g_object_set_data item "ResourceName"
               (from_option String_at NULL (resource it))].
Proof.
  intros Hs Hroom Hact. unfold ui_menu_add_created.
  unfold mbind, run_bind, call, connect.
  cbn [calls menu_ref_count menu_item_references accel_group next_widget
       next_handler_id].
  rewrite (proj2 (Z.gtb_lt _ _)) by lia.
  match goal with
  | |- context [add_menu_item_ref ?i ?w ?h' ?n ?st] =>
      destruct (add_menu_item_ref_stores st i w h' n) as (old & Hold & ->);
      [exact Hs | exact Hroom |]
  end.
  cbn [menu_item_references menu_ref_count] in Hold.
  eexists old, _. split; [exact Hold |]. split; [reflexivity |].
  cbn [menu_item_references menu_ref_count calls].
  rewrite <- !app_assoc. done.
Qed.

(** One pass of the loop of [ui_menu_add] for an action, check or radio item
    with a callback and an action, with room in the table: the calls of the
    [switch] up to the connection of the callback, the calls of the block
    for a created item, and the reference stored. *)
Lemma ui_menu_add_item_stores (s : menu_state) window menu group it cb :
  menu_types_distinct -> menu_refs_ok s ->
  menu_ref_count s <> MENU_REFERENCES_MAX ->
  is_activatable it -> callback it = Some cb -> ACTION_NONE < action_id it ->
  let h := if type it =? UI_MENU_TYPE_ITEM_ACTION then 0
           else next_handler_id s in
  let d := if type it =? UI_MENU_TYPE_ITEM_CHECK
           then from_option String_at NULL (resource it) else data it in
  exists g s' old pre post,
    ui_menu_add_item window menu group it s = Done g s'
    /\ menu_item_references s !! Z.to_nat (menu_ref_count s) = Some old
    /\ menu_item_references s'
       = <[Z.to_nat (menu_ref_count s) :=
             Menu_item_ref (Some it) (Some (next_widget s)) h window
               (ref_keysym old) (ref_modifier old)]> (menu_item_references s)
    /\ menu_ref_count s' = menu_ref_count s + 1
    /\ calls s'
       = calls s ++ pre
         ++ (if unlocked it
             then g_signal_connect_unlocked (next_widget s)
                    (callback_signal it) cb d (next_handler_id s)
             else g_signal_connect (next_widget s) (callback_signal it) cb d
                    (next_handler_id s))
         :: post
    /\ g_object_set_data (next_widget s) "HandlerID" (GINT_TO_POINTER h)
       ∈ post.
Proof.
  intros Hd Hs Hroom Hact Hcb Haction. switch_facts Hd.
  destruct it as [l t a c u r d0 k m]. unfold is_activatable in Hact.
  cbn in Hact, Hcb, Haction. subst c.
  unfold callback_signal. cbn [type unlocked resource data].
  destruct Hact as [-> | [-> | [-> | ->]]];
    cbn [ui_menu_add_item]; cbn [type callback label data resource];
    switch_case;
    destruct u, r;
    unfold mbind, run_bind, new_widget, connect_callback, connect, call,
      mret, run_ret;
    cbn -[ui_menu_add_created Z.add];
    match goal with
    | |- context [ui_menu_add_created ?w ?m ?i ?item ?h ?s1] =>
        destruct (ui_menu_add_created_stores s1 w m i item h)
          as (old & s' & Hold & -> & Hrefs & Hcnt & Hcalls);
        [exact Hs | exact Hroom | exact Haction |]
    end;
    cbn [menu_item_references menu_ref_count calls next_handler_id]
      in Hold, Hrefs, Hcnt, Hcalls;
    rewrite <- ?app_assoc in Hcalls; cbn [app] in Hcalls;
    eexists _, s', old;
    match type of Hcalls with
    | _ = _ ++ ?c1 :: g_signal_connect_unlocked _ _ _ _ _ :: ?post =>
        exists [c1], post
    | _ = _ ++ ?c1 :: g_signal_connect _ _ _ _ _ :: ?post =>
        exists [c1], post
    | _ = _ ++ ?c1 :: ?c2 :: _ :: ?post => exists [c1; c2], post
    end;
    (split; [reflexivity |]); (split; [exact Hold |]);
    (split; [exact Hrefs |]); (split; [exact Hcnt |]);
    (split; [exact Hcalls |]);
    do 2 (apply elem_of_cons; right); apply elem_of_cons; by left.
Qed.

(** X9: the handler ID of a reference.  One pass of the loop of
    [ui_menu_add] for an action, check or radio item that has a callback and
    an action ID above [ACTION_NONE], with room in the table, returns and
    stores in the slot [menu_ref_count] the item, the widget created for it
    and the window ID, then increments the count.  The callback is connected
    with the handler ID that GTK hands out; for a check or radio item this
    ID is the one stored in the reference and set as the data [HandlerID] of
    the widget, but for an action item the ID is dropped and 0 is stored and
    set. *)
Theorem ui_menu_add_item_handler_id (s : menu_state) window menu group it cb :
  menu_types_distinct -> menu_refs_ok s ->
  menu_ref_count s <> MENU_REFERENCES_MAX ->
  is_activatable it -> callback it = Some cb -> ACTION_NONE < action_id it ->
  let h := if type it =? UI_MENU_TYPE_ITEM_ACTION then 0
           else next_handler_id s in
  let d := if type it =? UI_MENU_TYPE_ITEM_CHECK
           then from_option String_at NULL (resource it) else data it in
  exists g s' old,
    ui_menu_add_item window menu group it s = Done g s'
    /\ menu_item_references s !! Z.to_nat (menu_ref_count s) = Some old
    /\ menu_item_references s' !! Z.to_nat (menu_ref_count s)
       = Some (Menu_item_ref (Some it) (Some (next_widget s)) h window
                 (ref_keysym old) (ref_modifier old))
    /\ menu_ref_count s' = menu_ref_count s + 1
    /\ (if unlocked it
        then g_signal_connect_unlocked (next_widget s) (callback_signal it)
               cb d (next_handler_id s)
        else g_signal_connect (next_widget s) (callback_signal it) cb d
               (next_handler_id s))
       ∈ calls s'
    /\ g_object_set_data (next_widget s) "HandlerID" (GINT_TO_POINTER h)
       ∈ calls s'.
Proof.
  intros Hd Hs Hroom Hact Hcb Haction h d.
  destruct (ui_menu_add_item_stores s window menu group it cb Hd Hs Hroom Hact
              Hcb Haction)
    as (g & s' & old & pre & post & Hrun & Hold & Hrefs & Hcnt & Hcalls
        & Hpost).
  exists g, s', old. split; [exact Hrun |]. split; [exact Hold |]. split.
  { rewrite Hrefs. apply list_lookup_insert_eq.
    by apply lookup_lt_Some in Hold. }
  split; [exact Hcnt |]. rewrite Hcalls. split.
  - apply elem_of_app; right. apply elem_of_app; right. apply elem_of_cons.
    by left.
  - apply elem_of_app; right. apply elem_of_app; right. apply elem_of_cons.
    by right.
Qed.

(** X10: an item is found once it is added.  After such a pass for a valid
    window and an action ID below [ACTION_ID_COUNT], the lookup by action
    returns a reference: the one it returned before the pass if there was
    one, the new one if not.  In that case
    [ui_get_vice_menu_item_by_action_for_window] returns the item and
    [ui_get_gtk_menu_item_by_action_for_window] the widget created for
    it. *)
Theorem ui_menu_add_item_then_get (s : menu_state) window menu group it cb
    res :
  menu_types_distinct -> menu_refs_filled s ->
  menu_ref_count s <> MENU_REFERENCES_MAX ->
  is_activatable it -> callback it = Some cb ->
  action_ok (action_id it) -> window_ok window ->
  ui_menu_item_ref_by_action (action_id it) window s = Done res s ->
  exists g s',
    ui_menu_add_item window menu group it s = Done g s'
    /\ ui_menu_item_ref_by_action (action_id it) window s'
       = Done (Some (default (menu_ref_count s) res)) s'
    /\ (res = None ->
        ui_get_vice_menu_item_by_action_for_window (action_id it) window s'
        = Done (Some it) s'
        /\ ui_get_gtk_menu_item_by_action_for_window (action_id it) window s'
           = Done (Some (next_widget s)) s').
Proof.
  intros Hd Hs Hroom Hact Hcb Ha Hw Hres.
  destruct (ui_menu_add_item_stores s window menu group it cb Hd (proj1 Hs)
              Hroom Hact Hcb (proj1 Ha))
    as (g & s' & old & _ & _ & Hrun & Hold & Hrefs & Hcnt & _).
  pose proof (ui_menu_item_ref_by_action_one_more s s' _ it (action_id it)
                window res (proj1 Hs) Hroom Hrefs Hcnt eq_refl Hw Ha Hres)
    as Hnew.
  cbn [window_id] in Hnew. rewrite !Z.eqb_refl in Hnew. cbn [andb] in Hnew.
  assert (ui_menu_item_ref_by_action (action_id it) window s'
          = Done (Some (default (menu_ref_count s) res)) s') as Hfound.
  { rewrite Hnew. by destruct res. }
  exists g, s'. split; [exact Hrun |]. split; [exact Hfound |].
  intros ->. cbn [default] in Hfound.
  unfold ui_get_vice_menu_item_by_action_for_window,
    ui_get_gtk_menu_item_by_action_for_window, mbind, run_bind.
  rewrite Hfound. unfold read.
  destruct Hs as [[Hcount _] _].
  assert (ref_at (menu_item_references s') (menu_ref_count s)
          = menu_item_references s' !! Z.to_nat (menu_ref_count s)) as ->.
  { unfold ref_at. destruct (Z.ltb_spec (menu_ref_count s) 0); [lia | done]. }
  rewrite Hrefs, list_lookup_insert_eq by (by apply lookup_lt_Some in Hold).
  done.
Qed.

(** *** The terminator *)

(** The loop stops at the first terminator. *)
Lemma menu_items_loop_stops
    (body : list widget -> ui_menu_item_t -> run (list widget)) before t
    after :
  Forall (fun it => is_terminator it = false) before ->
  is_terminator t = true ->
  forall group (s : menu_state),
    menu_items_loop body group (before ++ t :: after) s
    = menu_items_loop body group (before ++ [t]) s.
Proof.
  intros Hbefore Ht. induction Hbefore as [| it rest Hit Hrest IH];
    intros group s; cbn [app menu_items_loop].
  - by rewrite Ht.
  - rewrite Hit. unfold mbind, run_bind.
    destruct (body group it s) as [g s1 | code s1 |]; [apply IH | done | done].
Qed.

(** X16: [ui_menu_add] stops at the terminator.  An item with a [NULL]
    label and a negative type ends the array: whatever follows it is not
    read, the result and the state are those for the array cut after the
    terminator. *)
Theorem ui_menu_add_stops_at_terminator (s : menu_state) menu before t after
    window :
  Forall (fun it => is_terminator it = false) before ->
  is_terminator t = true ->
  ui_menu_add menu (before ++ t :: after) window s
  = ui_menu_add menu (before ++ [t]) window s.
Proof.
  intros Hbefore Ht. unfold ui_menu_add, mbind, run_bind.
  by rewrite (menu_items_loop_stops _ before t after Hbefore Ht).
Qed.

(** *** The radio button group *)

(** What the values returned have, through the monad. *)
Lemma yields_ret {A : Type} (a : A) (P : A -> Prop) : P a -> yields (mret a) P.
Proof. intros Ha s a' s' [= <- _]. exact Ha. Qed.

Lemma yields_bind {A B : Type} (m : run A) (f : A -> run B) (P : B -> Prop) :
  (forall a, yields (f a) P) -> yields (m ≫= f) P.
Proof.
  intros Hf s b s'. unfold mbind, run_bind.
  destruct (m s) as [a s1 | |]; [apply Hf | done | done].
Qed.

Lemma yields_bind_of {A B : Type} (m : run A) (f : A -> run B)
    (Q : A -> Prop) (P : B -> Prop) :
  yields m Q -> (forall a, Q a -> yields (f a) P) -> yields (m ≫= f) P.
Proof.
  intros Hm Hf s b s'. unfold mbind, run_bind.
  destruct (m s) as [a s1 |  |] eqn:Em; [| done | done].
  apply Hf. by apply (Hm s a s1).
Qed.

Lemma yields_undefined {A : Type} (P : A -> Prop) : yields undefined P.
Proof. intros s a s'. discriminate. Qed.

(** X17: the radio button group.  When one pass of the loop of [ui_menu_add]
    returns, the group it hands to the next pass is, for a radio item, the
    group it was given with the new widget in front, and for any other item
    (an action, a check item, a separator, a submenu, an unknown type) the
    empty group: a run of radio items forms one group, and any other item
    ends it. *)
Theorem ui_menu_add_item_group (s : menu_state) window menu group it g s' :
  menu_types_distinct ->
  ui_menu_add_item window menu group it s = Done g s' ->
  g = if (type it =? UI_MENU_TYPE_ITEM_RADIO_INT)
         || (type it =? UI_MENU_TYPE_ITEM_RADIO_STR)
      then next_widget s :: group else [].
Proof.
  intros Hd. switch_facts Hd. destruct it as [l t a c u r d k m].
  cbn [type].
  destruct ((t =? UI_MENU_TYPE_ITEM_RADIO_INT)
            || (t =? UI_MENU_TYPE_ITEM_RADIO_STR)) eqn:Eradio.
  - assert ((t =? UI_MENU_TYPE_ITEM_ACTION) = false
            /\ (t =? UI_MENU_TYPE_ITEM_CHECK) = false) as [E1 E2].
    { apply orb_true_iff in Eradio. rewrite !Z.eqb_eq in Eradio.
      rewrite !Z.eqb_neq. destruct Eradio as [-> | ->]; split; intros E;
        first [rewrite E in * | rewrite <- E in *]; set_solver. }
    cbn [ui_menu_add_item]. cbn [type callback label data resource].
    rewrite E1, E2, Eradio.
    destruct c, u, r;
      unfold mbind, run_bind, new_widget, connect_callback, connect, call,
        mret, run_ret;
      cbn -[ui_menu_add_created Z.add radio_active];
      match goal with
      | |- context [ui_menu_add_created ?w ?m ?i ?item ?h ?s1] =>
          destruct (ui_menu_add_created w m i item h s1)
      end; congruence.
  - revert s g s'.
    change (yields (ui_menu_add_item window menu group
                      (Menu_item l t a c u r d k m)) (fun g => g = [])).
    cbn [ui_menu_add_item]. cbn [type callback label data resource].
    rewrite Eradio.
    apply (yields_bind_of _ _ (fun x => x.1.1 = [])).
    + repeat
        match goal with
        | |- yields (mret _) _ => by apply yields_ret
        | |- yields undefined _ => apply yields_undefined
        | |- yields (_ ≫= _) _ => apply yields_bind; intros ?
        | |- yields (if ?b then _ else _) _ => destruct b
        | |- yields (match ?x with _ => _ end) _ => destruct x
        end.
    + intros [[g0 item] h] Hg0. cbn in Hg0. subst g0.
      destruct item; [apply yields_bind; intros ? |]; by apply yields_ret.
Qed.

End Pass.

(** *** The theorems at work, with the sample constants *)

(** *** The theorems at work, with the sample constants *)

Section Examples.

Local Existing Instance sample_menu_headers.
Local Existing Instance sample_resources.
Local Existing Instance sample_window_headers.

Lemma menu_state_init_filled : menu_refs_filled menu_state_init.
Proof.
  split; [exact menu_state_init_ok |].
  intros j r Hj. cbn [menu_ref_count menu_state_init] in Hj. lia.
Qed.

Lemma menu_state_init_hotkeys_unset : ref_hotkeys_unset menu_state_init.
Proof.
  intros j r Hl. cbn [menu_item_references menu_state_init] in Hl.
  by apply lookup_replicate in Hl as [-> _].
Qed.

Lemma menu_state_reset_filled : menu_refs_filled menu_state_reset.
Proof.
  split.
  - split; [unfold MENU_REFERENCES_MAX; cbn; lia | reflexivity].
  - intros j r Hj Hl. cbn [menu_ref_count menu_state_reset] in Hj.
    assert (j = 0%nat) as -> by lia. cbn in Hl. injection Hl as <-.
    by eexists.
Qed.

Lemma sample_window_ok : window_ok 0.
Proof. by left. Qed.

Lemma sample_action_ok (a : Z) : 0 < a < 300 -> action_ok a.
Proof. intros Ha. exact Ha. Qed.

(** The reset item is the first, and the one, reference for the action 9 in
    the primary window. *)
Lemma ui_menu_item_ref_by_action_first_witness :
  exists found,
    first_match (ref_is_for 9 0) menu_state_reset found
    /\ ui_menu_item_ref_by_action 9 0 menu_state_reset
       = Done ((fun p => Z.of_nat p.1) <$> found) menu_state_reset.
Proof.
  exact (ui_menu_item_ref_by_action_first menu_state_reset 9 0
           menu_state_reset_filled sample_window_ok
           (sample_action_ok 9 ltac:(lia))).
Defined.

(** The window 5 is none, and 0 is no action. *)
Lemma ui_menu_item_ref_by_action_rejects_witness :
  (exists s', ui_menu_item_ref_by_action 9 5 menu_state_reset = Done None s'
     /\ calls s' = [log_error "Invalid window ID of 5."])
  /\ ui_menu_item_ref_by_action 0 0 menu_state_reset
     = Done None menu_state_reset.
Proof.
  split.
  - destruct (proj1 (ui_menu_item_ref_by_action_rejects menu_state_reset 9 5))
      as (s' & Hrun & Hcalls & _).
    { intros [E | E]; discriminate E. }
    exists s'. split; [exact Hrun | exact Hcalls].
  - apply (proj2 (ui_menu_item_ref_by_action_rejects menu_state_reset 0 0)).
    + exact sample_window_ok.
    + intros [E _]. discriminate E.
Defined.

(** The warp item added after the reset item is found at the index 1. *)
Lemma ui_menu_item_ref_by_action_after_add_witness :
  exists s',
    add_menu_item_ref item_warp 1%nat 3 0 menu_state_reset = Done tt s'
    /\ ui_menu_item_ref_by_action 8 0 s' = Done (Some 1) s'.
Proof.
  destruct (ui_menu_item_ref_by_action_after_add menu_state_reset item_warp
              1%nat 3 0 8 0 menu_state_reset_filled)
    as (s' & res & Hadd & Hres & Hnew).
  - cbn. discriminate.
  - exact sample_window_ok.
  - apply sample_action_ok. lia.
  - exists s'. split; [exact Hadd |].
    assert (res = None) as -> by (vm_compute in Hres; congruence).
    exact Hnew.
Defined.

Lemma add_menu_item_refs_from_init_witness :
  exists s',
    add_menu_item_refs [(item_pause, 0%nat, 0, 0); (item_warp, 1%nat, 3, 0)]
      menu_state_init = Done tt s'
    /\ ui_menu_item_ref_count s' = Done 2 s'
    /\ menu_item_references s' !! 1%nat
       = Some (Menu_item_ref (Some item_warp) (Some 1%nat) 3 0 0 0).
Proof.
  destruct (proj1 (add_menu_item_refs_from_init
                     [(item_pause, 0%nat, 0, 0); (item_warp, 1%nat, 3, 0)]))
    as (s' & Hrun & _ & Hcount & _ & Hslots).
  { unfold MENU_REFERENCES_MAX. cbn. lia. }
  exists s'. split; [exact Hrun |]. split; [exact Hcount |].
  apply Hslots. reflexivity.
Defined.

(** The handler of the warp item, a check item, has the ID 1, which is
    stored; that of the pause item, an action item, has it too, and 0 is
    stored. *)
Lemma ui_menu_add_item_handler_id_witness :
  (exists g s',
     ui_menu_add_item 0 0%nat [] item_warp menu_state_init = Done g s'
     /\ menu_item_references s' !! 0%nat
        = Some (Menu_item_ref (Some item_warp) (Some 0%nat) 1 0 0 0)
     /\ g_signal_connect_unlocked 0%nat "activate" "ui_action_toggle_warp"
          (String_at "WarpMode") 1
        ∈ calls s')
  /\ exists g s',
       ui_menu_add_item 0 0%nat [] item_pause menu_state_init = Done g s'
       /\ menu_item_references s' !! 0%nat
          = Some (Menu_item_ref (Some item_pause) (Some 0%nat) 0 0 0 0)
       /\ g_signal_connect 0%nat "activate" "ui_action_toggle_pause" NULL 1
          ∈ calls s'.
Proof.
  split.
  - destruct (ui_menu_add_item_handler_id menu_state_init 0 0%nat [] item_warp
                "ui_action_toggle_warp" sample_menu_types_distinct
                menu_state_init_ok)
      as (g & s' & old & Hrun & Hold & Hnew & _ & Hconn & _).
    + cbn. discriminate.
    + right. left. reflexivity.
    + reflexivity.
    + reflexivity.
    + exists g, s'. split; [exact Hrun |]. cbn in Hold. injection Hold as <-.
      split; [exact Hnew | exact Hconn].
  - destruct (ui_menu_add_item_handler_id menu_state_init 0 0%nat []
                item_pause "ui_action_toggle_pause" sample_menu_types_distinct
                menu_state_init_ok)
      as (g & s' & old & Hrun & Hold & Hnew & _ & Hconn & _).
    + cbn. discriminate.
    + left. reflexivity.
    + reflexivity.
    + reflexivity.
    + exists g, s'. split; [exact Hrun |]. cbn in Hold. injection Hold as <-.
      split; [exact Hnew | exact Hconn].
Defined.

Lemma ui_menu_add_item_then_get_witness :
  exists g s',
    ui_menu_add_item 0 0%nat [] item_pause menu_state_init = Done g s'
    /\ ui_get_vice_menu_item_by_action_for_window 7 0 s'
       = Done (Some item_pause) s'
    /\ ui_get_gtk_menu_item_by_action_for_window 7 0 s'
       = Done (Some 0%nat) s'.
Proof.
  destruct (ui_menu_add_item_then_get menu_state_init 0 0%nat [] item_pause
              "ui_action_toggle_pause" None sample_menu_types_distinct
              menu_state_init_filled)
    as (g & s' & Hrun & _ & Hget).
  - cbn. discriminate.
  - left. reflexivity.
  - reflexivity.
  - apply sample_action_ok. cbn. lia.
  - exact sample_window_ok.
  - reflexivity.
  - exists g, s'. split; [exact Hrun |]. exact (Hget eq_refl).
Defined.

Lemma ui_menu_add_keeps_lookups_witness :
  match ui_menu_add 0%nat [item_pause; item_warp; menu_terminator] 0
          menu_state_init with
  | Done _ s' | Exited _ s' =>
      menu_refs_filled s'
      /\ exists res, ui_menu_item_ref_by_action 8 0 s' = Done res s'
  | Undefined => True
  end.
Proof.
  pose proof (ui_menu_add_keeps_lookups menu_state_init 0%nat
                [item_pause; item_warp; menu_terminator] 0 8 0
                menu_state_init_filled sample_window_ok
                (sample_action_ok 8 ltac:(lia))) as Hkept.
  exact Hkept.
Defined.

(** The reset item declares the hotkey 114, 8; the reference made for it
    has none. *)
Lemma ui_menu_add_sets_no_hotkey_witness :
  match ui_menu_add 0%nat [item_reset; menu_terminator] 0 menu_state_init with
  | Done _ s' | Exited _ s' =>
      ref_hotkeys_unset s'
      /\ ui_get_vice_menu_item_by_hotkey 114 8 s' = Done None s'
      /\ exists found s'',
           ui_get_menu_item_hotkey_by_action 9 s' = Done (found, 0, 0) s''
  | Undefined => True
  end.
Proof.
  assert (114 <> 0 \/ 8 <> 0) as Hkm by (left; discriminate).
  pose proof (ui_menu_add_sets_no_hotkey menu_state_init 0%nat
                [item_reset; menu_terminator] 0 9 114 8) as Hkept.
  specialize (Hkept menu_state_init_filled menu_state_init_hotkeys_unset Hkm).
  exact Hkept.
Defined.

Lemma ui_get_vice_menu_item_by_hotkey_first_witness :
  exists found,
    first_match (ref_has_hotkey 114 8) menu_state_reset found
    /\ ui_get_vice_menu_item_by_hotkey 114 8 menu_state_reset
       = Done (found ≫= fun p => item_vice p.2) menu_state_reset.
Proof.
  exact (ui_get_vice_menu_item_by_hotkey_first menu_state_reset 114 8
           (proj1 menu_state_reset_filled)).
Defined.

Lemma ui_clear_vice_menu_item_hotkeys_clears_witness :
  exists s', ui_clear_vice_menu_item_hotkeys menu_state_reset = Done tt s'
    /\ calls s' = []
    /\ menu_item_references s' !! 0%nat
       = Some (Menu_item_ref (Some (item_without_hotkey item_reset))
                 (Some 0%nat) 0 0 0 0).
Proof.
  destruct (ui_clear_vice_menu_item_hotkeys_clears menu_state_reset
              menu_state_reset_filled)
    as (s' & Hrun & _ & _ & _ & Hcalls & Hin & _).
  exists s'. split; [exact Hrun |]. split; [exact Hcalls |].
  destruct (Hin 0%nat (Menu_item_ref (Some item_reset) (Some 0%nat) 0 0 114 8))
    as (it & Hit & Hnew); [cbn; lia | reflexivity |].
  injection Hit as <-. exact Hnew.
Defined.

Lemma ui_clear_vice_menu_item_hotkeys_then_lookup_witness :
  exists s',
    ui_clear_vice_menu_item_hotkeys menu_state_reset = Done tt s'
    /\ ui_menu_item_ref_by_action 9 0 s' = Done (Some 0) s'
    /\ ui_get_vice_menu_item_by_hotkey 114 8 s' = Done None s'.
Proof.
  assert (114 <> 0 \/ 8 <> 0) as Hkm by (left; discriminate).
  destruct (ui_clear_vice_menu_item_hotkeys_then_lookup menu_state_reset 9 0
              114 8 menu_state_reset_filled sample_window_ok
              (sample_action_ok 9 ltac:(lia)) Hkm)
    as (s' & res & Hrun & Hres & Hsame & Hnone).
  exists s'. split; [exact Hrun |].
  assert (res = Some 0) as -> by (vm_compute in Hres; congruence).
  split; [exact Hsame | exact Hnone].
Defined.

(** The warp item after the terminator is not read. *)
Lemma ui_menu_add_stops_at_terminator_witness :
  ui_menu_add 0%nat ([item_pause] ++ menu_terminator :: [item_warp]) 0
    menu_state_init
  = ui_menu_add 0%nat ([item_pause] ++ [menu_terminator]) 0 menu_state_init.
Proof.
  apply (ui_menu_add_stops_at_terminator menu_state_init 0%nat [item_pause]
           menu_terminator [item_warp] 0).
  - repeat constructor.
  - reflexivity.
Defined.

(** A radio item joins the group; the pause item ends it. *)
Lemma ui_menu_add_item_group_witness :
  [0%nat; 7%nat]
  = (if (type item_radio =? UI_MENU_TYPE_ITEM_RADIO_INT)
        || (type item_radio =? UI_MENU_TYPE_ITEM_RADIO_STR)
     then next_widget menu_state_init :: [7%nat] else []).
Proof.
  eapply (ui_menu_add_item_group menu_state_init 0 0%nat [7%nat] item_radio).
  - exact sample_menu_types_distinct.
  - vm_compute. reflexivity.
Defined.

End Examples.

End UiMenuRefsFacts.
